(** * Volatility 3: [windows.dumpfiles] and the bash [hist_entry] extension

    A shallow embedding of

    - [volatility/framework/plugins/windows/dumpfiles.py]
      ([DumpFiles.dump_file_producer], [process_file_object], [_generator],
      [run]), and
    - [volatility/framework/symbols/linux/extensions/bash.py]
      ([hist_entry.is_valid], [get_time_as_integer], [get_command]),

    followed by the properties the specification states about them.

    Python generators are modelled by a small monad that threads the
    observable world (the files handed to [produce_file] and the log),
    collects the yielded values in order and propagates exceptions.  Every
    read into the memory image is a value of type [access]: it is either
    available or raises one of the address-fault exceptions. *)

From Stdlib Require Import List String Ascii Bool Arith ZArith NArith Lia.
From Stdlib Require Import Numbers.HexadecimalString.
From Stdlib Require Strings.Byte.
From Stdlib Require Import Sorting.Permutation.
Import ListNotations.

Local Open Scope nat_scope.
Local Open Scope list_scope.
Local Open Scope string_scope.

Set Implicit Arguments.

(* ===================================================================== *)
(** ** Exceptions and results *)
(* ===================================================================== *)

(** The exception classes the two modules raise or catch.
    [PagedInvalidAddressException] is a subclass of
    [InvalidAddressException]. *)
Inductive exn : Type :=
| InvalidAddressException
| PagedInvalidAddressException
| ValueError
| KeyError.

(** [isinstance e cls]: would [except cls] catch [e]? *)
Definition isinstance (e cls : exn) : bool :=
  match cls, e with
  | InvalidAddressException, InvalidAddressException => true
  | InvalidAddressException, PagedInvalidAddressException => true
  | PagedInvalidAddressException, PagedInvalidAddressException => true
  | ValueError, ValueError => true
  | KeyError, KeyError => true
  | _, _ => false
  end.

(** What a call does: return a value or raise. *)
Inductive outcome (A : Type) : Type :=
| Return (a : A)
| Raise (e : exn).
Arguments Return {A} a.
Arguments Raise {A} e.

(** The two ways a read into the image can fault. *)
Inductive fault : Type :=
| invalid_address
| paged_invalid_address.

Definition exn_of_fault (f : fault) : exn :=
  match f with
  | invalid_address => InvalidAddressException
  | paged_invalid_address => PagedInvalidAddressException
  end.

(** A read into the memory image: the value, or an address fault. *)
Inductive access (A : Type) : Type :=
| Avail (a : A)
| Fault (f : fault).
Arguments Avail {A} a.
Arguments Fault {A} f.

Definition outcome_of_access {A} (x : access A) : outcome A :=
  match x with
  | Avail a => Return a
  | Fault f => Raise (exn_of_fault f)
  end.

(* ===================================================================== *)
(** ** Python strings: [format], [ntpath.basename], [int] *)
(* ===================================================================== *)

Module Py.

(** ["{0:#x}".format(z)]: lower-case hexadecimal with the [0x] prefix, the
    sign in front of the prefix. *)
Definition hex_digits (n : N) : string :=
  NilZero.string_of_uint (N.to_hex_uint n).

Definition format_hex (z : Z) : string :=
  match z with
  | Zneg p => "-0x" ++ hex_digits (Npos p)
  | _ => "0x" ++ hex_digits (Z.to_N z)
  end.

(** Strings as character lists, for slicing. *)
Definition chars (s : string) : list ascii := list_ascii_of_string s.
Definition str (l : list ascii) : string := string_of_list_ascii l.

(** [ntpath]: both slashes separate. *)
Definition sep : ascii := "\"%char.
Definition altsep : ascii := "/"%char.
Definition colon : ascii := ":"%char.

Definition is_sep (c : ascii) : bool :=
  Ascii.eqb c sep || Ascii.eqb c altsep.

(** [s.find(c, start)] on a character list: index of the first [c] at or
    after [start], [None] for Python's [-1]. *)
Fixpoint find_from (c : ascii) (start : nat) (l : list ascii) : option nat :=
  match l with
  | [] => None
  | x :: r =>
      match start with
      | O => if Ascii.eqb x c then Some O
             else option_map S (find_from c O r)
      | S k => option_map S (find_from c k r)
      end
  end.

(** [ntpath.splitdrive(p)] (CPython 3.4 to 3.11): a UNC share or a drive
    letter with its colon is the drive, the rest is the path. *)
Definition splitdrive (p : list ascii) : list ascii * list ascii :=
  if (2 <=? List.length p)%nat then
    let normp := map (fun c => if Ascii.eqb c altsep then sep else c) p in
    match normp with
    | c0 :: c1 :: rest =>
        if Ascii.eqb c0 sep && Ascii.eqb c1 sep
           && negb (match rest with c2 :: _ => Ascii.eqb c2 sep | [] => false end)
        then
          match find_from sep 2 normp with
          | None => ([], p)
          | Some index =>
              match find_from sep (index + 1) normp with
              | Some index2 =>
                  if (index2 =? index + 1)%nat then ([], p)
                  else (firstn index2 p, skipn index2 p)
              | None => (p, [])
              end
          end
        else if Ascii.eqb c1 colon then (firstn 2 p, skipn 2 p)
        else ([], p)
    | _ => ([], p)
    end
  else ([], p).

(** The loop of [ntpath.split]: walk back from the end while the character
    is not a separator; the tail is what was walked over. *)
Fixpoint take_while {A} (f : A -> bool) (l : list A) : list A :=
  match l with
  | [] => []
  | x :: r => if f x then x :: take_while f r else []
  end.

Definition nonsep (c : ascii) : bool := negb (is_sep c).

Definition split_tail (p : list ascii) : list ascii :=
  rev (take_while nonsep (rev p)).

(** [ntpath.basename(p)] is [ntpath.split(p)[1]]. *)
Definition basename_chars (p : list ascii) : list ascii :=
  split_tail (snd (splitdrive p)).

Definition basename (p : string) : string := str (basename_chars (chars p)).

End Py.

(* ===================================================================== *)
(** ** [io.BytesIO] *)
(* ===================================================================== *)

Definition bytes : Type := list Byte.byte.

Module BytesIO.

Record t : Type := mk { getvalue : bytes; pos : nat }.

Definition empty : t := mk [] 0.

(** [seek(offset)] only moves the position. *)
Definition seek (b : t) (offset : nat) : t := mk (getvalue b) offset.

(** [write(data)]: writing nothing changes nothing; otherwise the buffer is
    padded with zero bytes up to the position, the data replaces what was
    there and the position moves past it. *)
Definition write (b : t) (d : bytes) : t :=
  match d with
  | [] => b
  | _ =>
      let buf := getvalue b in
      let padded := (buf ++ repeat Byte.x00 (pos b - List.length buf))%list in
      mk (firstn (pos b) padded ++ d ++ skipn (pos b + List.length d) padded)%list
         (pos b + List.length d)
  end.

End BytesIO.

(** [bytes.count(0)]. *)
Definition count_zero (l : bytes) : nat :=
  List.length (filter (Byte.eqb Byte.x00) l).

(* ===================================================================== *)
(** ** The world the plugin acts on *)
(* ===================================================================== *)

(** [interfaces.plugins.FileInterface]: a preferred file name and a
    [BytesIO] buffer. *)
Record FileInterface : Type := {
  preferred_filename : string;
  data : BytesIO.t
}.

Definition new_FileInterface (filename : string) : FileInterface :=
  {| preferred_filename := filename; data := BytesIO.empty |}.

Inductive loglevel : Type := LOGLEVEL_VVV.

(** What an observer sees besides the rows: the files handed to
    [produce_file], and the log records, both oldest first. *)
Record world : Type := {
  files : list FileInterface;
  vollog : list (loglevel * string)
}.

Definition empty_world : world := {| files := []; vollog := [] |}.

(* ===================================================================== *)
(** ** Generators with effects *)
(* ===================================================================== *)

(** A computation in a world yields values of type [Y] in order, ends by
    returning or raising, and leaves a world. *)
Definition Gen (Y A : Type) : Type := world -> list Y * outcome A * world.

Definition yields {Y A} (r : list Y * outcome A * world) : list Y := fst (fst r).
Definition result {Y A} (r : list Y * outcome A * world) : outcome A := snd (fst r).
Definition final {Y A} (r : list Y * outcome A * world) : world := snd r.

Definition ret {Y A} (a : A) : Gen Y A := fun w => ([], Return a, w).

Definition raise {Y A} (e : exn) : Gen Y A := fun w => ([], Raise e, w).

Definition bind {Y A B} (m : Gen Y A) (k : A -> Gen Y B) : Gen Y B :=
  fun w =>
    match m w with
    | (ys, Return a, w1) =>
        let '(ys', r, w2) := k a w1 in ((ys ++ ys')%list, r, w2)
    | (ys, Raise e, w1) => (ys, Raise e, w1)
    end.

Notation "x <- m ;; k" := (bind m (fun x => k))
  (at level 61, m at next level, right associativity).
Notation "m ;;; k" := (bind m (fun _ => k))
  (at level 61, right associativity).

(** [yield y]. *)
Definition yield {Y} (y : Y) : Gen Y unit := fun w => ([y], Return tt, w).

(** A read into the image. *)
Definition deref {Y A} (x : access A) : Gen Y A :=
  fun w => ([], outcome_of_access x, w).

(** [try: body  except cls: handler]. *)
Definition try_except {Y A} (body : Gen Y A) (cls : exn) (handler : Gen Y A)
  : Gen Y A :=
  fun w =>
    match body w with
    | (ys, Raise e, w1) =>
        if isinstance e cls
        then let '(ys', r, w2) := handler w1 in ((ys ++ ys')%list, r, w2)
        else (ys, Raise e, w1)
    | r => r
    end.

(** [for x in l: body x]. *)
Fixpoint for_ {Y X} (l : list X) (body : X -> Gen Y unit) : Gen Y unit :=
  match l with
  | [] => ret tt
  | x :: r => body x ;;; for_ r body
  end.

(** A [for] loop whose body updates a local variable. *)
Fixpoint for_acc {Y X S} (l : list X) (body : X -> S -> Gen Y S) (s : S)
  : Gen Y S :=
  match l with
  | [] => ret s
  | x :: r => s' <- body x s ;; for_acc r body s'
  end.

(** [for y in g: yield f y]: the consumer only re-yields, so the effects of
    [g] are unchanged and its values are mapped. *)
Definition for_yield {Y Y' A} (g : Gen Y A) (f : Y -> Y') : Gen Y' A :=
  fun w => let '(ys, r, w1) := g w in (map f ys, r, w1).

(** [vollog.log(level, msg)]. *)
Definition log {Y} (level : loglevel) (msg : string) : Gen Y unit :=
  fun w => ([], Return tt,
            {| files := files w; vollog := (vollog w ++ [(level, msg)])%list |}).

(** [self.produce_file(filedata)]: the external sink. *)
Definition produce_file {Y} (filedata : FileInterface) : Gen Y unit :=
  fun w => ([], Return tt,
            {| files := (files w ++ [filedata])%list; vollog := vollog w |}).

(* ===================================================================== *)
(** ** The memory image: layers and kernel objects *)
(* ===================================================================== *)

(** A translation layer.  [read offset size] stands for
    [layer.read(offset, size, pad = True)]. *)
Record DataLayer : Type := {
  layer_name : string;
  read : Z -> N -> access bytes
}.

(** One element of [get_available_pages()]: [(memoffset, fileoffset,
    datasize)].  The offset into the file and the page size are unsigned
    quantities. *)
Definition page : Type := (Z * N * N)%type.

(** The iteration of [get_available_pages()], as the [for] statement sees
    it: the next page, the end, or an address fault raised by the cache
    object while it looks for the next page. *)
Inductive page_iter : Type :=
| Exhausted
| Faulted (f : fault)
| Yield (p : page) (rest : page_iter).

(** A [_CONTROL_AREA] or [_SHARED_CACHE_MAP]. *)
Record memory_object : Type := {
  mo_offset : Z;                      (* memory_object.vol.offset *)
  mo_is_valid : access bool;          (* memory_object.is_valid() *)
  get_available_pages : page_iter
}.

(** [_SECTION_OBJECT_POINTERS]: each member read, dereferenced and cast. *)
Record SECTION_OBJECT_POINTERS : Type := {
  DataSectionObject : access memory_object;
  ImageSectionObject : access memory_object;
  SharedCacheMap : access memory_object
}.

(** A [_FILE_OBJECT]. *)
Record FILE_OBJECT : Type := {
  fo_offset : Z;                            (* file_obj.vol.offset *)
  DeviceType : access Z;                    (* file_obj.DeviceObject.DeviceType *)
  file_name_with_device : access string;
  SectionObjectPointer : SECTION_OBJECT_POINTERS;
  fo_is_valid : access bool                 (* file_obj.is_valid() *)
}.

(** An entry of a handle table, as [Handles.handles] yields it. *)
Record handle_entry : Type := {
  entry_offset : Z;
  get_object_type : access (option string);
  Body : FILE_OBJECT                        (* entry.Body.cast("_FILE_OBJECT") *)
}.

(** A node of the VAD tree. *)
Record vad_node : Type := {
  vad_offset : Z;
  has_ControlArea : bool;                   (* vad.has_member("ControlArea") *)
  has_Subsection : bool;                    (* vad.has_member("Subsection") *)
  ControlArea_FilePointer : access FILE_OBJECT;
  Subsection_ControlArea_FilePointer : access FILE_OBJECT
}.

(** An [_EPROCESS]: its handle table, already enumerated by
    [Handles.handles], and its VAD tree, already traversed. *)
Record EPROCESS : Type := {
  proc_offset : Z;
  UniqueProcessId : Z;
  ObjectTable : access (list handle_entry);
  vads : list vad_node                      (* proc.get_vad_root().traverse() *)
}.

(** [self.context]: the two layers the plugin reads, the objects it can
    build at an offset and the processes of the image. *)
Record context : Type := {
  memory_layer : DataLayer;                 (* context.layers["memory_layer"] *)
  primary_layer : DataLayer;                (* context.layers[config["primary"]] *)
  object_at : Z -> access FILE_OBJECT;      (* context.object(_FILE_OBJECT, offset) *)
  processes : list EPROCESS
}.

(** [self.config]. *)
Record config : Type := {
  pid : option Z;
  fileoffset : option Z
}.

(* ===================================================================== *)
(** ** [DumpFiles] *)
(* ===================================================================== *)

Definition FILE_DEVICE_DISK : Z := 0x7.
Definition FILE_DEVICE_NETWORK_FILE_SYSTEM : Z := 0x14.

(** A dict as the association list of its items. *)
Definition EXTENSION_CACHE_MAP : list (string * string) :=
  [ ("dat", "DataSectionObject");
    ("img", "ImageSectionObject");
    ("vacb", "SharedCacheMap") ].

(** [d[key]]: the value, or [KeyError]. *)
Fixpoint getitem {Y} (d : list (string * string)) (key : string) : Gen Y string :=
  match d with
  | [] => raise KeyError
  | (k, v) :: r => if String.eqb k key then ret v else getitem r key
  end.

(** The body of the loop of [dump_file_producer]: read the page, seek, write. *)
Definition write_page {Y} (layer : DataLayer) (p : page) (filedata : FileInterface)
  : Gen Y FileInterface :=
  let '(memoffset, fileoffset, datasize) := p in
  d <- deref (read layer memoffset datasize) ;;
  ret {| preferred_filename := preferred_filename filedata;
         data := BytesIO.write (BytesIO.seek (data filedata) (N.to_nat fileoffset)) d |}.

(** [for memoffset, fileoffset, datasize in memory_object.get_available_pages()]. *)
Fixpoint write_pages {Y} (layer : DataLayer) (pages : page_iter)
  (filedata : FileInterface) : Gen Y FileInterface :=
  match pages with
  | Exhausted => ret filedata
  | Faulted f => raise (exn_of_fault f)
  | Yield p rest =>
      filedata' <- write_page layer p filedata ;;
      write_pages layer rest filedata'
  end.

(** [DumpFiles.dump_file_producer]. *)
Definition dump_file_producer {Y} (file_object : FILE_OBJECT)
  (memory_object : memory_object) (layer : DataLayer)
  (desired_file_name : string) : Gen Y string :=
  let filedata := new_FileInterface desired_file_name in
  try_except
    (filedata <- write_pages layer (get_available_pages memory_object) filedata ;;
     let cached_length := List.length (BytesIO.getvalue (data filedata)) in
     if (cached_length =? 0)%nat
        || (count_zero (BytesIO.getvalue (data filedata)) =? cached_length)%nat
     then
       ret ("No data is cached for the file at "
              ++ Py.format_hex (fo_offset file_object))
     else
       produce_file filedata ;;;
       ret ("Stored " ++ preferred_filename filedata))
    InvalidAddressException
    (ret ("Unable to dump file at " ++ Py.format_hex (fo_offset file_object))).

(** A row of the result grid: cache, file object offset, file name, result. *)
Definition row : Type := (string * Z * string * string)%type.

(** [x not in [FILE_DEVICE_DISK, FILE_DEVICE_NETWORK_FILE_SYSTEM]]. *)
Definition not_in (x : Z) (l : list Z) : bool := negb (existsb (Z.eqb x) l).

(** [getattr(file_obj.SectionObjectPointer, member_name)], dereferenced and
    cast.  The three names are the only ones the plugin asks for. *)
Definition getattr (sop : SECTION_OBJECT_POINTERS) (member_name : string)
  : access memory_object :=
  if String.eqb member_name "DataSectionObject" then DataSectionObject sop
  else if String.eqb member_name "ImageSectionObject" then ImageSectionObject sop
  else SharedCacheMap sop.

Definition dump_parameter : Type := (memory_object * DataLayer * string)%type.

(** The artifact name of one dump parameter. *)
Definition desired_file_name_of (file_obj : FILE_OBJECT) (obj_name : string)
  (memory_object : memory_object) (cache_name extension : string) : string :=
  "file." ++ Py.format_hex (fo_offset file_obj)
    ++ "." ++ Py.format_hex (mo_offset memory_object)
    ++ "." ++ cache_name
    ++ "." ++ Py.basename obj_name
    ++ "." ++ extension.

(** The first two caches: the loop over [DataSectionObject] and
    [ImageSectionObject]. *)
Definition section_caches (ctx : context) (file_obj : FILE_OBJECT)
  (dump_parameters : list dump_parameter) : Gen row (list dump_parameter) :=
  for_acc [("DataSectionObject", "dat"); ("ImageSectionObject", "img")]
    (fun '(member_name, extension) dump_parameters =>
       try_except
         (control_area <- deref (getattr (SectionObjectPointer file_obj) member_name) ;;
          valid <- deref (mo_is_valid control_area) ;;
          if valid
          then ret (dump_parameters ++ [(control_area, memory_layer ctx, extension)])%list
          else ret dump_parameters)
         InvalidAddressException
         (log LOGLEVEL_VVV
            (member_name ++ " is unavailable for file "
               ++ Py.format_hex (fo_offset file_obj)) ;;;
          ret dump_parameters))
    dump_parameters.

(** The third cache: [SharedCacheMap], read from the primary layer. *)
Definition shared_cache (ctx : context) (file_obj : FILE_OBJECT)
  (dump_parameters : list dump_parameter) : Gen row (list dump_parameter) :=
  try_except
    (shared_cache_map <- deref (SharedCacheMap (SectionObjectPointer file_obj)) ;;
     valid <- deref (mo_is_valid shared_cache_map) ;;
     if valid
     then ret (dump_parameters ++ [(shared_cache_map, primary_layer ctx, "vacb")])%list
     else ret dump_parameters)
    InvalidAddressException
    (log LOGLEVEL_VVV
       ("SharedCacheMap is unavailable for file "
          ++ Py.format_hex (fo_offset file_obj)) ;;;
     ret dump_parameters).

(** The last loop: name, reconstruct and report each dump parameter. *)
Definition dump_all (file_obj : FILE_OBJECT) (obj_name : string)
  (dump_parameters : list dump_parameter) : Gen row unit :=
  for_ dump_parameters
    (fun '(memory_object, layer, extension) =>
       cache_name <- getitem EXTENSION_CACHE_MAP extension ;;
       let desired_file_name :=
         desired_file_name_of file_obj obj_name memory_object cache_name extension in
       result_text <- dump_file_producer file_obj memory_object layer desired_file_name ;;
       yield (cache_name, fo_offset file_obj, Py.basename obj_name, result_text)).

(** [DumpFiles.process_file_object]. *)
Definition process_file_object (ctx : context) (file_obj : FILE_OBJECT)
  : Gen row unit :=
  device_type <- deref (DeviceType file_obj) ;;
  if not_in device_type [FILE_DEVICE_DISK; FILE_DEVICE_NETWORK_FILE_SYSTEM] then
    log LOGLEVEL_VVV
      ("The file object at " ++ Py.format_hex (fo_offset file_obj)
         ++ " is not a file on disk")
  else
    obj_name <- deref (file_name_with_device file_obj) ;;
    dump_parameters <- section_caches ctx file_obj [] ;;
    dump_parameters <- shared_cache ctx file_obj dump_parameters ;;
    dump_all file_obj obj_name dump_parameters.

(** What [_generator] yields: [(0, result)]. *)
Definition grid_row : Type := (Z * row)%type.

(** [for result in self.process_file_object(file_obj): yield (0, result)]. *)
Definition yield_results (ctx : context) (file_obj : FILE_OBJECT) : Gen grid_row unit :=
  for_yield (process_file_object ctx file_obj) (fun result => (0%Z, result)).

(** The walk over the handle table of one process. *)
Definition handle_walk (ctx : context) (object_table : list handle_entry)
  : Gen grid_row unit :=
  for_ object_table
    (fun entry =>
       try_except
         (obj_type <- deref (get_object_type entry) ;;
          match obj_type with
          | Some "File" => yield_results ctx (Body entry)
          | _ => ret tt
          end)
         InvalidAddressException
         (log LOGLEVEL_VVV
            ("Cannot extract file from _OBJECT_HEADER at "
               ++ Py.format_hex (entry_offset entry)))).

(** The walk over the VAD tree of one process. *)
Definition vad_walk (ctx : context) (proc : EPROCESS) : Gen grid_row unit :=
  for_ (vads proc)
    (fun vad =>
       try_except
         (file_obj <-
            (if has_ControlArea vad then
               (* Windows xp and 2003 *)
               f <- deref (ControlArea_FilePointer vad) ;; ret (Some f)
             else if has_Subsection vad then
               (* Vista and beyond *)
               f <- deref (Subsection_ControlArea_FilePointer vad) ;; ret (Some f)
             else ret None) ;;
          match file_obj with
          | None => ret tt                                   (* continue *)
          | Some file_obj =>
              valid <- deref (fo_is_valid file_obj) ;;
              if negb valid then ret tt                      (* continue *)
              else yield_results ctx file_obj
          end)
         InvalidAddressException
         (log LOGLEVEL_VVV
            ("Cannot extract file from VAD at " ++ Py.format_hex (vad_offset vad)))).

(** The body of [for proc in procs]. *)
Definition process_walk (ctx : context) (proc : EPROCESS) : Gen grid_row unit :=
  object_table <-
    try_except
      (t <- deref (ObjectTable proc) ;; ret (Some t))
      InvalidAddressException
      (log LOGLEVEL_VVV
         ("Cannot access _EPROCESS.ObjectTable at "
            ++ Py.format_hex (proc_offset proc)) ;;;
       ret None) ;;
  match object_table with
  | None => ret tt                                           (* continue *)
  | Some object_table =>
      handle_walk ctx object_table ;;;
      vad_walk ctx proc
  end.

(** The body of [for offset in offsets]. *)
Definition offset_walk (ctx : context) (offset : Z) : Gen grid_row unit :=
  try_except
    (file_obj <- deref (object_at ctx offset) ;;
     yield_results ctx file_obj)
    InvalidAddressException
    (log LOGLEVEL_VVV ("Cannot extract file at " ++ Py.format_hex offset)).

(** Truth value of a list. *)
Definition truthy {A} (l : list A) : bool :=
  match l with [] => false | _ => true end.

(** [DumpFiles._generator].  The type map and the cookie the [Handles]
    plugin computes once are part of what [get_object_type] answers for an
    entry. *)
Definition _generator (ctx : context) (procs : list EPROCESS) (offsets : list Z)
  : Gen grid_row unit :=
  if truthy procs then for_ procs (process_walk ctx)
  else if truthy offsets then for_ offsets (offset_walk ctx)
  else ret tt.

(** Modelled from the spec: [pslist.PsList.create_pid_filter] and
    [pslist.PsList.list_processes] are not part of the sources; the
    specification says the processes are "pid-filtered" and that no pid
    means all processes.  [filter_func] tells which processes to leave out. *)
Definition create_pid_filter (pid_list : list (option Z)) : EPROCESS -> bool :=
  let filter_list := flat_map (fun x => match x with Some p => [p] | None => [] end)
                              pid_list in
  if truthy filter_list
  then fun proc => negb (existsb (Z.eqb (UniqueProcessId proc)) filter_list)
  else fun _ => false.

Definition list_processes (ctx : context) (filter_func : EPROCESS -> bool)
  : list EPROCESS :=
  filter (fun proc => negb (filter_func proc)) (processes ctx).

(** [renderers.TreeGrid(columns, generator)]. *)
Record TreeGrid : Type := {
  columns : list string;
  generator : Gen grid_row unit
}.

(** [DumpFiles.run]. *)
Definition run (cfg : config) (ctx : context) : TreeGrid :=
  let '(offsets, procs) :=
    match fileoffset cfg with
    | Some offset => ([offset], [])
    | None =>
        let filter_func := create_pid_filter [pid cfg] in
        ([], list_processes ctx filter_func)
    end in
  {| columns := ["Cache"; "FileObject"; "FileName"; "Result"];
     generator := _generator ctx procs offsets |}.

(* ===================================================================== *)
(** ** Python [str] and [int] *)
(* ===================================================================== *)

(** A Python [str] is the sequence of its code points. *)
Module Unicode.

Definition text : Type := list N.

(** [ord(c)]. *)
Definition ord (c : ascii) : N := N_of_ascii c.

(** A literal of Latin-1 characters as a [str]. *)
Definition of_string (s : string) : text := map ord (list_ascii_of_string s).

(** The white space of Unicode 14.0 above ASCII (the characters for which
    [str.isspace] holds). *)
Definition whitespace : list N :=
  [ 0x85; 0xa0; 0x1680; 0x2000; 0x2001; 0x2002; 0x2003; 0x2004; 0x2005;
    0x2006; 0x2007; 0x2008; 0x2009; 0x200a; 0x2028; 0x2029; 0x202f; 0x205f;
    0x3000 ]%N.

(** The digit zero of each set of decimal digits of Unicode 14.0 above
    ASCII; the nine digits that follow it come next. *)
Definition decimal_zeros : list N :=
  [ 0x660; 0x6f0; 0x7c0; 0x966; 0x9e6; 0xa66; 0xae6; 0xb66; 0xbe6; 0xc66;
    0xce6; 0xd66; 0xde6; 0xe50; 0xed0; 0xf20; 0x1040; 0x1090; 0x17e0;
    0x1810; 0x1946; 0x19d0; 0x1a80; 0x1a90; 0x1b50; 0x1bb0; 0x1c40; 0x1c50;
    0xa620; 0xa8d0; 0xa900; 0xa9d0; 0xa9f0; 0xaa50; 0xabf0; 0xff10;
    0x104a0; 0x10d30; 0x11066; 0x110f0; 0x11136; 0x111d0; 0x112f0; 0x11450;
    0x114d0; 0x11650; 0x116c0; 0x11730; 0x118e0; 0x11950; 0x11c50; 0x11d50;
    0x11da0; 0x16a60; 0x16ac0; 0x16b50; 0x1d7ce; 0x1d7d8; 0x1d7e2; 0x1d7ec;
    0x1d7f6; 0x1e140; 0x1e2f0; 0x1e950; 0x1fbf0 ]%N.

Definition isspace (ch : N) : bool := existsb (N.eqb ch) whitespace.

Definition todecimal (ch : N) : option N :=
  match find (fun zero => (zero <=? ch) && (ch <? zero + 10))%N decimal_zeros with
  | Some zero => Some (ch - zero)%N
  | None => None
  end.

End Unicode.

(** Python's [int(s)] for a [str], in base 10, after CPython:
    [PyLong_FromUnicodeObject] turns the string into ASCII and hands it to
    [PyLong_FromString]. *)
Module PyInt.

(** What [int] takes from the interpreter: the two properties of its
    Unicode database that it looks up for the characters above ASCII
    ([Py_UNICODE_ISSPACE], and [Py_UNICODE_TODECIMAL] with [None] for -1), and
    the limit on the number of digits ([sys.get_int_max_str_digits()]; 0 when
    there is none, as in the interpreters before 3.11). *)
Record interpreter : Type := {
  isspace : N -> bool;
  todecimal : N -> option N;
  int_max_str_digits : N
}.

(** CPython 3.11: Unicode 14.0, at most 4300 digits. *)
Definition cpython : interpreter :=
  {| isspace := Unicode.isspace;
     todecimal := Unicode.todecimal;
     int_max_str_digits := 4300 |}.

(** [Py_ISSPACE]: the white space of the C locale. *)
Definition is_space (c : N) : bool :=
  ((c =? 32) || (9 <=? c) && (c <=? 13))%N.

(** [_PyLong_DigitValue[c] < 10]. *)
Definition is_digit (c : N) : bool := ((48 <=? c) && (c <=? 57))%N.

Definition digit_value (c : N) : Z := Z.of_N (c - 48).

Definition underscore : N := 95.

(** [_PyUnicode_TransformDecimalAndSpaceToASCII]: a character below 127 is
    kept; above, white space becomes a blank and a decimal digit its ASCII
    digit; at anything else the buffer ends with a question mark. *)
Fixpoint transform (py : interpreter) (s : Unicode.text) : list N :=
  match s with
  | [] => []
  | ch :: r =>
      if (ch <? 127)%N then ch :: transform py r
      else if isspace py ch then 32%N :: transform py r
      else match todecimal py ch with
           | Some decimal => (48 + decimal)%N :: transform py r
           | None => [63%N]
           end
  end.

(** The loop that steps over the white space [Py_ISSPACE] accepts. *)
Fixpoint skip_space (l : list N) : list N :=
  match l with
  | c :: r => if is_space c then skip_space r else l
  | [] => []
  end.

(** The scan over the digits and underscores: the run scanned and what
    follows it. *)
Fixpoint scan (l : list N) : list N * list N :=
  match l with
  | c :: r =>
      if is_digit c || (c =? underscore)%N
      then let '(run, rest) := scan r in (c :: run, rest)
      else ([], l)
  | [] => ([], [])
  end.

(** The checks of the scan: no two underscores in a row, none at the
    end.  [prev] is the character before. *)
Fixpoint underscores_ok (run : list N) (prev : N) : bool :=
  match run with
  | [] => negb (prev =? underscore)%N
  | c :: r =>
      if ((c =? underscore) && (prev =? underscore))%N then false
      else underscores_ok r c
  end.

Definition count_digits (run : list N) : N :=
  N.of_nat (List.length (filter is_digit run)).

Definition value (run : list N) : Z :=
  fold_left (fun acc c => if (c =? underscore)%N then acc
                          else (10 * acc + digit_value c)%Z)
            run 0%Z.

(** The limit of 3.11 applies above 640 digits. *)
Definition too_many_digits (py : interpreter) (digits : N) : bool :=
  ((640 <? digits) && (0 <? int_max_str_digits py)
   && (int_max_str_digits py <? digits))%N.

(** One sign, plus or minus, may come first. *)
Definition take_sign (str : list N) : Z * list N :=
  match str with
  | c :: r =>
      if (c =? Unicode.ord "+")%N then (1%Z, r)
      else if (c =? Unicode.ord "-")%N then ((-1)%Z, r)
      else (1%Z, str)
  | [] => (1%Z, [])
  end.

(** [str[0] == '_']. *)
Definition starts_with_underscore (str : list N) : bool :=
  match str with
  | c :: _ => (c =? underscore)%N
  | [] => false
  end.

(** [PyLong_FromString(buffer, &end, 10)] with the test that [end] is the
    end of the buffer: [None] stands for the [ValueError]. *)
Definition long_from_string (py : interpreter) (buffer : list N) : option Z :=
  let '(sign, str) := take_sign (skip_space buffer) in
  if starts_with_underscore str then None     (* may not start with underscores *)
  else
    let '(run, rest) := scan str in
    if negb (underscores_ok run 0%N) then None
    else if too_many_digits py (count_digits run) then None
    else match run with
         | [] => None                         (* no digit *)
         | _ =>
             match skip_space rest with
             | [] => Some (sign * value run)%Z
             | _ => None
             end
         end.

(** [int(s)]: the number, or [ValueError]. *)
Definition int (py : interpreter) (s : Unicode.text) : outcome Z :=
  match long_from_string py (transform py s) with
  | Some z => Return z
  | None => Raise ValueError
  end.

End PyInt.

(* ===================================================================== *)
(** ** The bash [hist_entry] *)
(* ===================================================================== *)

Module Bash.

(** A [hist_entry]: its two string pointers, dereferenced and read by
    [utility.array_to_string]. *)
Record hist_entry : Type := {
  line : access Unicode.text;
  timestamp : access Unicode.text
}.

(** The plain exception monad of the methods of this class. *)
Definition obind {A B} (m : outcome A) (k : A -> outcome B) : outcome B :=
  match m with
  | Return a => k a
  | Raise e => Raise e
  end.

Definition otry {A} (body : outcome A) (cls : exn) (handler : outcome A) : outcome A :=
  match body with
  | Raise e => if isinstance e cls then handler else Raise e
  | r => r
  end.

(** [hist_entry.get_command]. *)
Definition get_command (self : hist_entry) : outcome Unicode.text :=
  outcome_of_access (line self).

(** [s[1:]]. *)
Definition from_1 (s : Unicode.text) : Unicode.text :=
  match s with
  | [] => []
  | _ :: r => r
  end.

(** [s[0] != "#"], for a string that is not empty. *)
Definition first_is_not_hash (s : Unicode.text) : bool :=
  match s with
  | c :: _ => negb (c =? Unicode.ord "#")%N
  | [] => true
  end.

(** [hist_entry.is_valid], run by the interpreter [py].  The first [try]
    binds [cmd] and [ts] or returns [False]; [None] below stands for that
    early return.  For a string, [not s or len(s) == 0] says that its length
    is zero. *)
Definition is_valid (py : PyInt.interpreter) (self : hist_entry) : outcome bool :=
  obind
    (otry
       (obind (get_command self) (fun cmd =>
        obind (outcome_of_access (timestamp self)) (fun ts =>
        Return (Some (cmd, ts)))))
       PagedInvalidAddressException
       (Return None))
    (fun bound =>
       match bound with
       | None => Return false
       | Some (cmd, ts) =>
           if (List.length cmd =? 0)%nat then Return false
           else if (List.length ts =? 0)%nat then Return false
           else if (List.length ts <? 10)%nat || first_is_not_hash ts then Return false
           else
             otry
               (obind (PyInt.int py (from_1 ts)) (fun _ => Return true))
               ValueError
               (Return false)
       end).

(** [hist_entry.get_time_as_integer]. *)
Definition get_time_as_integer (py : PyInt.interpreter) (self : hist_entry)
  : outcome Z :=
  obind (outcome_of_access (timestamp self)) (fun ts =>
  let time_string := from_1 ts in
  PyInt.int py time_string).

End Bash.

(* ===================================================================== *)
(** ** Notions the properties are stated with *)
(* ===================================================================== *)

(** The iteration over the pages raises an address fault: the cache object
    faults when asked for the next page, or the layer faults on a read. *)
Inductive iteration_faults (layer : DataLayer) : page_iter -> Prop :=
| faults_next f :
    iteration_faults layer (Faulted f)
| faults_read memoffset fileoffset datasize rest f :
    read layer memoffset datasize = Fault f ->
    iteration_faults layer (Yield (memoffset, fileoffset, datasize) rest)
| faults_later memoffset fileoffset datasize rest d :
    read layer memoffset datasize = Avail d ->
    iteration_faults layer rest ->
    iteration_faults layer (Yield (memoffset, fileoffset, datasize) rest).

(** The iteration completes without a fault; [ws] lists, in iteration
    order, each page with the bytes the layer returned for it. *)
Inductive iteration_completes (layer : DataLayer)
  : page_iter -> list (page * bytes) -> Prop :=
| completes_end :
    iteration_completes layer Exhausted []
| completes_step memoffset fileoffset datasize rest d ws :
    read layer memoffset datasize = Avail d ->
    iteration_completes layer rest ws ->
    iteration_completes layer (Yield (memoffset, fileoffset, datasize) rest)
      (((memoffset, fileoffset, datasize), d) :: ws).

(** The buffer after the writes of [ws], in order. *)
Definition apply_writes (ws : list (page * bytes)) (b : BytesIO.t) : BytesIO.t :=
  fold_left
    (fun b '((_, fileoffset, _), d) =>
       BytesIO.write (BytesIO.seek b (N.to_nat fileoffset)) d)
    ws b.

(** The buffer a fault-free reconstruction accumulates. *)
Definition reconstructed (ws : list (page * bytes)) : bytes :=
  BytesIO.getvalue (apply_writes ws BytesIO.empty).

(** Position [o] of the file lies in the destination range of the page. *)
Definition in_range (p : page) (o : nat) : Prop :=
  let '(_, fileoffset, datasize) := p in
  N.to_nat fileoffset <= o < N.to_nat fileoffset + N.to_nat datasize.

(** [in_range], decided. *)
Definition covers (o : nat) (w : page * bytes) : bool :=
  let '((_, fileoffset, datasize), _) := w in
  (N.to_nat fileoffset <=? o)%nat
  && (o <? N.to_nat fileoffset + N.to_nat datasize)%nat.

(** The contract of [layer.read(offset, size, pad = True)]: when it does
    not fault it returns exactly [size] bytes. *)
Definition reads_exactly (layer : DataLayer) : Prop :=
  forall offset size d,
    read layer offset size = Avail d -> List.length d = N.to_nat size.

(** The three result texts of [dump_file_producer]. *)
Definition no_data_text (file_object : FILE_OBJECT) : string :=
  "No data is cached for the file at " ++ Py.format_hex (fo_offset file_object).
Definition stored_text (filename : string) : string :=
  "Stored " ++ filename.
Definition unable_text (file_object : FILE_OBJECT) : string :=
  "Unable to dump file at " ++ Py.format_hex (fo_offset file_object).

(** The offset into the file at which a page is written. *)
Definition fileoffset_of (p : page) : nat :=
  let '(_, fileoffset, _) := p in N.to_nat fileoffset.

(** The world after [produce_file] and after [log]. *)
Definition with_file (w : world) (f : FileInterface) : world :=
  {| files := (files w ++ [f])%list; vollog := vollog w |}.
Definition with_log (w : world) (msg : string) : world :=
  {| files := files w; vollog := (vollog w ++ [(LOGLEVEL_VVV, msg)])%list |}.

(** The world [w] after more files and more log records. *)
Definition extend (w : world) (fs : list FileInterface)
  (ls : list (loglevel * string)) : world :=
  {| files := (files w ++ fs)%list; vollog := (vollog w ++ ls)%list |}.

(** A computation is framed when it never looks at the world: what it
    yields and how it ends are fixed, and it only appends to the files and
    to the log. *)
Definition framed {Y A} (g : Gen Y A) : Prop :=
  exists ys r fs ls, forall w, g w = (ys, r, extend w fs ls).

(** The only exceptions the computation can raise are address faults. *)
Definition safe {Y A} (g : Gen Y A) : Prop :=
  forall w, match result (g w) with
            | Return _ => True
            | Raise e => isinstance e InvalidAddressException = true
            end.

(** The computation never raises. *)
Definition returns {Y A} (g : Gen Y A) : Prop :=
  forall w, exists a, result (g w) = Return a.

(** The values a framed computation yields. *)
Definition rows_of {Y A} (g : Gen Y A) : list Y := yields (g empty_world).

(** Every file the computation hands to [produce_file] satisfies [P]. *)
Definition produces {Y A} (P : FileInterface -> Prop) (g : Gen Y A) : Prop :=
  forall w, exists fs,
    files (final (g w)) = (files w ++ fs)%list /\ Forall P fs.

(** A queued dump parameter comes from the file object: its extension is a
    key of [EXTENSION_CACHE_MAP] and its cache object is what the member of
    that name points to. *)
Definition queued_from (file_obj : FILE_OBJECT) (p : dump_parameter) : Prop :=
  let '(memory_object, _, extension) := p in
  exists cache_name,
    In (extension, cache_name) EXTENSION_CACHE_MAP
    /\ getattr (SectionObjectPointer file_obj) cache_name = Avail memory_object.

(** The file carries the name the loop of [process_file_object] computes
    for one of the caches of the file object. *)
Definition named_by (file_obj : FILE_OBJECT) (obj_name : string)
  (f : FileInterface) : Prop :=
  exists memory_object extension cache_name,
    In (extension, cache_name) EXTENSION_CACHE_MAP
    /\ getattr (SectionObjectPointer file_obj) cache_name = Avail memory_object
    /\ preferred_filename f
       = desired_file_name_of file_obj obj_name memory_object cache_name extension.

(** The extensions [process_file_object] queues. *)
Definition known_extension (p : dump_parameter) : Prop :=
  let '(_, _, extension) := p in
  extension = "dat" \/ extension = "img" \/ extension = "vacb".

(** The pattern the three caches share: dereference, check validity, queue;
    log and go on when the dereference faults. *)
Definition queue_cache (x : access memory_object) (layer : DataLayer)
  (extension msg : string) (dump_parameters : list dump_parameter)
  : Gen row (list dump_parameter) :=
  try_except
    (cache <- deref x ;;
     valid <- deref (mo_is_valid cache) ;;
     if valid
     then ret (dump_parameters ++ [(cache, layer, extension)])%list
     else ret dump_parameters)
    InvalidAddressException
    (log LOGLEVEL_VVV msg ;;; ret dump_parameters).

(** The artifact name in the words of the specification. *)
Module Spec.




End Spec.


(** The characters of the ASCII buffer that [PyLong_FromString] accepts. *)
Definition ascii_literal (c : N) : Prop :=
  PyInt.is_digit c || PyInt.is_space c
  || (c =? PyInt.underscore)%N || (c =? Unicode.ord "+")%N
  || (c =? Unicode.ord "-")%N = true.

(** The characters a decimal literal accepted by [int] is made of: below
    127 the digits, a sign, underscores and the white space of C; above, the
    white space and the decimal digits of the interpreter's Unicode
    database. *)
Definition literal_char (py : PyInt.interpreter) (c : N) : bool :=
  if (c <? 127)%N then
    PyInt.is_digit c || PyInt.is_space c
    || (c =? PyInt.underscore)%N || (c =? Unicode.ord "+")%N
    || (c =? Unicode.ord "-")%N
  else
    PyInt.isspace py c
    || match PyInt.todecimal py c with Some _ => true | None => false end.

Definition literal (py : PyInt.interpreter) (c : N) : Prop :=
  literal_char py c = true.

(* ===================================================================== *)
(** ** A small image *)
(* ===================================================================== *)

(** Concrete objects on which the properties are exercised. *)
Module Sample.

(** A layer holding [A]s at offset 1, [B]s at offset 2, zeroes at offset 0
    and nothing readable at offset 99. *)
Definition layer : DataLayer :=
  {| layer_name := "memory_layer";
     read := fun offset size =>
       match offset with
       | 0%Z => Avail (repeat Byte.x00 (N.to_nat size))
       | 1%Z => Avail (repeat Byte.x41 (N.to_nat size))
       | 2%Z => Avail (repeat Byte.x42 (N.to_nat size))
       | _ => Fault invalid_address
       end |}.

(** Two overlapping pages: [AAAA] at 0, then [BBBB] at 2. *)
Definition pages : page_iter :=
  Yield (1%Z, 0%N, 4%N) (Yield (2%Z, 2%N, 4%N) Exhausted).

Definition cache : memory_object :=
  {| mo_offset := 0x1000; mo_is_valid := Avail true;
     get_available_pages := pages |}.

(** One page of zeroes. *)
Definition zero_cache : memory_object :=
  {| mo_offset := 0x2000; mo_is_valid := Avail true;
     get_available_pages := Yield (0%Z, 0%N, 4%N) Exhausted |}.

(** One good page, then the cache object faults. *)
Definition torn_cache : memory_object :=
  {| mo_offset := 0x3000; mo_is_valid := Avail true;
     get_available_pages := Yield (1%Z, 0%N, 4%N) (Faulted invalid_address) |}.

(** A file on disk with a data cache, an unreadable image cache and an
    all-zero shared cache map. *)
Definition file : FILE_OBJECT :=
  {| fo_offset := 0xabc;
     DeviceType := Avail FILE_DEVICE_DISK;
     file_name_with_device := Avail "\Device\HarddiskVolume1\Windows\notepad.exe";
     SectionObjectPointer :=
       {| DataSectionObject := Avail cache;
          ImageSectionObject := Fault invalid_address;
          SharedCacheMap := Avail zero_cache |};
     fo_is_valid := Avail true |}.

(** A named pipe: [FILE_DEVICE_NAMED_PIPE] is 0x11. *)
Definition pipe : FILE_OBJECT :=
  {| fo_offset := 0xdef;
     DeviceType := Avail 0x11%Z;
     file_name_with_device := Avail "\Device\NamedPipe\lsass";
     SectionObjectPointer :=
       {| DataSectionObject := Avail cache;
          ImageSectionObject := Avail cache;
          SharedCacheMap := Avail cache |};
     fo_is_valid := Avail true |}.

(** A VAD of the modern layout mapping [file]. *)
Definition vad : vad_node :=
  {| vad_offset := 0x500; has_ControlArea := false; has_Subsection := true;
     ControlArea_FilePointer := Fault invalid_address;
     Subsection_ControlArea_FilePointer := Avail file |}.

(** A process whose handle table cannot be read but whose VAD tree can. *)
Definition proc : EPROCESS :=
  {| proc_offset := 0x7000; UniqueProcessId := 4;
     ObjectTable := Fault invalid_address;
     vads := [vad] |}.

(** A library mapped as an image, with no data cache and an unreadable
    shared cache map. *)
Definition library : FILE_OBJECT :=
  {| fo_offset := 0x123;
     DeviceType := Avail FILE_DEVICE_DISK;
     file_name_with_device := Avail "\Device\HarddiskVolume1\Windows\System32\ntdll.dll";
     SectionObjectPointer :=
       {| DataSectionObject := Fault paged_invalid_address;
          ImageSectionObject := Avail cache;
          SharedCacheMap := Fault invalid_address |};
     fo_is_valid := Avail true |}.

Definition library_vad : vad_node :=
  {| vad_offset := 0x540; has_ControlArea := false; has_Subsection := true;
     ControlArea_FilePointer := Fault invalid_address;
     Subsection_ControlArea_FilePointer := Avail library |}.

(** A process with a handle to [file], a handle to the pipe, and the
    library mapped. *)
Definition handle : handle_entry :=
  {| entry_offset := 0x600; get_object_type := Avail (Some "File");
     Body := file |}.

Definition pipe_handle : handle_entry :=
  {| entry_offset := 0x610; get_object_type := Avail (Some "File");
     Body := pipe |}.

Definition proc2 : EPROCESS :=
  {| proc_offset := 0x8000; UniqueProcessId := 8;
     ObjectTable := Avail [handle; pipe_handle];
     vads := [library_vad] |}.

Definition ctx : context :=
  {| memory_layer := layer;
     primary_layer := layer;
     object_at := fun offset => if (offset =? 0xabc)%Z then Avail file
                                else Fault invalid_address;
     processes := [proc; proc2] |}.

(** A history entry as bash writes it with [HISTTIMEFORMAT] set. *)
Definition entry : Bash.hist_entry :=
  {| Bash.line := Avail (Unicode.of_string "ls -la");
     Bash.timestamp := Avail (Unicode.of_string "#1577836800") |}.

End Sample.

(* ===================================================================== *)
(** ** Further notions *)
(* ===================================================================== *)

(** The destination ranges of two pages have no offset in common. *)
Definition disjoint_pages (x y : page * bytes) : Prop :=
  forall o, ~ (in_range (fst x) o /\ in_range (fst y) o).

(** The offset just past the destination range of a page. *)
Definition range_end (p : page) : nat :=
  let '(_, fileoffset, datasize) := p in N.to_nat fileoffset + N.to_nat datasize.

(** The page has a size. *)
Definition nonempty_page (p : page) : Prop :=
  let '(_, _, datasize) := p in 0 < N.to_nat datasize.

(** The cache object a member of the section object pointers gives: the
    object it points to, when that can be read and says it is valid. *)
Definition valid_cache (x : access memory_object) : list memory_object :=
  match x with
  | Avail cache =>
      match mo_is_valid cache with
      | Avail true => [cache]
      | _ => []
      end
  | Fault _ => []
  end.

(** The text [dump_file_producer] returns for a cache object. *)
Definition result_text (file_obj : FILE_OBJECT) (memory_object : memory_object)
  (layer : DataLayer) (desired_file_name : string) : string :=
  match result (dump_file_producer (Y := row) file_obj memory_object layer
                  desired_file_name empty_world) with
  | Return text => text
  | Raise _ => ""
  end.

(** The row of one cache of a file object, if the cache is there. *)
Definition cache_rows (file_obj : FILE_OBJECT) (obj_name : string)
  (x : access memory_object) (layer : DataLayer) (cache_name extension : string)
  : list row :=
  map (fun cache =>
         (cache_name, fo_offset file_obj, Py.basename obj_name,
          result_text file_obj cache layer
            (desired_file_name_of file_obj obj_name cache cache_name extension)))
      (valid_cache x).

(** The rows [_generator] yields for a file object: those of
    [process_file_object], each in a pair with 0. *)
Definition file_rows (ctx : context) (file_obj : FILE_OBJECT) : list grid_row :=
  map (fun result => (0%Z, result)) (rows_of (process_file_object ctx file_obj)).

(** [obj_type == "File"]. *)
Definition is_file (obj_type : option string) : bool :=
  match obj_type with
  | Some t => String.eqb t "File"
  | None => false
  end.

(** The rows of one handle entry. *)
Definition entry_rows (ctx : context) (entry : handle_entry) : list grid_row :=
  match get_object_type entry with
  | Avail obj_type => if is_file obj_type then file_rows ctx (Body entry) else []
  | Fault _ => []
  end.

(** The file pointer a VAD is resolved through: the control area of the
    legacy layout first, the subsection of the modern layout otherwise. *)
Definition vad_file (vad : vad_node) : option (access FILE_OBJECT) :=
  if has_ControlArea vad then Some (ControlArea_FilePointer vad)
  else if has_Subsection vad then Some (Subsection_ControlArea_FilePointer vad)
  else None.

(** The rows of one VAD. *)
Definition vad_rows (ctx : context) (vad : vad_node) : list grid_row :=
  match vad_file vad with
  | Some (Avail file_obj) =>
      match fo_is_valid file_obj with
      | Avail true => file_rows ctx file_obj
      | _ => []
      end
  | _ => []
  end.

(** The rows of one explicit offset. *)
Definition offset_rows (ctx : context) (offset : Z) : list grid_row :=
  match object_at ctx offset with
  | Avail file_obj => file_rows ctx file_obj
  | Fault _ => []
  end.

(** The file name a result text announces: what follows ["Stored "]. *)
Definition stored_name (result_text : string) : list string :=
  match result_text with
  | String "S" (String "t" (String "o" (String "r" (String "e"
      (String "d" (String " " filename)))))) => [filename]
  | _ => []
  end.

Definition row_stored (r : row) : list string := stored_name (snd r).

Definition grid_stored (r : grid_row) : list string := row_stored (snd r).

(** The files the computation hands to [produce_file] are, in order, the
    files its rows announce. *)
Definition accounted {Y A} (names : Y -> list string) (g : Gen Y A) : Prop :=
  forall w, exists fs,
    files (final (g w)) = (files w ++ fs)%list
    /\ map preferred_filename fs = flat_map names (yields (g w)).

(** No character of the string is a path separator. *)
Definition sep_free (s : string) : Prop :=
  Forall (fun c => Py.is_sep c = false) (Py.chars s).

(** Every value the computation yields satisfies [P]. *)
Definition yields_all {Y A} (P : Y -> Prop) (g : Gen Y A) : Prop :=
  forall w, Forall P (yields (g w)).

(** A well-formed row of [process_file_object] for a file object at
    [offset]: a cache name of [EXTENSION_CACHE_MAP], the offset, a base name
    without separator, and one of the three result texts, the stored name
    being built from the same offset, cache name and base name. *)
Definition row_ok (offset : Z) (r : row) : Prop :=
  let '(cache_name, file_offset, basename, result_text) := r in
  file_offset = offset
  /\ sep_free basename
  /\ exists extension,
       In (extension, cache_name) EXTENSION_CACHE_MAP
       /\ (result_text = "No data is cached for the file at " ++ Py.format_hex offset
           \/ result_text = "Unable to dump file at " ++ Py.format_hex offset
           \/ exists cache_offset,
                result_text
                = "Stored file." ++ Py.format_hex offset
                    ++ "." ++ Py.format_hex cache_offset
                    ++ "." ++ cache_name ++ "." ++ basename ++ "." ++ extension).

(** A well-formed row of [_generator]. *)
Definition grid_row_ok (r : grid_row) : Prop :=
  fst r = 0%Z /\ exists offset, row_ok offset (snd r).

(** More sample objects. *)
Module More.

(** Two cache objects with the same two disjoint pages, in opposite
    orders. *)
Definition forward : memory_object :=
  {| mo_offset := 0x4000; mo_is_valid := Avail true;
     get_available_pages :=
       Yield (1%Z, 0%N, 2%N) (Yield (2%Z, 4%N, 2%N) Exhausted) |}.

Definition backward : memory_object :=
  {| mo_offset := 0x4000; mo_is_valid := Avail true;
     get_available_pages :=
       Yield (2%Z, 4%N, 2%N) (Yield (1%Z, 0%N, 2%N) Exhausted) |}.

(** A process that holds a handle to [Sample.file] and also maps it. *)
Definition twice : EPROCESS :=
  {| proc_offset := 0x9000; UniqueProcessId := 12;
     ObjectTable := Avail [Sample.handle];
     vads := [Sample.vad] |}.

End More.

(* ===================================================================== *)
(** ** Properties of [dump_file_producer] *)
(* ===================================================================== *)

Unset Implicit Arguments.

Section DumpFileProducer.

Variable Y : Type.
Variable layer : DataLayer.

Lemma bind_run {A B} (m : Gen Y A) (k : A -> Gen Y B) w ys a w1 :
  m w = (ys, Return a, w1) ->
  bind m k w = ((ys ++ yields (k a w1))%list, result (k a w1), final (k a w1)).
Proof.
  intros H. unfold bind. rewrite H.
  destruct (k a w1) as [[ys' r] w2]. reflexivity.
Qed.

Lemma bind_raise {A B} (m : Gen Y A) (k : A -> Gen Y B) w ys e w1 :
  m w = (ys, Raise e, w1) -> bind m k w = (ys, Raise e, w1).
Proof. intros H. unfold bind. rewrite H. reflexivity. Qed.

(** A faulting iteration makes the loop raise an address fault; nothing is
    yielded and the world is untouched. *)
Lemma write_pages_faults pages :
  iteration_faults layer pages ->
  forall filedata w,
    exists f, write_pages (Y := Y) layer pages filedata w
              = ([], Raise (exn_of_fault f), w).
Proof.
  induction 1 as [f | mo fo sz rest f Hr | mo fo sz rest d Hr Hrest IH];
    intros filedata w.
  - exists f. reflexivity.
  - exists f. simpl. unfold bind, write_page, deref. rewrite Hr. reflexivity.
  - destruct (IH {| preferred_filename := preferred_filename filedata;
                    data := BytesIO.write
                              (BytesIO.seek (data filedata) (N.to_nat fo)) d |} w)
      as [f Hf].
    exists f. simpl. unfold bind, write_page, deref. rewrite Hr. simpl.
    rewrite Hf. reflexivity.
Qed.

(** A fault-free iteration makes the loop return the buffer with all the
    writes applied in order. *)
Lemma write_pages_completes pages ws :
  iteration_completes layer pages ws ->
  forall filedata w,
    write_pages (Y := Y) layer pages filedata w
    = ([], Return {| preferred_filename := preferred_filename filedata;
                     data := apply_writes ws (data filedata) |}, w).
Proof.
  induction 1 as [| mo fo sz rest d ws Hr Hrest IH]; intros filedata w.
  - destruct filedata. reflexivity.
  - simpl. unfold bind, write_page, deref. rewrite Hr. simpl.
    rewrite IH. reflexivity.
Qed.

(** Every iteration either faults or completes. *)
Lemma iteration_dichotomy pages :
  iteration_faults layer pages \/ exists ws, iteration_completes layer pages ws.
Proof.
  induction pages as [| f | [[mo fo] sz] rest IH].
  - right. exists []. constructor.
  - left. constructor.
  - destruct (read layer mo sz) as [d | f] eqn:Hr.
    + destruct IH as [IH | [ws IH]].
      * left. eapply faults_later; eauto.
      * right. eexists. eapply completes_step; eauto.
    + left. eapply faults_read; eauto.
Qed.

Lemma count_zero_all (l : bytes) :
  count_zero l = List.length l <-> Forall (eq Byte.x00) l.
Proof.
  unfold count_zero. induction l as [| b l IH]; simpl.
  - split; auto.
  - pose proof (filter_length_le (Byte.eqb Byte.x00) l) as Hle.
    destruct (Byte.eqb Byte.x00 b) eqn:E; simpl.
    + apply Byte.byte_dec_bl in E. split.
      * intros H. constructor; [assumption | apply IH; lia].
      * intros H. inversion H; subst. f_equal. apply IH. assumption.
    + split.
      * intros H. lia.
      * intros H. inversion H; subst.
        rewrite (Byte.byte_dec_lb eq_refl) in E. discriminate.
Qed.

Lemma empty_or_zero_spec (buf : bytes) :
  (List.length buf =? 0)%nat || (count_zero buf =? List.length buf)%nat = true
  <-> buf = [] \/ Forall (eq Byte.x00) buf.
Proof.
  rewrite orb_true_iff, !Nat.eqb_eq, count_zero_all.
  split; intros [H | H]; auto.
  - left. destruct buf; [reflexivity | discriminate].
  - left. subst. reflexivity.
Qed.

End DumpFileProducer.

(** *** The buffer *)

Module BytesIOFacts.
Import BytesIO.

Lemma write_length_ge b d :
  List.length (getvalue b) <= List.length (getvalue (write b d)).
Proof.
  destruct d as [| x d']; [apply Nat.le_refl |].
  unfold write. cbn [getvalue].
  set (padded := (getvalue b ++ repeat Byte.x00 (pos b - List.length (getvalue b)))%list).
  assert (Hp : List.length padded
               = List.length (getvalue b) + (pos b - List.length (getvalue b))).
  { unfold padded. rewrite length_app, repeat_length. reflexivity. }
  rewrite !length_app, length_firstn, length_skipn. lia.
Qed.

(** A write puts its bytes at the position. *)
Lemma write_here b off d o :
  off <= o < off + List.length d ->
  nth_error (getvalue (write (seek b off) d)) o = nth_error d (o - off).
Proof.
  intros Ho. destruct d as [| x d']; [simpl in Ho; lia |].
  unfold write, seek. cbn [getvalue pos].
  set (padded := (getvalue b ++ repeat Byte.x00 (off - List.length (getvalue b)))%list).
  assert (Hp : off <= List.length padded).
  { unfold padded. rewrite length_app, repeat_length. lia. }
  assert (Hf : List.length (firstn off padded) = off).
  { rewrite length_firstn. lia. }
  rewrite nth_error_app2 by lia. rewrite Hf.
  rewrite nth_error_app1 by lia. reflexivity.
Qed.

(** A write leaves the bytes outside its range as they were. *)
Lemma write_elsewhere b off d o :
  ~ (off <= o < off + List.length d) ->
  o < List.length (getvalue b) ->
  nth_error (getvalue (write (seek b off) d)) o = nth_error (getvalue b) o.
Proof.
  intros Ho Hlen. destruct d as [| x d']; [reflexivity |].
  unfold write, seek. cbn [getvalue pos].
  set (dd := x :: d') in *.
  set (padded := (getvalue b ++ repeat Byte.x00 (off - List.length (getvalue b)))%list).
  assert (Hp : off <= List.length padded).
  { unfold padded. rewrite length_app, repeat_length. lia. }
  assert (Hf : List.length (firstn off padded) = off).
  { rewrite length_firstn. lia. }
  assert (Hpad : nth_error padded o = nth_error (getvalue b) o).
  { unfold padded. apply nth_error_app1. assumption. }
  destruct (Nat.lt_ge_cases o off) as [Hlt | Hge].
  - rewrite nth_error_app1 by lia.
    rewrite nth_error_firstn.
    destruct (Nat.ltb_spec o off); [assumption | lia].
  - rewrite nth_error_app2 by lia. rewrite Hf.
    rewrite nth_error_app2 by lia.
    rewrite nth_error_skipn. rewrite <- Hpad. f_equal. lia.
Qed.

End BytesIOFacts.

(** Writes that do not cover a position leave its byte as it was. *)
Lemma apply_writes_elsewhere ws : forall b o,
  (forall p d, In (p, d) ws ->
     ~ (fileoffset_of p <= o < fileoffset_of p + List.length d)) ->
  o < List.length (BytesIO.getvalue b) ->
  nth_error (BytesIO.getvalue (apply_writes ws b)) o
  = nth_error (BytesIO.getvalue b) o.
Proof.
  induction ws as [| [[[mo fo] sz] d] ws IH]; intros b o Hout Hlen.
  - reflexivity.
  - unfold apply_writes in *. simpl.
    assert (H0 : ~ (N.to_nat fo <= o < N.to_nat fo + List.length d)).
    { apply (Hout (mo, fo, sz) d). left. reflexivity. }
    rewrite IH.
    + apply BytesIOFacts.write_elsewhere; assumption.
    + intros p d' Hin. apply Hout. right. assumption.
    + eapply Nat.lt_le_trans; [exact Hlen |].
      apply (BytesIOFacts.write_length_ge (BytesIO.seek b (N.to_nat fo)) d).
Qed.

(** Last write wins, in terms of the bytes each page wrote. *)
Lemma apply_writes_last ws : forall b i p d o,
  nth_error ws i = Some (p, d) ->
  fileoffset_of p <= o < fileoffset_of p + List.length d ->
  (forall j p' d', i < j -> nth_error ws j = Some (p', d') ->
     ~ (fileoffset_of p' <= o < fileoffset_of p' + List.length d')) ->
  nth_error (BytesIO.getvalue (apply_writes ws b)) o
  = nth_error d (o - fileoffset_of p).
Proof.
  induction ws as [| [[[mo fo] sz] d0] ws IH]; intros b i p d o Hi Ho Hlater.
  - destruct i; discriminate.
  - destruct i as [| i].
    + simpl in Hi. injection Hi as <- <-.
      unfold apply_writes. simpl.
      change (fold_left _ ws ?b0) with (apply_writes ws b0).
      unfold fileoffset_of in Ho |- *.
      rewrite apply_writes_elsewhere.
      * apply BytesIOFacts.write_here. assumption.
      * intros p' d' Hin. apply In_nth_error in Hin. destruct Hin as [j Hj].
        apply (Hlater (S j) p' d'); [lia | exact Hj].
      * assert (Hh := BytesIOFacts.write_here b _ d0 _ Ho).
        apply nth_error_Some. rewrite Hh. apply nth_error_Some. lia.
    + unfold apply_writes. simpl.
      change (fold_left _ ws ?b0) with (apply_writes ws b0).
      apply (IH _ i); [exact Hi | exact Ho |].
      intros j p' d' Hj Hn. apply (Hlater (S j) p' d'); [lia | exact Hn].
Qed.

(** *** Closed forms of [dump_file_producer] *)

Lemma isinstance_fault f :
  isinstance (exn_of_fault f) InvalidAddressException = true.
Proof. destruct f; reflexivity. Qed.

Lemma dump_file_producer_faults Y file_object memory_object layer name w :
  iteration_faults layer (get_available_pages memory_object) ->
  dump_file_producer (Y := Y) file_object memory_object layer name w
  = ([], Return (unable_text file_object), w).
Proof.
  intros H.
  destruct (write_pages_faults Y layer _ H (new_FileInterface name) w) as [f Hf].
  unfold dump_file_producer, try_except.
  erewrite bind_raise by exact Hf. rewrite isinstance_fault. reflexivity.
Qed.

Lemma dump_file_producer_completes Y file_object memory_object layer name w ws :
  iteration_completes layer (get_available_pages memory_object) ws ->
  dump_file_producer (Y := Y) file_object memory_object layer name w
  = if (List.length (reconstructed ws) =? 0)%nat
       || (count_zero (reconstructed ws) =? List.length (reconstructed ws))%nat
    then ([], Return (no_data_text file_object), w)
    else ([], Return (stored_text name),
          with_file w {| preferred_filename := name;
                         data := apply_writes ws BytesIO.empty |}).
Proof.
  intros H.
  pose proof (write_pages_completes Y layer _ _ H (new_FileInterface name) w) as Hw.
  unfold dump_file_producer, try_except.
  erewrite bind_run by exact Hw. cbn [preferred_filename data new_FileInterface].
  fold (reconstructed ws).
  destruct ((List.length (reconstructed ws) =? 0)%nat
            || (count_zero (reconstructed ws) =? List.length (reconstructed ws))%nat);
    reflexivity.
Qed.

(** C2.  If iterating the pages of the cache object, or reading one of them
    from the layer, raises an address fault at any point, then
    [dump_file_producer] returns the "Unable to dump file" text and leaves the
    world as it found it: no file reaches [produce_file], whatever had been
    accumulated before the fault. *)
Theorem dump_file_producer_all_or_nothing :
  forall Y file_object memory_object layer desired_file_name w,
    iteration_faults layer (get_available_pages memory_object) ->
    let r := dump_file_producer (Y := Y) file_object memory_object layer
               desired_file_name w in
    result r = Return ("Unable to dump file at "
                         ++ Py.format_hex (fo_offset file_object))
    /\ yields r = []
    /\ files (final r) = files w
    /\ final r = w.
Proof.
  intros Y fo mo layer name w H r. subst r.
  rewrite (dump_file_producer_faults Y fo mo layer name w H).
  repeat split.
Qed.

Lemma dump_file_producer_all_or_nothing_witness :
  iteration_faults Sample.layer (get_available_pages Sample.torn_cache)
  /\ result (dump_file_producer (Y := row) Sample.file Sample.torn_cache
               Sample.layer "file.out" empty_world)
     = Return "Unable to dump file at 0xabc"
  /\ files (final (dump_file_producer (Y := row) Sample.file Sample.torn_cache
                     Sample.layer "file.out" empty_world)) = [].
Proof.
  assert (H : iteration_faults Sample.layer (get_available_pages Sample.torn_cache)).
  { eapply faults_later; [reflexivity | constructor]. }
  split; [exact H |].
  destruct (dump_file_producer_all_or_nothing row Sample.file Sample.torn_cache
              Sample.layer "file.out" empty_world H) as (Hr & _ & Hf & _).
  split; [exact Hr | exact Hf].
Defined.

(** C3.  When the iteration completes without a fault: if the accumulated
    buffer is empty or all zero bytes, [dump_file_producer] returns the "No
    data is cached" text and hands nothing to [produce_file]; otherwise it
    hands the buffer to [produce_file] under the desired name and returns
    "Stored" with that name.  In particular an empty page sequence, and a
    non-empty buffer of zero bytes only, are both discarded. *)
Theorem dump_file_producer_keep_or_discard :
  forall Y file_object memory_object layer desired_file_name w ws,
    iteration_completes layer (get_available_pages memory_object) ws ->
    let r := dump_file_producer (Y := Y) file_object memory_object layer
               desired_file_name w in
    let buf := reconstructed ws in
    (buf = [] \/ Forall (eq Byte.x00) buf ->
       r = ([], Return ("No data is cached for the file at "
                          ++ Py.format_hex (fo_offset file_object)), w))
    /\ (buf <> [] -> ~ Forall (eq Byte.x00) buf ->
       r = ([], Return ("Stored " ++ desired_file_name),
            {| files := (files w ++ [{| preferred_filename := desired_file_name;
                                        data := apply_writes ws BytesIO.empty |}])%list;
               vollog := vollog w |}))
    /\ (get_available_pages memory_object = Exhausted ->
        result r = Return (no_data_text file_object) /\ final r = w)
    /\ (buf <> [] -> Forall (eq Byte.x00) buf ->
        result r = Return (no_data_text file_object) /\ final r = w).
Proof.
  intros Y fo mo layer name w ws H r buf. subst r buf.
  rewrite (dump_file_producer_completes Y fo mo layer name w ws H).
  pose proof (empty_or_zero_spec (reconstructed ws)) as Hspec.
  destruct ((List.length (reconstructed ws) =? 0)%nat
            || (count_zero (reconstructed ws) =? List.length (reconstructed ws))%nat)
    eqn:E.
  - assert (Hd : reconstructed ws = [] \/ Forall (eq Byte.x00) (reconstructed ws))
      by (apply Hspec; reflexivity).
    split; [| split; [| split]].
    + intros _. reflexivity.
    + intros Hne Hnz. exfalso.
      destruct Hd as [Hd | Hd]; [exact (Hne Hd) | exact (Hnz Hd)].
    + intros _. split; reflexivity.
    + intros _ _. split; reflexivity.
  - assert (Hd : ~ (reconstructed ws = [] \/ Forall (eq Byte.x00) (reconstructed ws))).
    { intros Hd. apply Hspec in Hd. discriminate. }
    split; [| split; [| split]].
    + intros Hd'. exfalso. exact (Hd Hd').
    + intros _ _. reflexivity.
    + intros Hex. rewrite Hex in H. inversion H; subst ws.
      exfalso. apply Hd. left. reflexivity.
    + intros _ Hz. exfalso. apply Hd. right. exact Hz.
Qed.

Lemma dump_file_producer_keep_or_discard_witness :
  iteration_completes Sample.layer (get_available_pages Sample.cache)
    [ ((1%Z, 0%N, 4%N), repeat Byte.x41 4); ((2%Z, 2%N, 4%N), repeat Byte.x42 4) ]
  /\ dump_file_producer (Y := row) Sample.file Sample.cache Sample.layer
       "file.out" empty_world
     = ([], Return "Stored file.out",
        {| files := [ {| preferred_filename := "file.out";
                         data := BytesIO.mk
                                   [Byte.x41; Byte.x41; Byte.x42; Byte.x42;
                                    Byte.x42; Byte.x42] 6 |} ];
           vollog := [] |}).
Proof.
  assert (H : iteration_completes Sample.layer (get_available_pages Sample.cache)
                [ ((1%Z, 0%N, 4%N), repeat Byte.x41 4);
                  ((2%Z, 2%N, 4%N), repeat Byte.x42 4) ]).
  { apply completes_step; [reflexivity |].
    apply completes_step; [reflexivity |]. apply completes_end. }
  split; [exact H |].
  destruct (dump_file_producer_keep_or_discard row Sample.file Sample.cache
              Sample.layer "file.out" empty_world _ H) as (_ & Hs & _).
  apply Hs.
  - discriminate.
  - intros Hz. inversion Hz. discriminate.
Defined.

(** C9.  [dump_file_producer] is total and always returns one of three
    texts: "No data is cached for the file at <offset>", "Stored <preferred
    filename>" or "Unable to dump file at <offset>".  It never raises to its
    caller (an address fault in particular), returns no other text and
    yields nothing. *)
Theorem dump_file_producer_total :
  forall Y file_object memory_object layer desired_file_name w,
    exists text,
      result (dump_file_producer (Y := Y) file_object memory_object layer
                desired_file_name w) = Return text
      /\ (text = "No data is cached for the file at "
                   ++ Py.format_hex (fo_offset file_object)
          \/ text = "Stored " ++ preferred_filename (new_FileInterface desired_file_name)
          \/ text = "Unable to dump file at "
                      ++ Py.format_hex (fo_offset file_object)).
Proof.
  intros Y fo mo layer name w.
  destruct (iteration_dichotomy layer (get_available_pages mo)) as [H | [ws H]].
  - rewrite (dump_file_producer_faults Y fo mo layer name w H).
    eexists. split; [reflexivity | auto].
  - rewrite (dump_file_producer_completes Y fo mo layer name w ws H).
    destruct ((List.length (reconstructed ws) =? 0)%nat
              || (count_zero (reconstructed ws) =? List.length (reconstructed ws))%nat);
      eexists; (split; [reflexivity | auto]).
Qed.

Lemma covers_in_range o p d : covers o (p, d) = true <-> in_range p o.
Proof.
  destruct p as [[mo fo] sz]. unfold covers, in_range.
  rewrite andb_true_iff, Nat.leb_le, Nat.ltb_lt. reflexivity.
Qed.

(** Among the pages that cover a position, one comes last. *)
Lemma last_covering (ws : list (page * bytes)) o :
  (exists j p d, nth_error ws j = Some (p, d) /\ in_range p o) ->
  exists i p d,
    nth_error ws i = Some (p, d) /\ in_range p o
    /\ forall j p' d', i < j -> nth_error ws j = Some (p', d') -> ~ in_range p' o.
Proof.
  induction ws as [| [p0 d0] ws IH]; intros (j & p & d & Hj & Hin).
  - destruct j; discriminate.
  - destruct (existsb (covers o) ws) eqn:E.
    + apply existsb_exists in E. destruct E as ([p1 d1] & Hmem & Hc).
      apply In_nth_error in Hmem. destruct Hmem as [j1 Hj1].
      destruct IH as (i & pi & di & Hi & Hri & Hlast).
      { exists j1, p1, d1. split; [exact Hj1 | apply (covers_in_range o p1 d1), Hc]. }
      exists (S i), pi, di. split; [exact Hi |]. split; [exact Hri |].
      intros j' p' d' Hlt Hn. destruct j' as [| j']; [lia |].
      apply (Hlast j' p' d'); [lia | exact Hn].
    + assert (Hnone : forall j' p' d',
                 nth_error ws j' = Some (p', d') -> ~ in_range p' o).
      { intros j' p' d' Hn Hr. apply nth_error_In in Hn.
        apply (covers_in_range o p' d') in Hr.
        assert (Ht : existsb (covers o) ws = true).
        { apply existsb_exists. exists (p', d'). split; assumption. }
        rewrite E in Ht. discriminate. }
      destruct j as [| j].
      * simpl in Hj. injection Hj as -> ->.
        exists 0, p, d. split; [reflexivity |]. split; [exact Hin |].
        intros j' p' d' Hlt Hn. destruct j' as [| j']; [lia |].
        apply (Hnone j' p' d' Hn).
      * exfalso. apply (Hnone j p d Hj Hin).
Qed.

(** C4.  After a fault-free reconstruction over a layer that returns exactly
    the bytes asked for, the byte at every offset of the buffer covered by
    some page is the byte written by the page that covers it last in
    iteration order: overlapping destination ranges resolve last write
    wins. *)
Theorem write_pages_last_write_wins :
  forall Y layer pages ws desired_file_name w,
    reads_exactly layer ->
    iteration_completes layer pages ws ->
    exists filedata,
      write_pages (Y := Y) layer pages (new_FileInterface desired_file_name) w
      = ([], Return filedata, w)
      /\ (forall i p d o,
            nth_error ws i = Some (p, d) ->
            in_range p o ->
            (forall j p' d', i < j -> nth_error ws j = Some (p', d') ->
                             ~ in_range p' o) ->
            nth_error (BytesIO.getvalue (data filedata)) o
            = nth_error d (o - fileoffset_of p))
      /\ (forall o,
            (exists j p d, nth_error ws j = Some (p, d) /\ in_range p o) ->
            exists i p d,
              nth_error ws i = Some (p, d) /\ in_range p o
              /\ (forall j p' d', i < j -> nth_error ws j = Some (p', d') ->
                                  ~ in_range p' o)
              /\ nth_error (BytesIO.getvalue (data filedata)) o
                 = nth_error d (o - fileoffset_of p)).
Proof.
  intros Y layer pages ws name w Hexact H.
  assert (Hlen : forall j p' d', nth_error ws j = Some (p', d') ->
                   List.length d' = N.to_nat (snd p')).
  { clear -Hexact H. induction H as [| mo fo sz rest d ws Hr Hrest IH];
      intros j p' d' Hj.
    - destruct j; discriminate.
    - destruct j as [| j].
      + simpl in Hj. injection Hj as <- <-. simpl. eapply Hexact; eassumption.
      + simpl in Hj. eapply IH; eassumption. }
  assert (Hwin : forall i p d o,
             nth_error ws i = Some (p, d) ->
             in_range p o ->
             (forall j p' d', i < j -> nth_error ws j = Some (p', d') ->
                              ~ in_range p' o) ->
             nth_error (BytesIO.getvalue (apply_writes ws BytesIO.empty)) o
             = nth_error d (o - fileoffset_of p)).
  { intros i p d o Hi Ho Hlater.
    apply (apply_writes_last ws BytesIO.empty i p d o Hi).
    + pose proof (Hlen i p d Hi) as Hl.
      destruct p as [[mo fo] sz]. unfold in_range in Ho. simpl in *. lia.
    + intros j p' d' Hij Hj Hin. apply (Hlater j p' d' Hij Hj).
      pose proof (Hlen j p' d' Hj) as Hl.
      destruct p' as [[mo fo] sz]. unfold in_range. simpl in *. lia. }
  eexists. split; [apply (write_pages_completes Y layer pages ws H) |].
  cbn [data new_FileInterface]. split.
  - exact Hwin.
  - intros o Hcov.
    destruct (last_covering ws o Hcov) as (i & p & d & Hi & Hr & Hlast).
    exists i, p, d. repeat (split; [assumption |]).
    apply (Hwin i p d o Hi Hr Hlast).
Qed.

Lemma write_pages_last_write_wins_witness :
  reads_exactly Sample.layer
  /\ iteration_completes Sample.layer Sample.pages
       [ ((1%Z, 0%N, 4%N), repeat Byte.x41 4); ((2%Z, 2%N, 4%N), repeat Byte.x42 4) ]
  /\ exists filedata,
       write_pages (Y := row) Sample.layer Sample.pages
         (new_FileInterface "file.out") empty_world
       = ([], Return filedata, empty_world)
       /\ nth_error (BytesIO.getvalue (data filedata)) 3 = Some Byte.x42.
Proof.
  assert (He : reads_exactly Sample.layer).
  { intros offset size d Hr. unfold Sample.layer in Hr. cbn [read] in Hr.
    destruct offset as [| p |]; [| destruct p as [p | p |]; [| destruct p |] |];
      try discriminate; injection Hr as <-; apply repeat_length. }
  assert (H : iteration_completes Sample.layer Sample.pages
                [ ((1%Z, 0%N, 4%N), repeat Byte.x41 4);
                  ((2%Z, 2%N, 4%N), repeat Byte.x42 4) ]).
  { apply completes_step; [reflexivity |].
    apply completes_step; [reflexivity |]. apply completes_end. }
  split; [exact He |]. split; [exact H |].
  destruct (write_pages_last_write_wins row Sample.layer Sample.pages _
              "file.out" empty_world He H) as [filedata [Hw [Hlast _]]].
  exists filedata. split; [exact Hw |].
  apply (Hlast 1 (2%Z, 2%N, 4%N) (repeat Byte.x42 4) 3).
  - reflexivity.
  - unfold in_range. simpl. lia.
  - intros j p' d' Hj Hn. destruct j as [| [| j]]; [lia | lia |].
    simpl in Hn. destruct j; discriminate.
Defined.

(* ===================================================================== *)
(** ** Generators: framing and exceptions *)
(* ===================================================================== *)

Section GenFacts.

Context {Y : Type}.

Lemma extend_nil w : extend w [] [] = w.
Proof. destruct w. unfold extend. simpl. rewrite !app_nil_r. reflexivity. Qed.

Lemma extend_extend w fs ls fs' ls' :
  extend (extend w fs ls) fs' ls' = extend w (fs ++ fs') (ls ++ ls').
Proof. unfold extend. simpl. rewrite <- !app_assoc. reflexivity. Qed.

Lemma framed_yields {A} (g : Gen Y A) w : framed g -> yields (g w) = rows_of g.
Proof.
  intros (ys & r & fs & ls & H). unfold rows_of. rewrite !H. reflexivity.
Qed.

Lemma framed_result {A} (g : Gen Y A) w w' :
  framed g -> result (g w) = result (g w').
Proof. intros (ys & r & fs & ls & H). rewrite !H. reflexivity. Qed.

Lemma framed_ret {A} (a : A) : framed (ret (Y := Y) a).
Proof.
  exists [], (Return a), [], []. intros w. rewrite extend_nil. reflexivity.
Qed.

Lemma framed_raise {A} e : framed (raise (Y := Y) (A := A) e).
Proof.
  exists [], (Raise e), [], []. intros w. rewrite extend_nil. reflexivity.
Qed.

Lemma framed_yield (y : Y) : framed (yield y).
Proof.
  exists [y], (Return tt), [], []. intros w. rewrite extend_nil. reflexivity.
Qed.

Lemma framed_deref {A} (x : access A) : framed (deref (Y := Y) x).
Proof.
  exists [], (outcome_of_access x), [], []. intros w.
  rewrite extend_nil. reflexivity.
Qed.

Lemma framed_log level msg : framed (log (Y := Y) level msg).
Proof.
  exists [], (Return tt), [], [(level, msg)]. intros w.
  unfold log, extend. simpl. rewrite app_nil_r. reflexivity.
Qed.

Lemma framed_produce_file f : framed (produce_file (Y := Y) f).
Proof.
  exists [], (Return tt), [f], []. intros w.
  unfold produce_file, extend. simpl. rewrite app_nil_r. reflexivity.
Qed.

Lemma framed_bind {A B} (m : Gen Y A) (k : A -> Gen Y B) :
  framed m -> (forall a, framed (k a)) -> framed (bind m k).
Proof.
  intros (ys & r & fs & ls & Hm) Hk. destruct r as [a | e].
  - destruct (Hk a) as (ys' & r' & fs' & ls' & Hk').
    exists (ys ++ ys')%list, r', (fs ++ fs')%list, (ls ++ ls')%list. intros w.
    unfold bind. rewrite Hm, Hk', extend_extend. reflexivity.
  - exists ys, (Raise e), fs, ls. intros w. unfold bind. rewrite Hm. reflexivity.
Qed.

Lemma framed_try_except {A} (body handler : Gen Y A) cls :
  framed body -> framed handler -> framed (try_except body cls handler).
Proof.
  intros (ys & r & fs & ls & Hb) (ys' & r' & fs' & ls' & Hh).
  destruct r as [a | e].
  - exists ys, (Return a), fs, ls. intros w. unfold try_except. rewrite Hb.
    reflexivity.
  - destruct (isinstance e cls) eqn:E.
    + exists (ys ++ ys')%list, r', (fs ++ fs')%list, (ls ++ ls')%list. intros w.
      unfold try_except. rewrite Hb, E, Hh, extend_extend. reflexivity.
    + exists ys, (Raise e), fs, ls. intros w. unfold try_except.
      rewrite Hb, E. reflexivity.
Qed.

Lemma framed_for_ {X} (l : list X) (body : X -> Gen Y unit) :
  (forall x, framed (body x)) -> framed (for_ l body).
Proof.
  intros Hb. induction l as [| x l IH]; simpl.
  - apply framed_ret.
  - apply framed_bind; [apply Hb | intros _; exact IH].
Qed.

Lemma framed_for_acc {X S} (l : list X) (body : X -> S -> Gen Y S) :
  (forall x s, framed (body x s)) -> forall s, framed (for_acc l body s).
Proof.
  intros Hb. induction l as [| x l IH]; intros s; simpl.
  - apply framed_ret.
  - apply framed_bind; [apply Hb | intros s'; apply IH].
Qed.

Lemma framed_for_yield {Y' A} (g : Gen Y' A) (f : Y' -> Y) :
  framed g -> framed (for_yield g f).
Proof.
  intros (ys & r & fs & ls & H). exists (map f ys), r, fs, ls. intros w.
  unfold for_yield. rewrite H. reflexivity.
Qed.

Lemma framed_getitem d key : framed (getitem (Y := Y) d key).
Proof.
  induction d as [| [k v] d IH]; simpl.
  - apply framed_raise.
  - destruct (String.eqb k key); [apply framed_ret | exact IH].
Qed.

(** *** Which exceptions escape *)

Lemma returns_safe {A} (g : Gen Y A) : returns g -> safe g.
Proof. intros H w. destruct (H w) as [a Ha]. rewrite Ha. exact I. Qed.

Lemma returns_ret {A} (a : A) : returns (ret (Y := Y) a).
Proof. intros w. exists a. reflexivity. Qed.

Lemma returns_yield (y : Y) : returns (yield y).
Proof. intros w. exists tt. reflexivity. Qed.

Lemma returns_log level msg : returns (log (Y := Y) level msg).
Proof. intros w. exists tt. reflexivity. Qed.

Lemma safe_deref {A} (x : access A) : safe (deref (Y := Y) x).
Proof.
  intros w. unfold deref, result. simpl. destruct x as [a | f]; simpl.
  - exact I.
  - apply isinstance_fault.
Qed.

Lemma safe_bind {A B} (m : Gen Y A) (k : A -> Gen Y B) :
  safe m -> (forall a, safe (k a)) -> safe (bind m k).
Proof.
  intros Hm Hk w. specialize (Hm w). unfold bind.
  destruct (m w) as [[ys [a | e]] w1]; simpl in *.
  - specialize (Hk a w1). destruct (k a w1) as [[ys' r'] w2]. exact Hk.
  - exact Hm.
Qed.

Lemma returns_bind {A B} (m : Gen Y A) (k : A -> Gen Y B) :
  returns m -> (forall a, returns (k a)) -> returns (bind m k).
Proof.
  intros Hm Hk w. destruct (Hm w) as [a Ha]. unfold bind.
  destruct (m w) as [[ys r] w1]. unfold result in Ha. simpl in Ha. subst r.
  destruct (Hk a w1) as [b Hb]. destruct (k a w1) as [[ys' r'] w2].
  exists b. exact Hb.
Qed.

(** A handler for [InvalidAddressException] that returns makes a safe body
    return. *)
Lemma returns_try_except {A} (body handler : Gen Y A) :
  safe body -> returns handler ->
  returns (try_except body InvalidAddressException handler).
Proof.
  intros Hb Hh w. specialize (Hb w). unfold try_except.
  destruct (body w) as [[ys [a | e]] w1]; simpl in *.
  - exists a. reflexivity.
  - rewrite Hb. destruct (Hh w1) as [a Ha].
    destruct (handler w1) as [[ys' r'] w2]. exists a. exact Ha.
Qed.

Lemma returns_for_ {X} (l : list X) (body : X -> Gen Y unit) :
  (forall x, returns (body x)) -> returns (for_ l body).
Proof.
  intros Hb. induction l as [| x l IH]; simpl.
  - apply returns_ret.
  - apply returns_bind; [apply Hb | intros _; exact IH].
Qed.

Lemma safe_for_yield {Y' A} (g : Gen Y' A) (f : Y' -> Y) :
  safe g -> safe (for_yield g f).
Proof.
  intros H w. specialize (H w). unfold for_yield.
  destruct (g w) as [[ys r] w1]. exact H.
Qed.

(** The rows of a loop whose body is framed and returns are the rows of the
    iterations, one after the other. *)
Lemma for_rows {X} (l : list X) (body : X -> Gen Y unit) :
  (forall x, framed (body x)) -> (forall x, returns (body x)) ->
  forall w, yields (for_ l body w) = flat_map (fun x => rows_of (body x)) l.
Proof.
  intros Hf Hr. induction l as [| x l IH]; intros w; simpl.
  - reflexivity.
  - unfold bind.
    destruct (Hr x w) as [[] Hx].
    pose proof (framed_yields (body x) w (Hf x)) as Hy.
    destruct (body x w) as [[ys r] w1]. unfold result in Hx. simpl in Hx. subst r.
    unfold yields in Hy. simpl in Hy. subst ys.
    specialize (IH w1). destruct (for_ l body w1) as [[ys' r'] w2].
    unfold yields in IH. simpl in IH. subst ys'. reflexivity.
Qed.

End GenFacts.

(* ===================================================================== *)
(** ** Properties of [process_file_object] *)
(* ===================================================================== *)

Lemma returns_bind_post {Y A B} (m : Gen Y A) (k : A -> Gen Y B) (P : A -> Prop) :
  (forall w, exists a, result (m w) = Return a /\ P a) ->
  (forall a, P a -> returns (k a)) ->
  returns (bind m k).
Proof.
  intros Hm Hk w. destruct (Hm w) as (a & Ha & HP). unfold bind.
  destruct (m w) as [[ys r] w1]. unfold result in Ha. simpl in Ha. subst r.
  destruct (Hk a HP w1) as [b Hb]. destruct (k a w1) as [[ys' r'] w2].
  exists b. exact Hb.
Qed.

Lemma framed_write_pages Y layer pages :
  forall filedata, framed (write_pages (Y := Y) layer pages filedata).
Proof.
  induction pages as [| f | [[mo fo] sz] rest IH]; intros filedata; simpl.
  - apply framed_ret.
  - apply framed_raise.
  - apply framed_bind; [| intros fd; apply IH].
    unfold write_page. apply framed_bind; [apply framed_deref |].
    intros d. apply framed_ret.
Qed.

Lemma framed_dump_file_producer Y file_object memory_object layer name :
  framed (dump_file_producer (Y := Y) file_object memory_object layer name).
Proof.
  unfold dump_file_producer. apply framed_try_except; [| apply framed_ret].
  apply framed_bind; [apply framed_write_pages |]. intros fd.
  destruct (_ || _).
  - apply framed_ret.
  - apply framed_bind; [apply framed_produce_file | intros _; apply framed_ret].
Qed.

(** The result of [dump_file_producer] is always one of its three texts. *)
Lemma dump_file_producer_texts Y file_object memory_object layer name w :
  exists text,
    result (dump_file_producer (Y := Y) file_object memory_object layer name w)
    = Return text
    /\ (text = no_data_text file_object
        \/ text = stored_text name
        \/ text = unable_text file_object).
Proof.
  destruct (iteration_dichotomy layer (get_available_pages memory_object))
    as [H | [ws H]].
  - rewrite (dump_file_producer_faults Y file_object memory_object layer name w H).
    eexists. split; [reflexivity | auto].
  - rewrite (dump_file_producer_completes Y file_object memory_object layer name w ws H).
    destruct ((List.length (reconstructed ws) =? 0)%nat
              || (count_zero (reconstructed ws) =? List.length (reconstructed ws))%nat);
      eexists; (split; [reflexivity | auto]).
Qed.

Lemma returns_dump_file_producer Y file_object memory_object layer name :
  returns (dump_file_producer (Y := Y) file_object memory_object layer name).
Proof.
  intros w.
  destruct (dump_file_producer_texts Y file_object memory_object layer name w)
    as (text & H & _).
  exists text. exact H.
Qed.

Lemma framed_queue_cache x layer extension msg dp :
  framed (queue_cache x layer extension msg dp).
Proof.
  unfold queue_cache. apply framed_try_except.
  - apply framed_bind; [apply framed_deref |]. intros cache.
    apply framed_bind; [apply framed_deref |]. intros [|]; apply framed_ret.
  - apply framed_bind; [apply framed_log | intros _; apply framed_ret].
Qed.

Lemma queue_cache_inv (P : dump_parameter -> Prop) x layer extension msg dp w :
  (forall cache, x = Avail cache -> P (cache, layer, extension)) ->
  Forall P dp ->
  exists dp', result (queue_cache x layer extension msg dp w) = Return dp'
              /\ Forall P dp'.
Proof.
  intros Hext Hdp. unfold queue_cache, try_except, bind, deref.
  destruct x as [cache | f]; simpl.
  - destruct (mo_is_valid cache) as [[|] | f]; simpl.
    + eexists. split; [reflexivity |]. apply Forall_app. split; [exact Hdp |].
      constructor; [apply Hext; reflexivity | constructor].
    + eexists. split; [reflexivity | exact Hdp].
    + destruct f; simpl; eexists; (split; [reflexivity | exact Hdp]).
  - destruct f; simpl; eexists; (split; [reflexivity | exact Hdp]).
Qed.

Lemma section_caches_unfold ctx file_obj dp :
  section_caches ctx file_obj dp
  = (dp1 <- queue_cache (DataSectionObject (SectionObjectPointer file_obj))
              (memory_layer ctx) "dat"
              ("DataSectionObject is unavailable for file "
                 ++ Py.format_hex (fo_offset file_obj)) dp ;;
     dp2 <- queue_cache (ImageSectionObject (SectionObjectPointer file_obj))
              (memory_layer ctx) "img"
              ("ImageSectionObject is unavailable for file "
                 ++ Py.format_hex (fo_offset file_obj)) dp1 ;;
     ret dp2).
Proof. reflexivity. Qed.

Lemma shared_cache_unfold ctx file_obj dp :
  shared_cache ctx file_obj dp
  = queue_cache (SharedCacheMap (SectionObjectPointer file_obj))
      (primary_layer ctx) "vacb"
      ("SharedCacheMap is unavailable for file "
         ++ Py.format_hex (fo_offset file_obj)) dp.
Proof. reflexivity. Qed.

Lemma result_bind {Y A B} (m : Gen Y A) (k : A -> Gen Y B) w a :
  result (m w) = Return a ->
  result (bind m k w) = result (k a (final (m w))).
Proof.
  intros H. unfold bind. destruct (m w) as [[ys r] w1].
  unfold result in H. simpl in H. subst r.
  unfold final. simpl. destruct (k a w1) as [[ys' r'] w2]. reflexivity.
Qed.

Lemma framed_section_caches ctx file_obj dp :
  framed (section_caches ctx file_obj dp).
Proof.
  rewrite section_caches_unfold.
  apply framed_bind; [apply framed_queue_cache |]. intros dp1.
  apply framed_bind; [apply framed_queue_cache |]. intros dp2.
  apply framed_ret.
Qed.

Lemma section_caches_inv (P : dump_parameter -> Prop) ctx file_obj dp w :
  (forall cache, DataSectionObject (SectionObjectPointer file_obj) = Avail cache ->
                 P (cache, memory_layer ctx, "dat")) ->
  (forall cache, ImageSectionObject (SectionObjectPointer file_obj) = Avail cache ->
                 P (cache, memory_layer ctx, "img")) ->
  Forall P dp ->
  exists dp', result (section_caches ctx file_obj dp w) = Return dp'
              /\ Forall P dp'.
Proof.
  intros Hdat Himg Hdp. rewrite section_caches_unfold.
  destruct (queue_cache_inv P (DataSectionObject (SectionObjectPointer file_obj))
              (memory_layer ctx) "dat"
              ("DataSectionObject is unavailable for file "
                 ++ Py.format_hex (fo_offset file_obj)) dp w Hdat Hdp)
    as (dp1 & H1 & K1).
  rewrite (result_bind _ _ _ _ H1).
  match goal with |- context [final ?r] => generalize (final r) end. intros w1.
  destruct (queue_cache_inv P (ImageSectionObject (SectionObjectPointer file_obj))
              (memory_layer ctx) "img"
              ("ImageSectionObject is unavailable for file "
                 ++ Py.format_hex (fo_offset file_obj)) dp1 w1 Himg K1)
    as (dp2 & H2 & K2).
  rewrite (result_bind _ _ _ _ H2).
  exists dp2. split; [reflexivity | exact K2].
Qed.

Lemma shared_cache_inv (P : dump_parameter -> Prop) ctx file_obj dp w :
  (forall cache, SharedCacheMap (SectionObjectPointer file_obj) = Avail cache ->
                 P (cache, primary_layer ctx, "vacb")) ->
  Forall P dp ->
  exists dp', result (shared_cache ctx file_obj dp w) = Return dp'
              /\ Forall P dp'.
Proof.
  intros Hv Hdp. rewrite shared_cache_unfold. apply queue_cache_inv; assumption.
Qed.

Lemma framed_dump_all file_obj obj_name dp :
  framed (dump_all file_obj obj_name dp).
Proof.
  unfold dump_all. apply framed_for_. intros [[mo layer] ext].
  apply framed_bind; [apply framed_getitem |]. intros cache_name.
  apply framed_bind; [apply framed_dump_file_producer |]. intros text.
  apply framed_yield.
Qed.

Lemma returns_dump_all file_obj obj_name dp :
  Forall known_extension dp -> returns (dump_all file_obj obj_name dp).
Proof.
  intros Hdp. unfold dump_all. induction Hdp as [| [[mo layer] ext] dp Hx Hdp IH].
  - apply returns_ret.
  - cbn [for_]. apply returns_bind; [| intros _; exact IH].
    apply returns_bind_post with (P := fun _ => True).
    + intros w. destruct Hx as [-> | [-> | ->]]; eexists; (split; [reflexivity | exact I]).
    + intros cache_name _.
      apply returns_bind; [apply returns_dump_file_producer |].
      intros text. apply returns_yield.
Qed.

Lemma framed_process_file_object ctx file_obj :
  framed (process_file_object ctx file_obj).
Proof.
  unfold process_file_object.
  apply framed_bind; [apply framed_deref |]. intros device_type.
  destruct (not_in _ _); [apply framed_log |].
  apply framed_bind; [apply framed_deref |]. intros obj_name.
  apply framed_bind; [apply framed_section_caches |]. intros dp.
  apply framed_bind; [rewrite shared_cache_unfold; apply framed_queue_cache |].
  intros dp'. apply framed_dump_all.
Qed.

(** [process_file_object] raises nothing but address faults. *)
Lemma safe_process_file_object ctx file_obj :
  safe (process_file_object ctx file_obj).
Proof.
  unfold process_file_object.
  apply safe_bind; [apply safe_deref |]. intros device_type.
  destruct (not_in _ _); [apply returns_safe, returns_log |].
  apply safe_bind; [apply safe_deref |]. intros obj_name.
  apply returns_safe.
  apply returns_bind_post with (P := Forall known_extension).
  { intros w. apply section_caches_inv; [| | constructor];
      intros cache _; simpl; auto. }
  intros dp Hdp.
  apply returns_bind_post with (P := Forall known_extension).
  { intros w. apply shared_cache_inv; [| exact Hdp].
    intros cache _; simpl; auto. }
  intros dp' Hdp'. apply returns_dump_all. exact Hdp'.
Qed.

(** C5.  A file object whose device type is neither [FILE_DEVICE_DISK]
    (0x7) nor [FILE_DEVICE_NETWORK_FILE_SYSTEM] (0x14) yields no row: the
    generator only logs that the object is not a file on disk and returns.
    No file is produced, and nothing of the caches is looked at: whatever the
    section object pointers, the name and the validity of the object are, the
    outcome is the same. *)
Theorem process_file_object_skips_other_devices :
  forall ctx file_obj device_type w,
    DeviceType file_obj = Avail device_type ->
    device_type <> FILE_DEVICE_DISK ->
    device_type <> FILE_DEVICE_NETWORK_FILE_SYSTEM ->
    process_file_object ctx file_obj w
    = ([], Return tt,
       with_log w ("The file object at " ++ Py.format_hex (fo_offset file_obj)
                     ++ " is not a file on disk"))
    /\ forall pointers name valid,
         process_file_object ctx
           {| fo_offset := fo_offset file_obj;
              DeviceType := DeviceType file_obj;
              file_name_with_device := name;
              SectionObjectPointer := pointers;
              fo_is_valid := valid |} w
         = process_file_object ctx file_obj w.
Proof.
  intros ctx file_obj device_type w Hdt Hdisk Hnet.
  assert (Hskip : not_in device_type
                    [FILE_DEVICE_DISK; FILE_DEVICE_NETWORK_FILE_SYSTEM] = true).
  { unfold not_in. simpl.
    destruct (Z.eqb_spec device_type FILE_DEVICE_DISK); [contradiction |].
    destruct (Z.eqb_spec device_type FILE_DEVICE_NETWORK_FILE_SYSTEM);
      [contradiction | reflexivity]. }
  split.
  - unfold process_file_object, bind, deref. rewrite Hdt. simpl.
    rewrite Hskip. reflexivity.
  - intros pointers name valid.
    unfold process_file_object, bind, deref. simpl. rewrite Hdt. simpl.
    rewrite Hskip. reflexivity.
Qed.

Lemma process_file_object_skips_other_devices_witness :
  DeviceType Sample.pipe = Avail 0x11%Z
  /\ 0x11%Z <> FILE_DEVICE_DISK
  /\ 0x11%Z <> FILE_DEVICE_NETWORK_FILE_SYSTEM
  /\ process_file_object Sample.ctx Sample.pipe empty_world
     = ([], Return tt,
        {| files := [];
           vollog := [(LOGLEVEL_VVV,
                       "The file object at 0xdef is not a file on disk")] |}).
Proof.
  assert (H1 : DeviceType Sample.pipe = Avail 0x11%Z) by reflexivity.
  assert (H2 : 0x11%Z <> FILE_DEVICE_DISK) by discriminate.
  assert (H3 : 0x11%Z <> FILE_DEVICE_NETWORK_FILE_SYSTEM) by discriminate.
  repeat (split; [assumption |]).
  exact (proj1 (process_file_object_skips_other_devices
                  Sample.ctx Sample.pipe 0x11%Z empty_world H1 H2 H3)).
Defined.

(* ===================================================================== *)
(** ** Properties of [_generator] and [run] *)
(* ===================================================================== *)

Lemma yields_bind {Y A B} (m : Gen Y A) (k : A -> Gen Y B) w a :
  result (m w) = Return a ->
  yields (bind m k w) = (yields (m w) ++ yields (k a (final (m w))))%list.
Proof.
  intros H. unfold bind. destruct (m w) as [[ys r] w1].
  unfold result in H. simpl in H. subst r.
  unfold final, yields. simpl. destruct (k a w1) as [[ys' r'] w2]. reflexivity.
Qed.

Lemma framed_yield_results ctx file_obj : framed (yield_results ctx file_obj).
Proof. apply framed_for_yield, framed_process_file_object. Qed.

Lemma safe_yield_results ctx file_obj : safe (yield_results ctx file_obj).
Proof. apply safe_for_yield, safe_process_file_object. Qed.

Lemma framed_handle_walk ctx object_table : framed (handle_walk ctx object_table).
Proof.
  unfold handle_walk. apply framed_for_. intros entry.
  apply framed_try_except; [| apply framed_log].
  apply framed_bind; [apply framed_deref |].
  intros [s |]; [| apply framed_ret].
  destruct (String.eqb_spec s "File") as [-> | Hne].
  - apply framed_yield_results.
  - repeat match goal with
           | |- framed (match ?x with _ => _ end) => destruct x
           end; try apply framed_ret; apply framed_yield_results.
Qed.

Lemma returns_handle_walk ctx object_table : returns (handle_walk ctx object_table).
Proof.
  unfold handle_walk. apply returns_for_. intros entry.
  apply returns_try_except; [| apply returns_log].
  apply safe_bind; [apply safe_deref |].
  intros [s |]; [| apply returns_safe, returns_ret].
  repeat match goal with
         | |- safe (match ?x with _ => _ end) => destruct x
         end; try (apply returns_safe, returns_ret); apply safe_yield_results.
Qed.

Lemma framed_vad_walk ctx proc : framed (vad_walk ctx proc).
Proof.
  unfold vad_walk. apply framed_for_. intros vad.
  apply framed_try_except; [| apply framed_log].
  apply framed_bind.
  - destruct (has_ControlArea vad); [| destruct (has_Subsection vad)].
    + apply framed_bind; [apply framed_deref | intros f; apply framed_ret].
    + apply framed_bind; [apply framed_deref | intros f; apply framed_ret].
    + apply framed_ret.
  - intros [file_obj |]; [| apply framed_ret].
    apply framed_bind; [apply framed_deref |].
    intros [|]; simpl; [apply framed_yield_results | apply framed_ret].
Qed.

Lemma returns_vad_walk ctx proc : returns (vad_walk ctx proc).
Proof.
  unfold vad_walk. apply returns_for_. intros vad.
  apply returns_try_except; [| apply returns_log].
  apply safe_bind.
  - destruct (has_ControlArea vad); [| destruct (has_Subsection vad)].
    + apply safe_bind; [apply safe_deref | intros f; apply returns_safe, returns_ret].
    + apply safe_bind; [apply safe_deref | intros f; apply returns_safe, returns_ret].
    + apply returns_safe, returns_ret.
  - intros [file_obj |]; [| apply returns_safe, returns_ret].
    apply safe_bind; [apply safe_deref |].
    intros [|]; simpl; [apply safe_yield_results | apply returns_safe, returns_ret].
Qed.

Lemma framed_process_walk ctx proc : framed (process_walk ctx proc).
Proof.
  unfold process_walk. apply framed_bind.
  - apply framed_try_except.
    + apply framed_bind; [apply framed_deref | intros t; apply framed_ret].
    + apply framed_bind; [apply framed_log | intros _; apply framed_ret].
  - intros [object_table |]; [| apply framed_ret].
    apply framed_bind; [apply framed_handle_walk | intros _; apply framed_vad_walk].
Qed.

Lemma returns_process_walk ctx proc : returns (process_walk ctx proc).
Proof.
  unfold process_walk. apply returns_bind.
  - apply returns_try_except.
    + apply safe_bind; [apply safe_deref | intros t; apply returns_safe, returns_ret].
    + apply returns_bind; [apply returns_log | intros _; apply returns_ret].
  - intros [object_table |]; [| apply returns_ret].
    apply returns_bind; [apply returns_handle_walk | intros _; apply returns_vad_walk].
Qed.

(** A process whose handle table cannot be read is skipped with a log
    record. *)
Lemma process_walk_fault ctx proc f w :
  ObjectTable proc = Fault f ->
  process_walk ctx proc w
  = ([], Return tt,
     with_log w ("Cannot access _EPROCESS.ObjectTable at "
                   ++ Py.format_hex (proc_offset proc))).
Proof.
  intros H. unfold process_walk, bind, try_except, deref. rewrite H. simpl.
  destruct f; reflexivity.
Qed.

(** The rows of one process: the rows of its handle table, then the rows of
    its VAD tree; none when the handle table cannot be read. *)
Lemma process_walk_rows ctx proc :
  rows_of (process_walk ctx proc)
  = match ObjectTable proc with
    | Avail object_table =>
        (rows_of (handle_walk ctx object_table) ++ rows_of (vad_walk ctx proc))%list
    | Fault _ => []
    end.
Proof.
  destruct (ObjectTable proc) as [object_table | f] eqn:E.
  - unfold rows_of at 1.
    assert (Hp : process_walk ctx proc empty_world
                 = bind (handle_walk ctx object_table) (fun _ => vad_walk ctx proc)
                     empty_world).
    { unfold process_walk at 1. unfold bind at 1, try_except, deref.
      unfold bind at 1. rewrite E. simpl.
      destruct (bind (handle_walk ctx object_table) _ empty_world) as [[ys r] w2].
      reflexivity. }
    rewrite Hp.
    destruct (returns_handle_walk ctx object_table empty_world) as [[] Hr].
    rewrite (yields_bind _ _ _ _ Hr).
    rewrite (framed_yields (vad_walk ctx proc) _ (framed_vad_walk ctx proc)).
    reflexivity.
  - unfold rows_of. rewrite (process_walk_fault ctx proc f empty_world E).
    reflexivity.
Qed.

Lemma generator_rows ctx proc procs offsets w :
  yields (_generator ctx (proc :: procs) offsets w)
  = flat_map (fun p => rows_of (process_walk ctx p)) (proc :: procs).
Proof.
  unfold _generator. cbn [truthy].
  apply for_rows.
  - apply framed_process_walk.
  - apply returns_process_walk.
Qed.

(** C6.  In process-driven mode the rows come in a fixed order: process by
    process in the order of the input, and for each process all the rows of
    its handle table before any row of its VAD tree. *)
Theorem generator_row_order :
  forall ctx proc procs offsets w,
    yields (_generator ctx (proc :: procs) offsets w)
    = flat_map
        (fun p =>
           match ObjectTable p with
           | Avail object_table =>
               rows_of (handle_walk ctx object_table) ++ rows_of (vad_walk ctx p)
           | Fault _ => []
           end)%list
        (proc :: procs).
Proof.
  intros ctx proc procs offsets w. rewrite generator_rows.
  apply flat_map_ext. intros p. apply process_walk_rows.
Qed.

(** C1, as stated, fails: the process [Sample.proc] has an unreadable handle
    table and a VAD that maps a file with cached data.  Its VAD walk alone
    yields two rows, yet the generator yields none for it, because the
    [continue] taken on the fault skips the VAD walk as well. *)
Lemma generator_handle_fault_drops_vad_rows :
  ObjectTable Sample.proc = Fault invalid_address
  /\ yields (vad_walk Sample.ctx Sample.proc empty_world)
     = [ (0%Z, ("DataSectionObject", 0xabc%Z, "notepad.exe",
                "Stored file.0xabc.0x1000.DataSectionObject.notepad.exe.dat"));
         (0%Z, ("SharedCacheMap", 0xabc%Z, "notepad.exe",
                "No data is cached for the file at 0xabc")) ]
  /\ yields (_generator Sample.ctx [Sample.proc] [] empty_world) = [].
Proof. repeat split; vm_compute; reflexivity. Qed.

(** C1, amended.  A process whose handle table cannot be read is skipped as
    a whole: the generator logs the fault and yields no row for it, neither
    from the handle table nor from the VAD tree, and produces no file.  The
    rows of the other processes are what they would be without it. *)
Theorem generator_handle_fault_skips_process :
  forall ctx proc f,
    ObjectTable proc = Fault f ->
    (forall w,
       process_walk ctx proc w
       = ([], Return tt,
          {| files := files w;
             vollog := (vollog w
                        ++ [(LOGLEVEL_VVV,
                             ("Cannot access _EPROCESS.ObjectTable at "
                                ++ Py.format_hex (proc_offset proc))%string)])%list |}))
    /\ (forall before after offsets w,
          yields (_generator ctx (before ++ proc :: after) offsets w)
          = (flat_map (fun p => rows_of (process_walk ctx p)) before
             ++ flat_map (fun p => rows_of (process_walk ctx p)) after)%list).
Proof.
  intros ctx proc f H. split.
  - intros w. apply (process_walk_fault ctx proc f w H).
  - intros before after offsets w.
    assert (Hg : yields (_generator ctx (before ++ proc :: after) offsets w)
                 = flat_map (fun p => rows_of (process_walk ctx p))
                     (before ++ proc :: after)).
    { destruct before as [| p0 before]; apply generator_rows. }
    rewrite Hg, flat_map_app. f_equal. simpl.
    rewrite process_walk_rows, H. reflexivity.
Qed.

Lemma generator_handle_fault_skips_process_witness :
  ObjectTable Sample.proc = Fault invalid_address
  /\ yields (_generator Sample.ctx ([] ++ Sample.proc :: [Sample.proc2]) []
               empty_world)
     = ([] ++ flat_map (fun p => rows_of (process_walk Sample.ctx p))
                [Sample.proc2])%list.
Proof.
  assert (H : ObjectTable Sample.proc = Fault invalid_address) by reflexivity.
  split; [exact H |].
  exact (proj2 (generator_handle_fault_skips_process
                  Sample.ctx Sample.proc invalid_address H)
           [] [Sample.proc2] [] empty_world).
Defined.

(** C8.  When the file object offset is configured, [run] processes that
    single offset and the pid filter has no effect: two configurations with
    the same offset give the same grid, whatever their pids, and so the same
    rows, files and log in every world. *)
Theorem run_mode_exclusive :
  forall ctx cfg1 cfg2 offset,
    fileoffset cfg1 = Some offset ->
    fileoffset cfg2 = Some offset ->
    run cfg1 ctx = run cfg2 ctx
    /\ generator (run cfg1 ctx) = for_ [offset] (offset_walk ctx)
    /\ forall w, generator (run cfg1 ctx) w = generator (run cfg2 ctx) w.
Proof.
  intros ctx cfg1 cfg2 offset H1 H2.
  unfold run. rewrite H1, H2. repeat split.
Qed.

Lemma run_mode_exclusive_witness :
  fileoffset {| pid := Some 4%Z; fileoffset := Some 0xabc%Z |} = Some 0xabc%Z
  /\ fileoffset {| pid := None; fileoffset := Some 0xabc%Z |} = Some 0xabc%Z
  /\ run {| pid := Some 4%Z; fileoffset := Some 0xabc%Z |} Sample.ctx
     = run {| pid := None; fileoffset := Some 0xabc%Z |} Sample.ctx.
Proof.
  split; [reflexivity |]. split; [reflexivity |].
  exact (proj1 (run_mode_exclusive Sample.ctx
                  {| pid := Some 4%Z; fileoffset := Some 0xabc%Z |}
                  {| pid := None; fileoffset := Some 0xabc%Z |}
                  0xabc%Z eq_refl eq_refl)).
Defined.

(* ===================================================================== *)
(** ** The artifact name *)
(* ===================================================================== *)

Section Basename.











End Basename.

(** *** The files [process_file_object] produces *)

Section Produces.

Context {Y : Type} (P : FileInterface -> Prop).

Lemma produces_same {A} (g : Gen Y A) :
  (forall w, files (final (g w)) = files w) -> produces P g.
Proof.
  intros H w. exists []. rewrite H, app_nil_r. split; [reflexivity | constructor].
Qed.

Lemma produces_bind_post {A B} (Q : A -> Prop) (m : Gen Y A) (k : A -> Gen Y B) :
  produces P m ->
  (forall w a, result (m w) = Return a -> Q a) ->
  (forall a, Q a -> produces P (k a)) ->
  produces P (bind m k).
Proof.
  intros Hm HQ Hk w. destruct (Hm w) as (fs & Hf & HP). specialize (HQ w).
  unfold bind. destruct (m w) as [[ys r] w1]. unfold final, result in *.
  simpl in *. destruct r as [a | e].
  - destruct (Hk a (HQ a eq_refl) w1) as (fs' & Hf' & HP').
    destruct (k a w1) as [[ys' r'] w2]. unfold final in Hf'. simpl in *.
    exists (fs ++ fs')%list. rewrite Hf', Hf, app_assoc.
    split; [reflexivity | apply Forall_app; split; assumption].
  - exists fs. split; assumption.
Qed.

Lemma produces_bind {A B} (m : Gen Y A) (k : A -> Gen Y B) :
  produces P m -> (forall a, produces P (k a)) -> produces P (bind m k).
Proof.
  intros Hm Hk. apply produces_bind_post with (Q := fun _ => True); auto.
Qed.

Lemma produces_try_except {A} (body handler : Gen Y A) cls :
  produces P body -> produces P handler ->
  produces P (try_except body cls handler).
Proof.
  intros Hb Hh w. destruct (Hb w) as (fs & Hf & HP).
  unfold try_except. destruct (body w) as [[ys r] w1]. unfold final in *.
  simpl in *. destruct r as [a | e].
  - exists fs. split; assumption.
  - destruct (isinstance e cls).
    + destruct (Hh w1) as (fs' & Hf' & HP').
      destruct (handler w1) as [[ys' r'] w2]. unfold final in Hf'. simpl in *.
      exists (fs ++ fs')%list. rewrite Hf', Hf, app_assoc.
      split; [reflexivity | apply Forall_app; split; assumption].
    + exists fs. split; assumption.
Qed.

Lemma produces_for_ {X} (l : list X) (body : X -> Gen Y unit) :
  (forall x, In x l -> produces P (body x)) -> produces P (for_ l body).
Proof.
  induction l as [| x l IH]; intros Hb; simpl.
  - apply produces_same. reflexivity.
  - apply produces_bind.
    + apply Hb. left. reflexivity.
    + intros _. apply IH. intros y Hy. apply Hb. right. exact Hy.
Qed.

Lemma produces_for_yield {Y' A} (g : Gen Y' A) (f : Y' -> Y) :
  produces P g -> produces P (for_yield g f).
Proof.
  intros H w. destruct (H w) as (fs & Hf & HP). unfold for_yield.
  destruct (g w) as [[ys r] w1]. exists fs. split; assumption.
Qed.

End Produces.

Lemma produces_queue_cache P x layer extension msg dp :
  produces P (queue_cache x layer extension msg dp).
Proof.
  unfold queue_cache. apply produces_try_except.
  - apply produces_bind; [apply produces_same; reflexivity |]. intros cache.
    apply produces_bind; [apply produces_same; reflexivity |].
    intros [|]; apply produces_same; reflexivity.
  - apply produces_bind; [apply produces_same; reflexivity |].
    intros _. apply produces_same. reflexivity.
Qed.

(** [dump_file_producer] hands over at most one file, under the desired
    name. *)
Lemma produces_dump_file_producer Y file_object memory_object layer name :
  produces (fun f => preferred_filename f = name)
    (dump_file_producer (Y := Y) file_object memory_object layer name).
Proof.
  intros w.
  destruct (iteration_dichotomy layer (get_available_pages memory_object))
    as [H | [ws H]].
  - rewrite (dump_file_producer_faults Y file_object memory_object layer name w H).
    exists []. rewrite app_nil_r. split; [reflexivity | constructor].
  - rewrite (dump_file_producer_completes Y file_object memory_object layer name w ws H).
    destruct (_ || _).
    + exists []. rewrite app_nil_r. split; [reflexivity | constructor].
    + eexists. split; [reflexivity |]. constructor; [reflexivity | constructor].
Qed.

Lemma getitem_extension Y extension cache_name w :
  In (extension, cache_name) EXTENSION_CACHE_MAP ->
  getitem (Y := Y) EXTENSION_CACHE_MAP extension w = ([], Return cache_name, w).
Proof.
  intros [H | [H | [H | []]]]; injection H as <- <-; reflexivity.
Qed.

Lemma produces_dump_all file_obj obj_name dp :
  Forall (queued_from file_obj) dp ->
  produces (named_by file_obj obj_name) (dump_all file_obj obj_name dp).
Proof.
  intros Hdp. unfold dump_all. apply produces_for_.
  intros [[memory_object layer] extension] Hin.
  rewrite Forall_forall in Hdp. destruct (Hdp _ Hin) as (cache_name & Hmap & Hget).
  apply produces_bind_post with (Q := fun a => a = cache_name).
  - apply produces_same. intros w.
    rewrite (getitem_extension _ extension cache_name w Hmap). reflexivity.
  - intros w a. rewrite (getitem_extension _ extension cache_name w Hmap).
    intros [= <-]. reflexivity.
  - intros a ->. apply produces_bind.
    + intros w.
      destruct (produces_dump_file_producer row file_obj memory_object layer
                  (desired_file_name_of file_obj obj_name memory_object
                     cache_name extension) w) as (fs & Hf & HP).
      exists fs. split; [exact Hf |].
      eapply Forall_impl; [| exact HP]. intros f Hname.
      exists memory_object, extension, cache_name. auto.
    + intros text. apply produces_same. reflexivity.
Qed.

Lemma produces_process_file_object ctx file_obj obj_name :
  file_name_with_device file_obj = Avail obj_name ->
  produces (named_by file_obj obj_name) (process_file_object ctx file_obj).
Proof.
  intros Hname. unfold process_file_object.
  apply produces_bind; [apply produces_same; reflexivity |]. intros device_type.
  destruct (not_in _ _); [apply produces_same; reflexivity |].
  apply produces_bind_post with (Q := fun a => a = obj_name).
  { apply produces_same. reflexivity. }
  { intros w a. unfold deref, result. simpl. rewrite Hname. simpl.
    intros [= <-]. reflexivity. }
  intros a ->.
  apply produces_bind_post with (Q := Forall (queued_from file_obj)).
  { rewrite section_caches_unfold.
    apply produces_bind; [apply produces_queue_cache |]. intros dp1.
    apply produces_bind; [apply produces_queue_cache |]. intros dp2.
    apply produces_same. reflexivity. }
  { intros w dp Hr.
    destruct (section_caches_inv (queued_from file_obj) ctx file_obj [] w)
      as (dp' & Hr' & Hq).
    - intros cache Hc. exists "DataSectionObject". split; [simpl; auto | exact Hc].
    - intros cache Hc. exists "ImageSectionObject". split; [simpl; auto | exact Hc].
    - constructor.
    - rewrite Hr in Hr'. injection Hr' as <-. exact Hq. }
  intros dp Hdp.
  apply produces_bind_post with (Q := Forall (queued_from file_obj)).
  { rewrite shared_cache_unfold. apply produces_queue_cache. }
  { intros w dp' Hr.
    destruct (shared_cache_inv (queued_from file_obj) ctx file_obj dp w)
      as (dp'' & Hr' & Hq).
    - intros cache Hc. exists "SharedCacheMap". split; [simpl; auto | exact Hc].
    - exact Hdp.
    - rewrite Hr in Hr'. injection Hr' as <-. exact Hq. }
  intros dp' Hdp'. apply produces_dump_all. exact Hdp'.
Qed.



(* ===================================================================== *)
(** ** Properties of the bash [hist_entry] *)
(* ===================================================================== *)

Section IntLiteral.

Variable py : PyInt.interpreter.

Lemma ascii_literal_space c : PyInt.is_space c = true -> ascii_literal c.
Proof.
  unfold ascii_literal. intros ->. rewrite orb_true_r. reflexivity.
Qed.

Lemma skip_space_literal l :
  Forall ascii_literal (PyInt.skip_space l) -> Forall ascii_literal l.
Proof.
  induction l as [| c r IH]; simpl; [auto |].
  destruct (PyInt.is_space c) eqn:E; [| auto].
  intros H. constructor; [apply ascii_literal_space, E | apply IH, H].
Qed.

Lemma skip_space_nil l :
  PyInt.skip_space l = [] -> Forall ascii_literal l.
Proof.
  induction l as [| c r IH]; simpl; [constructor |].
  destruct (PyInt.is_space c) eqn:E; [| discriminate].
  intros H. constructor; [apply ascii_literal_space, E | apply IH, H].
Qed.

(** The scan splits the string into a run of digits and underscores and
    the rest. *)
Lemma scan_split l : forall run rest,
  PyInt.scan l = (run, rest) ->
  l = (run ++ rest)%list /\ Forall ascii_literal run.
Proof.
  induction l as [| c r IH]; intros run rest H; simpl in H.
  - injection H as <- <-. split; [reflexivity | constructor].
  - destruct (PyInt.is_digit c || (c =? PyInt.underscore)%N) eqn:E.
    + destruct (PyInt.scan r) as [run' rest'] eqn:Es.
      injection H as <- <-. destruct (IH run' rest' eq_refl) as [-> Hrun].
      split; [reflexivity |]. constructor; [| exact Hrun].
      unfold ascii_literal. apply orb_true_iff in E. destruct E as [-> | ->].
      * reflexivity.
      * rewrite !orb_true_r. reflexivity.
    + injection H as <- <-. split; [reflexivity | constructor].
Qed.

(** A buffer [PyLong_FromString] accepts holds nothing but digits,
    underscores, a sign and white space. *)
Lemma long_from_string_literal buffer z :
  PyInt.long_from_string py buffer = Some z -> Forall ascii_literal buffer.
Proof.
  unfold PyInt.long_from_string. intros H. apply skip_space_literal.
  destruct (PyInt.take_sign (PyInt.skip_space buffer)) as [sign str] eqn:Esign.
  assert (Hstr : Forall ascii_literal str).
  { destruct (PyInt.starts_with_underscore str); [discriminate |].
    destruct (PyInt.scan str) as [run rest] eqn:Es.
    destruct (negb (PyInt.underscores_ok run 0)); [discriminate |].
    destruct (PyInt.too_many_digits py (PyInt.count_digits run)); [discriminate |].
    destruct run as [| c run']; [discriminate |].
    destruct (PyInt.skip_space rest) eqn:Er; [| discriminate].
    destruct (scan_split str _ _ Es) as [-> Hrun].
    apply Forall_app. split; [exact Hrun | apply skip_space_nil, Er]. }
  clear H. unfold PyInt.take_sign in Esign.
  destruct (PyInt.skip_space buffer) as [| c r].
  - constructor.
  - destruct (c =? Unicode.ord "+")%N eqn:Ep.
    + injection Esign as _ <-. constructor; [| exact Hstr].
      unfold ascii_literal. rewrite Ep, !orb_true_r. reflexivity.
    + destruct (c =? Unicode.ord "-")%N eqn:Em.
      * injection Esign as _ <-. constructor; [| exact Hstr].
        unfold ascii_literal. rewrite Em, !orb_true_r. reflexivity.
      * injection Esign as _ <-. exact Hstr.
Qed.

(** The characters of a string whose ASCII buffer is accepted. *)
Lemma transform_literal s :
  Forall ascii_literal (PyInt.transform py s) -> Forall (literal py) s.
Proof.
  induction s as [| ch r IH]; simpl; [constructor |].
  destruct (ch <? 127)%N eqn:E.
  - intros H. inversion H as [| ? ? Hc Hr]; subst.
    constructor; [| apply IH, Hr].
    unfold literal, literal_char. rewrite E. exact Hc.
  - destruct (PyInt.isspace py ch) eqn:Esp.
    + intros H. inversion H as [| ? ? Hc Hr]; subst.
      constructor; [| apply IH, Hr].
      unfold literal, literal_char. rewrite E, Esp. reflexivity.
    + destruct (PyInt.todecimal py ch) as [decimal |] eqn:Ed.
      * intros H. inversion H as [| ? ? Hc Hr]; subst.
        constructor; [| apply IH, Hr].
        unfold literal, literal_char. rewrite E, Esp, Ed. reflexivity.
      * intros H. inversion H as [| ? ? Hc Hr]; subst.
        unfold ascii_literal in Hc. discriminate.
Qed.

(** A string [int] accepts is made of literal characters only. *)
Lemma int_literal_chars s z :
  PyInt.int py s = Return z -> Forall (literal py) s.
Proof.
  unfold PyInt.int. intros H.
  destruct (PyInt.long_from_string py (PyInt.transform py s)) as [z' |] eqn:E;
    [| discriminate].
  apply transform_literal. eapply long_from_string_literal, E.
Qed.

(** [int] raises nothing but [ValueError]. *)
Lemma int_raises s e : PyInt.int py s = Raise e -> e = ValueError.
Proof.
  unfold PyInt.int. destruct (PyInt.long_from_string _ _); [discriminate |].
  intros [= <-]. reflexivity.
Qed.

End IntLiteral.

(** C10.  When [is_valid] returns [True], the timestamp string starts with
    ["#"], is at least 10 characters long, and what follows the ["#"] is a
    decimal literal that [int] accepts, made of literal characters only; so
    [get_time_as_integer] raises no [ValueError] and returns that integer. *)
Theorem hist_entry_valid_timestamp :
  forall py self,
    Bash.is_valid py self = Return true ->
    exists ts n,
      Bash.timestamp self = Avail ts
      /\ nth_error ts 0 = Some (Unicode.ord "#")
      /\ 10 <= List.length ts
      /\ PyInt.int py (Bash.from_1 ts) = Return n
      /\ Forall (literal py) (Bash.from_1 ts)
      /\ Bash.get_time_as_integer py self = Return n.
Proof.
  intros py self H.
  unfold Bash.is_valid, Bash.get_command, Bash.obind, Bash.otry in H.
  destruct (Bash.line self) as [cmd | f1] eqn:El; simpl in H.
  2: { destruct f1; simpl in H; discriminate. }
  destruct (Bash.timestamp self) as [ts | f2] eqn:Et; simpl in H.
  2: { destruct f2; simpl in H; discriminate. }
  destruct (List.length cmd =? 0)%nat; [discriminate |].
  destruct (List.length ts =? 0)%nat; [discriminate |].
  destruct (List.length ts <? 10)%nat eqn:Elen; [discriminate |].
  destruct (Bash.first_is_not_hash ts) eqn:Eh; [discriminate |]. simpl in H.
  destruct (PyInt.int py (Bash.from_1 ts)) as [n | e] eqn:Ei.
  2: { rewrite (int_raises py _ e Ei) in H. simpl in H. discriminate. }
  exists ts, n.
  split; [reflexivity |].
  split.
  { destruct ts as [| c ts']; [discriminate |]. simpl in Eh |- *.
    apply negb_false_iff in Eh. apply N.eqb_eq in Eh. subst c. reflexivity. }
  split; [apply Nat.ltb_ge, Elen |].
  split; [exact Ei |].
  split; [apply (int_literal_chars py _ n Ei) |].
  unfold Bash.get_time_as_integer, Bash.obind. rewrite Et. simpl. exact Ei.
Qed.

Lemma hist_entry_valid_timestamp_witness :
  Bash.is_valid PyInt.cpython Sample.entry = Return true
  /\ exists ts n,
       Bash.timestamp Sample.entry = Avail ts
       /\ nth_error ts 0 = Some (Unicode.ord "#")
       /\ 10 <= List.length ts
       /\ PyInt.int PyInt.cpython (Bash.from_1 ts) = Return n
       /\ Forall (literal PyInt.cpython) (Bash.from_1 ts)
       /\ Bash.get_time_as_integer PyInt.cpython Sample.entry = Return n.
Proof.
  assert (H : Bash.is_valid PyInt.cpython Sample.entry = Return true)
    by (vm_compute; reflexivity).
  split; [exact H |].
  exact (hist_entry_valid_timestamp PyInt.cpython Sample.entry H).
Defined.

(** What [int] takes for an integer is more than ASCII digits: a timestamp
    with a sign, underscores and trailing white space passes [is_valid], and
    so does one with digits or blanks of another script. *)
Example hist_entry_signed_timestamp :
  let self := {| Bash.line := Avail (Unicode.of_string "ls");
                 Bash.timestamp := Avail (Unicode.of_string "#-1_577_836_800 ") |} in
  Bash.is_valid PyInt.cpython self = Return true
  /\ Bash.get_time_as_integer PyInt.cpython self = Return (-1577836800)%Z.
Proof. split; vm_compute; reflexivity. Qed.

Example hist_entry_unicode_timestamp :
  let arabic := {| Bash.line := Avail (Unicode.of_string "ls");
                   Bash.timestamp :=
                     Avail (Unicode.of_string "#12345678" ++ [0x661%N])%list |} in
  let blank := {| Bash.line := Avail (Unicode.of_string "ls");
                  Bash.timestamp :=
                    Avail (Unicode.of_string "#123456789" ++ [0xa0%N])%list |} in
  Bash.is_valid PyInt.cpython arabic = Return true
  /\ Bash.get_time_as_integer PyInt.cpython arabic = Return 123456781%Z
  /\ Bash.is_valid PyInt.cpython blank = Return true
  /\ Bash.get_time_as_integer PyInt.cpython blank = Return 123456789%Z.
Proof. repeat split; vm_compute; reflexivity. Qed.

(** The separators 0x1c to 0x1f are white space for [str.isspace] but not
    for [int]. *)
Example hist_entry_separator_timestamp :
  Bash.is_valid PyInt.cpython
    {| Bash.line := Avail (Unicode.of_string "ls");
       Bash.timestamp := Avail (Unicode.of_string "#123456789" ++ [0x1c%N])%list |}
  = Return false.
Proof. vm_compute. reflexivity. Qed.

(** A fault that is not a page fault is not caught by [is_valid]. *)
Example hist_entry_invalid_address :
  Bash.is_valid PyInt.cpython
    {| Bash.line := Fault invalid_address;
       Bash.timestamp := Avail (Unicode.of_string "#1577836800") |}
  = Raise InvalidAddressException
  /\ Bash.is_valid PyInt.cpython
       {| Bash.line := Fault paged_invalid_address;
          Bash.timestamp := Avail (Unicode.of_string "#1577836800") |}
     = Return false.
Proof. split; reflexivity. Qed.

(** The sample image, process by process: nothing for the process whose
    handle table is unreadable; for the other, the rows of the file it holds
    a handle to, then the row of the library it maps. *)
Example generator_sample :
  yields (generator (run {| pid := None; fileoffset := None |} Sample.ctx)
            empty_world)
  = [ (0%Z, ("DataSectionObject", 0xabc%Z, "notepad.exe",
             "Stored file.0xabc.0x1000.DataSectionObject.notepad.exe.dat"));
      (0%Z, ("SharedCacheMap", 0xabc%Z, "notepad.exe",
             "No data is cached for the file at 0xabc"));
      (0%Z, ("ImageSectionObject", 0x123%Z, "ntdll.dll",
             "Stored file.0x123.0x1000.ImageSectionObject.ntdll.dll.img")) ].
Proof. vm_compute. reflexivity. Qed.

(** With a pid, only that process is walked. *)
Example generator_sample_pid :
  yields (generator (run {| pid := Some 4%Z; fileoffset := None |} Sample.ctx)
            empty_world)
  = [].
Proof. vm_compute. reflexivity. Qed.

(** With an offset, only the file object at that offset is dumped. *)
Example generator_sample_offset :
  generator (run {| pid := Some 4%Z; fileoffset := Some 0xabc%Z |} Sample.ctx)
    empty_world
  = ([ (0%Z, ("DataSectionObject", 0xabc%Z, "notepad.exe",
              "Stored file.0xabc.0x1000.DataSectionObject.notepad.exe.dat"));
       (0%Z, ("SharedCacheMap", 0xabc%Z, "notepad.exe",
              "No data is cached for the file at 0xabc")) ],
     Return tt,
     {| files := [ {| preferred_filename :=
                        "file.0xabc.0x1000.DataSectionObject.notepad.exe.dat";
                      data := BytesIO.mk
                                [Byte.x41; Byte.x41; Byte.x42; Byte.x42;
                                 Byte.x42; Byte.x42] 6 |} ];
        vollog := [ (LOGLEVEL_VVV,
                     "ImageSectionObject is unavailable for file 0xabc") ] |}).
Proof. vm_compute. reflexivity. Qed.

(* ===================================================================== *)
(** ** More on the bash [hist_entry] *)
(* ===================================================================== *)

(** X1.  [is_valid] returns [True] exactly for the entries whose command
    is readable and not empty and whose timestamp is readable, at least 10
    characters long, starts with ["#"] and continues with a literal that
    [int] accepts. *)
Theorem hist_entry_is_valid_iff :
  forall py self,
    Bash.is_valid py self = Return true
    <-> exists cmd ts n,
          Bash.line self = Avail cmd /\ cmd <> []
          /\ Bash.timestamp self = Avail ts
          /\ 10 <= List.length ts
          /\ nth_error ts 0 = Some (Unicode.ord "#")
          /\ PyInt.int py (Bash.from_1 ts) = Return n.
Proof.
  intros py self. split.
  - intros H.
    unfold Bash.is_valid, Bash.get_command, Bash.obind, Bash.otry in H.
    destruct (Bash.line self) as [cmd | f1]; simpl in H.
    2: { destruct f1; simpl in H; discriminate. }
    destruct (Bash.timestamp self) as [ts | f2]; simpl in H.
    2: { destruct f2; simpl in H; discriminate. }
    destruct (List.length cmd =? 0)%nat eqn:Ec; [discriminate |].
    destruct (List.length ts =? 0)%nat; [discriminate |].
    destruct (List.length ts <? 10)%nat eqn:Elen; [discriminate |].
    destruct (Bash.first_is_not_hash ts) eqn:Eh; [discriminate |]. simpl in H.
    destruct (PyInt.int py (Bash.from_1 ts)) as [n | e] eqn:Ei.
    2: { rewrite (int_raises py _ e Ei) in H. simpl in H. discriminate. }
    exists cmd, ts, n. split; [reflexivity |]. split.
    { intros ->. discriminate. }
    split; [reflexivity |]. split; [apply Nat.ltb_ge, Elen |]. split; [| exact Ei].
    destruct ts as [| c ts']; [discriminate |]. simpl in Eh |- *.
    apply negb_false_iff in Eh. apply N.eqb_eq in Eh. subst c. reflexivity.
  - intros (cmd & ts & n & Hl & Hc & Ht & Hlen & Hh & Hi).
    unfold Bash.is_valid, Bash.get_command, Bash.obind, Bash.otry.
    rewrite Hl, Ht. simpl.
    destruct cmd as [| c0 cmd']; [contradiction Hc; reflexivity |].
    destruct ts as [| c ts']; [simpl in Hlen; lia |].
    simpl in Hh. injection Hh as ->.
    cbn [List.length Nat.eqb Bash.first_is_not_hash Bash.from_1] in *.
    destruct (Nat.ltb_spec (S (List.length ts')) 10) as [Hlt | _]; [lia |].
    rewrite N.eqb_refl. cbn [negb orb].
    rewrite Hi. reflexivity.
Qed.

(** X2.  [is_valid] lets no [ValueError] out and turns a page fault on
    either string into [False]; the only exception it raises is an
    [InvalidAddressException] that is not a page fault, when the command
    cannot be read or, the command being readable, the timestamp cannot. *)
Theorem hist_entry_is_valid_raises :
  forall py self,
    (forall e,
       Bash.is_valid py self = Raise e
       <-> e = InvalidAddressException
           /\ (Bash.line self = Fault invalid_address
               \/ exists cmd, Bash.line self = Avail cmd
                              /\ Bash.timestamp self = Fault invalid_address))
    /\ (Bash.line self = Fault paged_invalid_address
        \/ (exists cmd, Bash.line self = Avail cmd
                        /\ Bash.timestamp self = Fault paged_invalid_address)
        -> Bash.is_valid py self = Return false).
Proof.
  intros py self.
  unfold Bash.is_valid, Bash.get_command, Bash.obind, Bash.otry.
  destruct (Bash.line self) as [cmd | f1]; simpl.
  - destruct (Bash.timestamp self) as [ts | f2]; simpl.
    + split.
      * intros e. split.
        -- intros H. exfalso.
           destruct (List.length cmd =? 0)%nat; [discriminate |].
           destruct (List.length ts =? 0)%nat; [discriminate |].
           destruct (_ || _); [discriminate |].
           destruct (PyInt.int py (Bash.from_1 ts)) as [n | e'] eqn:Ei;
             simpl in H; [discriminate |].
           rewrite (int_raises py _ e' Ei) in H. simpl in H. discriminate.
        -- intros [_ [H | (c & H & H')]]; discriminate.
      * intros [H | (c & _ & H)]; discriminate.
    + destruct f2; simpl.
      * split.
        -- intros e. split.
           ++ intros [= <-]. split; [reflexivity |]. right. exists cmd. auto.
           ++ intros [-> _]. reflexivity.
        -- intros [H | (c & _ & H)]; discriminate.
      * split.
        -- intros e. split; [discriminate |].
           intros [_ [H | (c & _ & H)]]; discriminate.
        -- intros _. reflexivity.
  - destruct f1; simpl.
    + split.
      * intros e. split.
        -- intros [= <-]. split; [reflexivity |]. left. reflexivity.
        -- intros [-> _]. reflexivity.
      * intros [H | (c & H & _)]; discriminate.
    + split.
      * intros e. split; [discriminate |].
        intros [_ [H | (c & H & _)]]; discriminate.
      * intros _. reflexivity.
Qed.

(** X3.  [get_time_as_integer] checks nothing itself: on a readable
    timestamp of at most one character it raises [ValueError], because what
    follows the first character is empty. *)
Theorem get_time_as_integer_short_timestamp :
  forall py self ts,
    Bash.timestamp self = Avail ts ->
    List.length ts <= 1 ->
    Bash.get_time_as_integer py self = Raise ValueError.
Proof.
  intros py self ts Ht Hlen. unfold Bash.get_time_as_integer, Bash.obind.
  rewrite Ht. simpl.
  destruct ts as [| c [| c' r]]; [reflexivity | reflexivity |].
  simpl in Hlen. lia.
Qed.

Lemma get_time_as_integer_short_timestamp_witness :
  Bash.timestamp {| Bash.line := Avail (Unicode.of_string "ls");
                    Bash.timestamp := Avail (Unicode.of_string "#") |}
  = Avail (Unicode.of_string "#")
  /\ List.length (Unicode.of_string "#") <= 1
  /\ Bash.get_time_as_integer PyInt.cpython
       {| Bash.line := Avail (Unicode.of_string "ls");
          Bash.timestamp := Avail (Unicode.of_string "#") |}
     = Raise ValueError.
Proof.
  assert (H1 : Bash.timestamp {| Bash.line := Avail (Unicode.of_string "ls");
                                 Bash.timestamp := Avail (Unicode.of_string "#") |}
               = Avail (Unicode.of_string "#"))
    by reflexivity.
  assert (H2 : List.length (Unicode.of_string "#") <= 1) by (simpl; lia).
  split; [exact H1 |]. split; [exact H2 |].
  exact (get_time_as_integer_short_timestamp PyInt.cpython _
           (Unicode.of_string "#") H1 H2).
Defined.

(* ===================================================================== *)
(** ** More on the reconstructed buffer *)
(* ===================================================================== *)

Module BufferFacts.
Import BytesIO.

Lemma write_length b off d :
  List.length (getvalue (write (seek b off) d))
  = match d with
    | [] => List.length (getvalue b)
    | _ => Nat.max (List.length (getvalue b)) (off + List.length d)
    end.
Proof.
  destruct d as [| x d']; [reflexivity |].
  unfold write, seek. cbn [getvalue pos].
  set (dd := x :: d').
  assert (Hd : 0 < List.length dd) by (simpl; lia).
  rewrite !length_app, length_firstn, length_skipn, !length_app, repeat_length.
  lia.
Qed.

(** Between the old end of the buffer and the position of a write there are
    zero bytes. *)
Lemma write_padding b off d o :
  d <> [] ->
  List.length (getvalue b) <= o < off ->
  nth_error (getvalue (write (seek b off) d)) o = Some Byte.x00.
Proof.
  intros Hd Ho. destruct d as [| x d']; [contradiction Hd; reflexivity |].
  unfold write, seek. cbn [getvalue pos].
  set (padded := (getvalue b ++ repeat Byte.x00 (off - List.length (getvalue b)))%list).
  assert (Hp : List.length padded = off).
  { unfold padded. rewrite length_app, repeat_length. lia. }
  rewrite nth_error_app1 by (rewrite length_firstn; lia).
  rewrite nth_error_firstn.
  destruct (Nat.ltb_spec o off); [| lia].
  unfold padded. rewrite nth_error_app2 by lia.
  apply nth_error_repeat. lia.
Qed.

End BufferFacts.

(** The bytes the layer returned for a page are as many as the page asks. *)
Lemma completes_lengths layer pages ws :
  reads_exactly layer ->
  iteration_completes layer pages ws ->
  forall p d, In (p, d) ws -> List.length d = N.to_nat (snd p).
Proof.
  intros Hexact H. induction H as [| mo fo sz rest d ws Hr Hrest IH];
    intros p' d' Hin.
  - destruct Hin.
  - destruct Hin as [Heq | Hin].
    + injection Heq as <- <-. simpl. eapply Hexact; eassumption.
    + apply IH. exact Hin.
Qed.

(** The range the bytes of a page were written to. *)
Lemma written_range layer pages ws :
  reads_exactly layer ->
  iteration_completes layer pages ws ->
  forall p d o, In (p, d) ws ->
    (fileoffset_of p <= o < fileoffset_of p + List.length d <-> in_range p o).
Proof.
  intros Hexact H p d o Hin.
  pose proof (completes_lengths layer pages ws Hexact H p d Hin) as Hl.
  destruct p as [[mo fo] sz]. unfold in_range, fileoffset_of. simpl in *.
  rewrite Hl. reflexivity.
Qed.

(** Positions no write covers hold zero bytes, if they did or did not
    exist before. *)
Lemma apply_writes_gap ws : forall b o,
  (o < List.length (BytesIO.getvalue b) ->
   nth_error (BytesIO.getvalue b) o = Some Byte.x00) ->
  (forall p d, In (p, d) ws ->
     ~ (fileoffset_of p <= o < fileoffset_of p + List.length d)) ->
  o < List.length (BytesIO.getvalue (apply_writes ws b)) ->
  nth_error (BytesIO.getvalue (apply_writes ws b)) o = Some Byte.x00.
Proof.
  induction ws as [| [[[mo fo] sz] d] ws IH]; intros b o Hb Hout Hlen.
  - apply Hb. exact Hlen.
  - unfold apply_writes in *. simpl in *.
    assert (H0 : ~ (N.to_nat fo <= o < N.to_nat fo + List.length d)).
    { apply (Hout (mo, fo, sz) d). left. reflexivity. }
    apply IH.
    + intros Hlt. rewrite BufferFacts.write_length in Hlt.
      destruct d as [| x d']; [apply Hb; exact Hlt |].
      destruct (Nat.lt_ge_cases o (List.length (BytesIO.getvalue b))) as [Hin | Hge].
      * rewrite BytesIOFacts.write_elsewhere by assumption. apply Hb. exact Hin.
      * apply BufferFacts.write_padding; [discriminate |]. simpl in *. lia.
    + intros p d' Hin. apply Hout. right. exact Hin.
    + exact Hlen.
Qed.

(** The length of the buffer: every write with bytes ends within it, and
    unless it kept its length it ends where one of them ends. *)
Lemma apply_writes_length ws : forall b,
  List.length (BytesIO.getvalue b)
  <= List.length (BytesIO.getvalue (apply_writes ws b))
  /\ (forall p d, In (p, d) ws -> d <> [] ->
        fileoffset_of p + List.length d
        <= List.length (BytesIO.getvalue (apply_writes ws b)))
  /\ (List.length (BytesIO.getvalue (apply_writes ws b))
      = List.length (BytesIO.getvalue b)
      \/ exists p d, In (p, d) ws /\ d <> []
           /\ List.length (BytesIO.getvalue (apply_writes ws b))
              = fileoffset_of p + List.length d).
Proof.
  induction ws as [| [[[mo fo] sz] d] ws IH]; intros b.
  - split; [apply Nat.le_refl |]. split; [intros p d [] | left; reflexivity].
  - unfold apply_writes in *. simpl.
    set (b1 := BytesIO.write (BytesIO.seek b (N.to_nat fo)) d).
    destruct (IH b1) as (Hge & Hends & Hlast).
    pose proof (BufferFacts.write_length b (N.to_nat fo) d) as Hl. fold b1 in Hl.
    split; [| split].
    + destruct d; lia.
    + intros p d' [Heq | Hin] Hd.
      * injection Heq as <- <-. simpl. destruct d; [contradiction Hd; reflexivity | lia].
      * apply Hends; assumption.
    + destruct Hlast as [Hsame | (p & d' & Hin & Hd & Heq)].
      * destruct d as [| x d0].
        -- left. lia.
        -- destruct (Nat.max_spec (List.length (BytesIO.getvalue b))
                       (N.to_nat fo + List.length (x :: d0))) as [[_ Hm] | [_ Hm]].
           ++ right. exists (mo, fo, sz), (x :: d0).
              split; [left; reflexivity |]. split; [discriminate |].
              simpl fileoffset_of. lia.
           ++ left. lia.
      * right. exists p, d'. split; [right; exact Hin |]. split; assumption.
Qed.

(** X4.  After a fault-free reconstruction, every offset of the buffer that
    lies in the destination range of no page holds a zero byte: the gaps of
    the sparse file are filled with zeroes. *)
Theorem write_pages_gaps_are_zero :
  forall Y layer pages ws desired_file_name w,
    reads_exactly layer ->
    iteration_completes layer pages ws ->
    exists filedata,
      write_pages (Y := Y) layer pages (new_FileInterface desired_file_name) w
      = ([], Return filedata, w)
      /\ forall o,
           o < List.length (BytesIO.getvalue (data filedata)) ->
           (forall p d, In (p, d) ws -> ~ in_range p o) ->
           nth_error (BytesIO.getvalue (data filedata)) o = Some Byte.x00.
Proof.
  intros Y layer pages ws name w Hexact H.
  eexists. split; [apply (write_pages_completes Y layer pages ws H) |].
  cbn [data new_FileInterface]. intros o Hlen Hout.
  apply apply_writes_gap.
  - simpl. intros Hlt. lia.
  - intros p d Hin Hr. apply (Hout p d Hin).
    apply (written_range layer pages ws Hexact H p d o Hin). exact Hr.
  - exact Hlen.
Qed.

Lemma write_pages_gaps_are_zero_witness :
  reads_exactly Sample.layer
  /\ iteration_completes Sample.layer
       (Yield (1%Z, 3%N, 2%N) Exhausted) [ ((1%Z, 3%N, 2%N), repeat Byte.x41 2) ]
  /\ exists filedata,
       write_pages (Y := row) Sample.layer (Yield (1%Z, 3%N, 2%N) Exhausted)
         (new_FileInterface "file.out") empty_world
       = ([], Return filedata, empty_world)
       /\ nth_error (BytesIO.getvalue (data filedata)) 1 = Some Byte.x00.
Proof.
  assert (He : reads_exactly Sample.layer).
  { intros offset size d Hr. unfold Sample.layer in Hr. cbn [read] in Hr.
    destruct offset as [| p |]; [| destruct p as [p | p |]; [| destruct p |] |];
      try discriminate; injection Hr as <-; apply repeat_length. }
  assert (H : iteration_completes Sample.layer
                (Yield (1%Z, 3%N, 2%N) Exhausted)
                [ ((1%Z, 3%N, 2%N), repeat Byte.x41 2) ]).
  { apply completes_step; [reflexivity | apply completes_end]. }
  split; [exact He |]. split; [exact H |].
  destruct (write_pages_gaps_are_zero row Sample.layer _ _ "file.out"
              empty_world He H) as [filedata [Hw Hgap]].
  exists filedata. split; [exact Hw |].
  apply Hgap.
  - unfold write_pages, write_page, bind, deref in Hw. simpl in Hw.
    injection Hw as <-. simpl. lia.
  - intros p d [Heq | []]. injection Heq as <- <-.
    unfold in_range. simpl. lia.
Defined.

(** X5.  After a fault-free reconstruction the buffer is as long as the
    largest end of a page that has a size: every such page ends within the
    buffer, and a buffer that is not empty ends where one of them ends.  When
    every page has size zero the buffer is empty, wherever the pages point. *)
Theorem write_pages_length :
  forall Y layer pages ws desired_file_name w,
    reads_exactly layer ->
    iteration_completes layer pages ws ->
    exists filedata,
      write_pages (Y := Y) layer pages (new_FileInterface desired_file_name) w
      = ([], Return filedata, w)
      /\ (forall p d, In (p, d) ws -> nonempty_page p ->
            range_end p <= List.length (BytesIO.getvalue (data filedata)))
      /\ (BytesIO.getvalue (data filedata) = []
          \/ exists p d, In (p, d) ws /\ nonempty_page p
               /\ List.length (BytesIO.getvalue (data filedata)) = range_end p)
      /\ ((forall p d, In (p, d) ws -> ~ nonempty_page p) ->
          BytesIO.getvalue (data filedata) = []).
Proof.
  intros Y layer pages ws name w Hexact H.
  eexists. split; [apply (write_pages_completes Y layer pages ws H) |].
  cbn [data new_FileInterface].
  destruct (apply_writes_length ws BytesIO.empty) as (_ & Hends & Hlast).
  assert (Hconv : forall p d, In (p, d) ws ->
            fileoffset_of p + List.length d = range_end p
            /\ (d <> [] <-> nonempty_page p)).
  { intros p d Hin.
    pose proof (completes_lengths layer pages ws Hexact H p d Hin) as Hl.
    destruct p as [[mo fo] sz]. unfold range_end, nonempty_page, fileoffset_of.
    simpl in *. split; [lia |].
    destruct d; simpl in *; split; intros Hx; try lia; try discriminate.
    contradiction Hx; reflexivity. }
  assert (Hor : BytesIO.getvalue (apply_writes ws BytesIO.empty) = []
                \/ exists p d, In (p, d) ws /\ nonempty_page p
                     /\ List.length (BytesIO.getvalue (apply_writes ws BytesIO.empty))
                        = range_end p).
  { destruct Hlast as [Hz | (p & d & Hin & Hd & Heq)].
    - left. apply length_zero_iff_nil. exact Hz.
    - right. exists p, d. destruct (Hconv p d Hin) as [He Hn].
      split; [exact Hin |]. split; [apply Hn, Hd | lia]. }
  split; [| split].
  - intros p d Hin Hne. destruct (Hconv p d Hin) as [He Hn].
    rewrite <- He. apply Hends; [exact Hin | apply Hn, Hne].
  - exact Hor.
  - intros Hnone. destruct Hor as [Hz | (p & d & Hin & Hne & _)]; [exact Hz |].
    exfalso. exact (Hnone p d Hin Hne).
Qed.

Lemma write_pages_length_witness :
  reads_exactly Sample.layer
  /\ iteration_completes Sample.layer Sample.pages
       [ ((1%Z, 0%N, 4%N), repeat Byte.x41 4); ((2%Z, 2%N, 4%N), repeat Byte.x42 4) ]
  /\ exists filedata,
       write_pages (Y := row) Sample.layer Sample.pages
         (new_FileInterface "file.out") empty_world
       = ([], Return filedata, empty_world)
       /\ range_end (2%Z, 2%N, 4%N)
          <= List.length (BytesIO.getvalue (data filedata)).
Proof.
  assert (He : reads_exactly Sample.layer).
  { intros offset size d Hr. unfold Sample.layer in Hr. cbn [read] in Hr.
    destruct offset as [| p |]; [| destruct p as [p | p |]; [| destruct p |] |];
      try discriminate; injection Hr as <-; apply repeat_length. }
  assert (H : iteration_completes Sample.layer Sample.pages
                [ ((1%Z, 0%N, 4%N), repeat Byte.x41 4);
                  ((2%Z, 2%N, 4%N), repeat Byte.x42 4) ]).
  { apply completes_step; [reflexivity |].
    apply completes_step; [reflexivity |]. apply completes_end. }
  split; [exact He |]. split; [exact H |].
  destruct (write_pages_length row Sample.layer Sample.pages _ "file.out"
              empty_world He H) as [filedata [Hw [Hends _]]].
  exists filedata. split; [exact Hw |].
  apply (Hends (2%Z, 2%N, 4%N) (repeat Byte.x42 4)).
  - right. left. reflexivity.
  - unfold nonempty_page. simpl. lia.
Defined.

Lemma covers_false_all (ws : list (page * bytes)) o :
  existsb (covers o) ws = false ->
  forall p d, In (p, d) ws -> ~ in_range p o.
Proof.
  intros E p d Hin Hr. apply (covers_in_range o p d) in Hr.
  assert (Ht : existsb (covers o) ws = true).
  { apply existsb_exists. exists (p, d). split; assumption. }
  rewrite E in Ht. discriminate.
Qed.

(** The byte of the buffer at a covered position, for pages whose ranges
    are disjoint: the byte of whichever page covers it. *)
Lemma disjoint_byte layer pages ws :
  reads_exactly layer ->
  iteration_completes layer pages ws ->
  forall o, existsb (covers o) ws = true ->
    exists p d, In (p, d) ws /\ in_range p o
      /\ nth_error (reconstructed ws) o = nth_error d (o - fileoffset_of p).
Proof.
  intros Hexact H o E.
  apply existsb_exists in E. destruct E as ([p1 d1] & Hmem & Hc).
  apply In_nth_error in Hmem. destruct Hmem as [j1 Hj1].
  destruct (last_covering ws o) as (i & p & d & Hi & Hr & Hlast).
  { exists j1, p1, d1. split; [exact Hj1 | apply (covers_in_range o p1 d1), Hc]. }
  exists p, d. split; [eapply nth_error_In, Hi |]. split; [exact Hr |].
  unfold reconstructed. apply (apply_writes_last ws BytesIO.empty i p d o Hi).
  - apply (written_range layer pages ws Hexact H p d o); [eapply nth_error_In, Hi | exact Hr].
  - intros j p' d' Hij Hj Hw. apply (Hlast j p' d' Hij Hj).
    apply (written_range layer pages ws Hexact H p' d' o); [eapply nth_error_In, Hj | exact Hw].
Qed.

Lemma reconstructed_length_le layer pages ws pages' ws' :
  reads_exactly layer ->
  iteration_completes layer pages ws ->
  iteration_completes layer pages' ws' ->
  (forall x, In x ws -> In x ws') ->
  List.length (reconstructed ws) <= List.length (reconstructed ws').
Proof.
  intros Hexact H H' Hsub. unfold reconstructed.
  destruct (apply_writes_length ws BytesIO.empty) as (_ & _ & Hlast).
  destruct (apply_writes_length ws' BytesIO.empty) as (_ & Hends' & _).
  destruct Hlast as [Hz | (p & d & Hin & Hd & Heq)].
  - rewrite Hz. simpl. lia.
  - rewrite Heq. apply Hends'; [apply Hsub, Hin | exact Hd].
Qed.

(** X6.  When the destination ranges of the pages are pairwise disjoint,
    the reconstructed bytes do not depend on the order in which the cache
    object yields the pages, and so neither does the result text. *)
Theorem reconstruction_order_independent :
  forall Y layer file_object memory_object memory_object' ws ws' name w,
    reads_exactly layer ->
    iteration_completes layer (get_available_pages memory_object) ws ->
    iteration_completes layer (get_available_pages memory_object') ws' ->
    Permutation ws ws' ->
    ForallOrdPairs disjoint_pages ws ->
    reconstructed ws = reconstructed ws'
    /\ result (dump_file_producer (Y := Y) file_object memory_object layer name w)
       = result (dump_file_producer (Y := Y) file_object memory_object' layer name w).
Proof.
  intros Y layer fo mo mo' ws ws' name w Hexact H H' Hperm Hdis.
  assert (Hto : forall x, In x ws -> In x ws')
    by (intros x; apply Permutation_in; exact Hperm).
  assert (Hfrom : forall x, In x ws' -> In x ws)
    by (intros x; apply Permutation_in, Permutation_sym; exact Hperm).
  assert (Hlen : List.length (reconstructed ws) = List.length (reconstructed ws')).
  { apply Nat.le_antisymm.
    - eapply reconstructed_length_le; eassumption.
    - eapply reconstructed_length_le; eassumption. }
  assert (Heq : reconstructed ws = reconstructed ws').
  { apply nth_error_ext. intros o.
    destruct (existsb (covers o) ws) eqn:E.
    - destruct (disjoint_byte layer _ ws Hexact H o E) as (p & d & Hin & Hr & Hb).
      assert (E' : existsb (covers o) ws' = true).
      { apply existsb_exists. exists (p, d). split; [apply Hto, Hin |].
        apply (covers_in_range o p d), Hr. }
      destruct (disjoint_byte layer _ ws' Hexact H' o E') as (p' & d' & Hin' & Hr' & Hb').
      rewrite Hb, Hb'.
      destruct (ForallOrdPairs_In Hdis (p, d) (p', d') Hin (Hfrom _ Hin'))
        as [Hsame | [Hd | Hd]].
      + injection Hsame as <- <-. reflexivity.
      + exfalso. apply (Hd o). split; assumption.
      + exfalso. apply (Hd o). split; assumption.
    - assert (E' : existsb (covers o) ws' = false).
      { destruct (existsb (covers o) ws') eqn:E'; [| reflexivity].
        apply existsb_exists in E'. destruct E' as ([p d] & Hin & Hc).
        exfalso. apply (covers_false_all ws o E p d (Hfrom _ Hin)).
        apply (covers_in_range o p d), Hc. }
      destruct (Nat.lt_ge_cases o (List.length (reconstructed ws))) as [Hlt | Hge].
      + unfold reconstructed in *.
        rewrite (apply_writes_gap ws BytesIO.empty o).
        * rewrite (apply_writes_gap ws' BytesIO.empty o); [reflexivity | | |].
          -- simpl. intros Hx. lia.
          -- intros p d Hin Hw. apply (covers_false_all ws' o E' p d Hin).
             apply (written_range layer _ ws' Hexact H' p d o Hin), Hw.
          -- rewrite <- Hlen. exact Hlt.
        * simpl. intros Hx. lia.
        * intros p d Hin Hw. apply (covers_false_all ws o E p d Hin).
          apply (written_range layer _ ws Hexact H p d o Hin), Hw.
        * exact Hlt.
      + rewrite (proj2 (nth_error_None (reconstructed ws) o) Hge).
        symmetry. apply nth_error_None. rewrite <- Hlen. exact Hge. }
  split; [exact Heq |].
  rewrite (dump_file_producer_completes Y fo mo layer name w ws H).
  rewrite (dump_file_producer_completes Y fo mo' layer name w ws' H').
  rewrite Heq.
  destruct (_ || _); reflexivity.
Qed.

Lemma reconstruction_order_independent_witness :
  reads_exactly Sample.layer
  /\ Permutation
       [ ((1%Z, 0%N, 2%N), repeat Byte.x41 2); ((2%Z, 4%N, 2%N), repeat Byte.x42 2) ]
       [ ((2%Z, 4%N, 2%N), repeat Byte.x42 2); ((1%Z, 0%N, 2%N), repeat Byte.x41 2) ]
  /\ result (dump_file_producer (Y := row) Sample.file More.forward Sample.layer
               "file.out" empty_world)
     = result (dump_file_producer (Y := row) Sample.file More.backward Sample.layer
                 "file.out" empty_world).
Proof.
  assert (He : reads_exactly Sample.layer).
  { intros offset size d Hr. unfold Sample.layer in Hr. cbn [read] in Hr.
    destruct offset as [| p |]; [| destruct p as [p | p |]; [| destruct p |] |];
      try discriminate; injection Hr as <-; apply repeat_length. }
  assert (H : iteration_completes Sample.layer (get_available_pages More.forward)
                [ ((1%Z, 0%N, 2%N), repeat Byte.x41 2);
                  ((2%Z, 4%N, 2%N), repeat Byte.x42 2) ]).
  { apply completes_step; [reflexivity |].
    apply completes_step; [reflexivity |]. apply completes_end. }
  assert (H' : iteration_completes Sample.layer (get_available_pages More.backward)
                 [ ((2%Z, 4%N, 2%N), repeat Byte.x42 2);
                   ((1%Z, 0%N, 2%N), repeat Byte.x41 2) ]).
  { apply completes_step; [reflexivity |].
    apply completes_step; [reflexivity |]. apply completes_end. }
  assert (Hp : Permutation
                 [ ((1%Z, 0%N, 2%N), repeat Byte.x41 2);
                   ((2%Z, 4%N, 2%N), repeat Byte.x42 2) ]
                 [ ((2%Z, 4%N, 2%N), repeat Byte.x42 2);
                   ((1%Z, 0%N, 2%N), repeat Byte.x41 2) ]).
  { apply perm_swap. }
  assert (Hd : ForallOrdPairs disjoint_pages
                 [ ((1%Z, 0%N, 2%N), repeat Byte.x41 2);
                   ((2%Z, 4%N, 2%N), repeat Byte.x42 2) ]).
  { constructor.
    - constructor; [| constructor].
      intros o. unfold in_range. simpl. lia.
    - constructor; [constructor | constructor]. }
  split; [exact He |]. split; [exact Hp |].
  exact (proj2 (reconstruction_order_independent row Sample.layer Sample.file
                  More.forward More.backward _ _ "file.out" empty_world
                  He H H' Hp Hd)).
Defined.

(* ===================================================================== *)
(** ** More on [process_file_object] *)
(* ===================================================================== *)

Lemma not_in_devices d :
  not_in d [FILE_DEVICE_DISK; FILE_DEVICE_NETWORK_FILE_SYSTEM] = false
  <-> d = FILE_DEVICE_DISK \/ d = FILE_DEVICE_NETWORK_FILE_SYSTEM.
Proof.
  unfold not_in. simpl.
  destruct (Z.eqb_spec d FILE_DEVICE_DISK) as [-> | H1]; simpl.
  - split; auto.
  - destruct (Z.eqb_spec d FILE_DEVICE_NETWORK_FILE_SYSTEM) as [-> | H2]; simpl.
    + split; auto.
    + split; [discriminate | intros [H | H]; contradiction].
Qed.

Lemma bind_step {Y A B} (m : Gen Y A) (k : A -> Gen Y B) w ys a w1 ys' r w2 :
  m w = (ys, Return a, w1) ->
  k a w1 = (ys', r, w2) ->
  bind m k w = ((ys ++ ys')%list, r, w2).
Proof. intros Hm Hk. unfold bind. rewrite Hm, Hk. reflexivity. Qed.

Lemma bind_step_nil {Y A B} (m : Gen Y A) (k : A -> Gen Y B) w a w1 r w2 :
  m w = ([], Return a, w1) ->
  k a w1 = ([], r, w2) ->
  bind m k w = ([], r, w2).
Proof. intros Hm Hk. unfold bind. rewrite Hm, Hk. reflexivity. Qed.

(** What one cache adds to the queue. *)
Lemma queue_cache_run x layer extension msg dp w :
  exists w',
    queue_cache x layer extension msg dp w
    = ([], Return (dp ++ map (fun cache => (cache, layer, extension))
                           (valid_cache x))%list, w').
Proof.
  unfold queue_cache, try_except, bind, deref, valid_cache.
  destruct x as [cache | f]; simpl.
  - destruct (mo_is_valid cache) as [[|] | f]; simpl.
    + eexists. reflexivity.
    + rewrite app_nil_r. eexists. reflexivity.
    + rewrite app_nil_r. destruct f; simpl; eexists; reflexivity.
  - rewrite app_nil_r. destruct f; simpl; eexists; reflexivity.
Qed.

(** The queue [process_file_object] builds: the valid caches in the order
    data, image, shared cache map. *)
Lemma queue_run ctx file_obj w :
  exists w',
    bind (section_caches ctx file_obj [])
         (fun dp => shared_cache ctx file_obj dp) w
    = ([], Return
             (map (fun cache => (cache, memory_layer ctx, "dat"))
                  (valid_cache (DataSectionObject (SectionObjectPointer file_obj)))
              ++ map (fun cache => (cache, memory_layer ctx, "img"))
                   (valid_cache (ImageSectionObject (SectionObjectPointer file_obj)))
              ++ map (fun cache => (cache, primary_layer ctx, "vacb"))
                   (valid_cache (SharedCacheMap (SectionObjectPointer file_obj))))%list,
       w').
Proof.
  rewrite section_caches_unfold.
  destruct (queue_cache_run (DataSectionObject (SectionObjectPointer file_obj))
              (memory_layer ctx) "dat"
              ("DataSectionObject is unavailable for file "
                 ++ Py.format_hex (fo_offset file_obj)) [] w) as [w1 H1].
  destruct (queue_cache_run (ImageSectionObject (SectionObjectPointer file_obj))
              (memory_layer ctx) "img"
              ("ImageSectionObject is unavailable for file "
                 ++ Py.format_hex (fo_offset file_obj))
              ([] ++ map (fun cache => (cache, memory_layer ctx, "dat"))
                       (valid_cache (DataSectionObject (SectionObjectPointer file_obj))))
              w1) as [w2 H2].
  match type of H2 with
  | _ = (_, Return ?dp2, _) =>
      destruct (queue_cache_run (SharedCacheMap (SectionObjectPointer file_obj))
                  (primary_layer ctx) "vacb"
                  ("SharedCacheMap is unavailable for file "
                     ++ Py.format_hex (fo_offset file_obj)) dp2 w2) as [w3 H3]
  end.
  exists w3. simpl app in H2, H3. rewrite <- app_assoc in H3.
  eapply bind_step_nil; [| rewrite shared_cache_unfold; exact H3].
  eapply bind_step_nil; [exact H1 |].
  eapply bind_step_nil; [exact H2 | reflexivity].
Qed.

(** The rows of a loop whose body is framed and returns on the elements of
    the list. *)
Lemma for_rows_in {Y X} (l : list X) (body : X -> Gen Y unit) :
  (forall x, In x l -> framed (body x)) ->
  (forall x, In x l -> returns (body x)) ->
  forall w, yields (for_ l body w) = flat_map (fun x => rows_of (body x)) l
            /\ result (for_ l body w) = Return tt.
Proof.
  induction l as [| x l IH]; intros Hf Hr w; simpl.
  - split; reflexivity.
  - destruct (Hr x (or_introl eq_refl) w) as [[] Hx].
    rewrite (yields_bind _ _ _ _ Hx), (result_bind _ _ _ _ Hx).
    rewrite (framed_yields (body x) w (Hf x (or_introl eq_refl))).
    destruct (IH (fun y Hy => Hf y (or_intror Hy))
                 (fun y Hy => Hr y (or_intror Hy)) (final (body x w))) as [Hy Hres].
    rewrite Hy, Hres. split; reflexivity.
Qed.

(** [dump_file_producer] yields nothing and returns a text. *)
Lemma dump_file_producer_run Y file_object memory_object layer name w :
  exists text w1,
    dump_file_producer (Y := Y) file_object memory_object layer name w
    = ([], Return text, w1).
Proof.
  destruct (iteration_dichotomy layer (get_available_pages memory_object))
    as [H | [ws H]].
  - rewrite (dump_file_producer_faults Y _ _ _ name w H). eexists _, _. reflexivity.
  - rewrite (dump_file_producer_completes Y _ _ _ name w ws H).
    destruct (_ || _); eexists _, _; reflexivity.
Qed.

(** The row of one queued cache. *)
Lemma dump_step_rows file_obj obj_name memory_object layer extension cache_name :
  In (extension, cache_name) EXTENSION_CACHE_MAP ->
  rows_of
    (cache_name <- getitem (Y := row) EXTENSION_CACHE_MAP extension ;;
     let desired_file_name :=
       desired_file_name_of file_obj obj_name memory_object cache_name extension in
     result_text <- dump_file_producer file_obj memory_object layer desired_file_name ;;
     yield (cache_name, fo_offset file_obj, Py.basename obj_name, result_text))
  = [ (cache_name, fo_offset file_obj, Py.basename obj_name,
       result_text file_obj memory_object layer
         (desired_file_name_of file_obj obj_name memory_object cache_name extension)) ].
Proof.
  intros Hmap. unfold rows_of, result_text.
  destruct (dump_file_producer_run row file_obj memory_object layer
              (desired_file_name_of file_obj obj_name memory_object cache_name extension)
              empty_world) as (text & w1 & Hrun).
  rewrite Hrun.
  erewrite bind_step;
    [| apply (getitem_extension _ extension cache_name _ Hmap)
     | cbv zeta; eapply bind_step; [exact Hrun | reflexivity] ].
  reflexivity.
Qed.

Lemma flat_map_map_single {A B C} (f : A -> B) (g : B -> list C) (h : A -> C) l :
  (forall a, g (f a) = [h a]) -> flat_map g (map f l) = map h l.
Proof.
  intros H. induction l as [| a l IH]; simpl; [reflexivity |].
  rewrite H, IH. reflexivity.
Qed.

Lemma dump_all_rows file_obj obj_name layer extension cache_name caches :
  In (extension, cache_name) EXTENSION_CACHE_MAP ->
  flat_map
    (fun x : dump_parameter =>
       rows_of
         (let '(memory_object, layer, extension) := x in
          cache_name <- getitem (Y := row) EXTENSION_CACHE_MAP extension ;;
          let desired_file_name :=
            desired_file_name_of file_obj obj_name memory_object cache_name extension in
          result_text <- dump_file_producer file_obj memory_object layer
                           desired_file_name ;;
          yield (cache_name, fo_offset file_obj, Py.basename obj_name, result_text)))
    (map (fun cache => (cache, layer, extension)) caches)
  = map (fun cache =>
           (cache_name, fo_offset file_obj, Py.basename obj_name,
            result_text file_obj cache layer
              (desired_file_name_of file_obj obj_name cache cache_name extension)))
        caches.
Proof.
  intros Hmap. apply flat_map_map_single. intros cache.
  apply (dump_step_rows file_obj obj_name cache layer extension cache_name Hmap).
Qed.

Lemma bind_assoc {Y A B C} (m : Gen Y A) (k : A -> Gen Y B) (k' : B -> Gen Y C) w :
  bind m (fun a => bind (k a) k') w = bind (bind m k) k' w.
Proof.
  unfold bind. destruct (m w) as [[ys [a | e]] w1]; [| reflexivity].
  destruct (k a w1) as [[ys1 [b | e]] w2]; [| reflexivity].
  destruct (k' b w2) as [[ys2 r] w3]. rewrite app_assoc. reflexivity.
Qed.

Lemma bind_deref_avail {Y A B} (a : A) (k : A -> Gen Y B) w :
  bind (deref (Avail a)) k w = k a w.
Proof.
  unfold bind, deref. simpl. destruct (k a w) as [[ys r] w1]. reflexivity.
Qed.

(** The rows of a file on disk whose name can be read. *)
Lemma process_file_object_run ctx file_obj device_type obj_name w :
  DeviceType file_obj = Avail device_type ->
  device_type = FILE_DEVICE_DISK \/ device_type = FILE_DEVICE_NETWORK_FILE_SYSTEM ->
  file_name_with_device file_obj = Avail obj_name ->
  yields (process_file_object ctx file_obj w)
  = (cache_rows file_obj obj_name
       (DataSectionObject (SectionObjectPointer file_obj)) (memory_layer ctx)
       "DataSectionObject" "dat"
     ++ cache_rows file_obj obj_name
          (ImageSectionObject (SectionObjectPointer file_obj)) (memory_layer ctx)
          "ImageSectionObject" "img"
     ++ cache_rows file_obj obj_name
          (SharedCacheMap (SectionObjectPointer file_obj)) (primary_layer ctx)
          "SharedCacheMap" "vacb")%list
  /\ result (process_file_object ctx file_obj w) = Return tt.
Proof.
  intros Hdt Hdev Hname.
  apply not_in_devices in Hdev.
  destruct (queue_run ctx file_obj w) as [w1 Hq].
  match type of Hq with
  | _ = (_, Return ?q, _) => set (dp := q) in *
  end.
  assert (Hin : forall x, In x dp ->
            exists cache layer extension cache_name,
              x = (cache, layer, extension)
              /\ In (extension, cache_name) EXTENSION_CACHE_MAP).
  { intros x Hx. unfold dp in Hx.
    apply in_app_or in Hx. destruct Hx as [Hx | Hx];
      [| apply in_app_or in Hx; destruct Hx as [Hx | Hx]];
      apply in_map_iff in Hx; destruct Hx as (cache & <- & _);
      eexists _, _, _, _; (split; [reflexivity | simpl; auto]). }
  assert (Hrows :
            yields (dump_all file_obj obj_name dp w1)
            = flat_map
                (fun x : dump_parameter =>
                   rows_of
                     (let '(memory_object, layer, extension) := x in
                      cache_name <- getitem (Y := row) EXTENSION_CACHE_MAP extension ;;
                      let desired_file_name :=
                        desired_file_name_of file_obj obj_name memory_object
                          cache_name extension in
                      result_text <- dump_file_producer file_obj memory_object layer
                                       desired_file_name ;;
                      yield (cache_name, fo_offset file_obj, Py.basename obj_name,
                             result_text)))
                dp
            /\ result (dump_all file_obj obj_name dp w1) = Return tt).
  { unfold dump_all. apply for_rows_in.
    - intros [[mo layer] ext] _.
      apply framed_bind; [apply framed_getitem |]. intros cache_name.
      apply framed_bind; [apply framed_dump_file_producer |]. intros text.
      apply framed_yield.
    - intros x Hx. destruct (Hin x Hx) as (mo & layer & ext & kind & -> & Hmap).
      apply returns_bind_post with (P := fun _ => True).
      + intros w0. exists kind.
        rewrite (getitem_extension _ ext kind w0 Hmap). split; [reflexivity | exact I].
      + intros cache_name _.
        apply returns_bind; [apply returns_dump_file_producer |].
        intros text. apply returns_yield. }
  destruct Hrows as [Hy Hr].
  assert (Hrun : process_file_object ctx file_obj w
                 = bind (bind (section_caches ctx file_obj [])
                           (fun dp => shared_cache ctx file_obj dp))
                     (fun dp => dump_all file_obj obj_name dp) w).
  { rewrite <- bind_assoc. unfold process_file_object.
    rewrite Hdt, bind_deref_avail, Hdev, Hname, bind_deref_avail. reflexivity. }
  rewrite Hrun.
  unfold bind at 1 3. rewrite Hq.
  destruct (dump_all file_obj obj_name dp w1) as [[ys r] w2].
  unfold yields, result in *. simpl in *. subst ys r.
  split; [| reflexivity].
  unfold dp. rewrite !flat_map_app. unfold cache_rows.
  rewrite (dump_all_rows file_obj obj_name (memory_layer ctx) "dat"
             "DataSectionObject"); [| simpl; auto].
  rewrite (dump_all_rows file_obj obj_name (memory_layer ctx) "img"
             "ImageSectionObject"); [| simpl; auto].
  rewrite (dump_all_rows file_obj obj_name (primary_layer ctx) "vacb"
             "SharedCacheMap"); [| simpl; auto].
  reflexivity.
Qed.

(** X7.  For a file object on a disk or on a network file system whose
    name can be read, [process_file_object] returns and yields at most three
    rows, in the order data section, image section, shared cache map: one row
    for each of the three members that can be dereferenced and is valid, none
    for a member that faults or is not valid.  A row carries the cache name,
    the offset of the file object, the base name of the file and the text
    [dump_file_producer] returned for that cache, read from the memory layer
    for the two sections and from the primary layer for the shared cache
    map. *)
Theorem process_file_object_rows :
  forall ctx file_obj device_type obj_name w,
    DeviceType file_obj = Avail device_type ->
    device_type = FILE_DEVICE_DISK \/ device_type = FILE_DEVICE_NETWORK_FILE_SYSTEM ->
    file_name_with_device file_obj = Avail obj_name ->
    yields (process_file_object ctx file_obj w)
    = (cache_rows file_obj obj_name
         (DataSectionObject (SectionObjectPointer file_obj)) (memory_layer ctx)
         "DataSectionObject" "dat"
       ++ cache_rows file_obj obj_name
            (ImageSectionObject (SectionObjectPointer file_obj)) (memory_layer ctx)
            "ImageSectionObject" "img"
       ++ cache_rows file_obj obj_name
            (SharedCacheMap (SectionObjectPointer file_obj)) (primary_layer ctx)
            "SharedCacheMap" "vacb")%list
    /\ result (process_file_object ctx file_obj w) = Return tt
    /\ List.length (yields (process_file_object ctx file_obj w)) <= 3.
Proof.
  intros ctx file_obj device_type obj_name w Hdt Hdev Hname.
  destruct (process_file_object_run ctx file_obj device_type obj_name w
              Hdt Hdev Hname) as [Hy Hr].
  split; [exact Hy |]. split; [exact Hr |].
  rewrite Hy. unfold cache_rows. rewrite !length_app, !length_map.
  assert (Hone : forall x, List.length (valid_cache x) <= 1).
  { intros [cache | f]; simpl; [| lia].
    destruct (mo_is_valid cache) as [[|] | f]; simpl; lia. }
  pose proof (Hone (DataSectionObject (SectionObjectPointer file_obj))).
  pose proof (Hone (ImageSectionObject (SectionObjectPointer file_obj))).
  pose proof (Hone (SharedCacheMap (SectionObjectPointer file_obj))).
  lia.
Qed.

Lemma process_file_object_rows_witness :
  DeviceType Sample.file = Avail FILE_DEVICE_DISK
  /\ (FILE_DEVICE_DISK = FILE_DEVICE_DISK
      \/ FILE_DEVICE_DISK = FILE_DEVICE_NETWORK_FILE_SYSTEM)
  /\ file_name_with_device Sample.file
     = Avail "\Device\HarddiskVolume1\Windows\notepad.exe"
  /\ result (process_file_object Sample.ctx Sample.file empty_world) = Return tt
  /\ List.length (yields (process_file_object Sample.ctx Sample.file empty_world))
     <= 3.
Proof.
  assert (H1 : DeviceType Sample.file = Avail FILE_DEVICE_DISK) by reflexivity.
  assert (H2 : FILE_DEVICE_DISK = FILE_DEVICE_DISK
               \/ FILE_DEVICE_DISK = FILE_DEVICE_NETWORK_FILE_SYSTEM)
    by (left; reflexivity).
  assert (H3 : file_name_with_device Sample.file
               = Avail "\Device\HarddiskVolume1\Windows\notepad.exe")
    by reflexivity.
  split; [exact H1 |]. split; [exact H2 |]. split; [exact H3 |].
  exact (proj2 (process_file_object_rows Sample.ctx Sample.file FILE_DEVICE_DISK
                  "\Device\HarddiskVolume1\Windows\notepad.exe" empty_world
                  H1 H2 H3)).
Defined.

(** X8.  [process_file_object] raises in two cases only, both before its
    first row: when the device type cannot be read, and when the device type
    is a disk or a network file system and the name cannot be read.  The
    exception is that address fault, and nothing was yielded, logged or
    produced.  A fault on one of the three caches never escapes. *)
Theorem process_file_object_raises_iff :
  forall ctx file_obj w e,
    (result (process_file_object ctx file_obj w) = Raise e
     <-> exists f,
           e = exn_of_fault f
           /\ (DeviceType file_obj = Fault f
               \/ exists device_type,
                    DeviceType file_obj = Avail device_type
                    /\ (device_type = FILE_DEVICE_DISK
                        \/ device_type = FILE_DEVICE_NETWORK_FILE_SYSTEM)
                    /\ file_name_with_device file_obj = Fault f))
    /\ (result (process_file_object ctx file_obj w) = Raise e ->
        process_file_object ctx file_obj w = ([], Raise e, w)).
Proof.
  intros ctx file_obj w e.
  destruct (DeviceType file_obj) as [d | f] eqn:Hdt.
  - destruct (not_in d [FILE_DEVICE_DISK; FILE_DEVICE_NETWORK_FILE_SYSTEM]) eqn:Hin.
    + assert (Hrun : process_file_object ctx file_obj w
                     = ([], Return tt,
                        with_log w ("The file object at "
                                      ++ Py.format_hex (fo_offset file_obj)
                                      ++ " is not a file on disk"))).
      { unfold process_file_object. rewrite Hdt, bind_deref_avail, Hin. reflexivity. }
      rewrite Hrun. split; [split |]; try discriminate.
      intros (f & _ & [H | (d' & Hd' & Hdev & _)]); [discriminate |].
      injection Hd' as <-. apply not_in_devices in Hdev. rewrite Hdev in Hin.
      discriminate.
    + destruct (file_name_with_device file_obj) as [name | f] eqn:Hname.
      * destruct (process_file_object_run ctx file_obj d name w Hdt
                    (proj1 (not_in_devices d) Hin) Hname) as [_ Hr].
        rewrite Hr. split; [split |]; try discriminate.
        intros (f & _ & [H | (d' & _ & _ & H)]); discriminate.
      * assert (Hrun : process_file_object ctx file_obj w
                       = ([], Raise (exn_of_fault f), w)).
        { unfold process_file_object. rewrite Hdt, bind_deref_avail, Hin, Hname.
          reflexivity. }
        rewrite Hrun. split; [split |].
        -- intros [= <-]. exists f. split; [reflexivity |]. right.
           exists d. split; [reflexivity |].
           split; [apply not_in_devices, Hin | reflexivity].
        -- intros (f' & -> & [H | (d' & _ & _ & H)]); [discriminate |].
           injection H as <-. reflexivity.
        -- intros [= <-]. reflexivity.
  - assert (Hrun : process_file_object ctx file_obj w
                   = ([], Raise (exn_of_fault f), w)).
    { unfold process_file_object. unfold bind, deref. rewrite Hdt. reflexivity. }
    rewrite Hrun. split; [split |].
    + intros [= <-]. exists f. split; [reflexivity |]. left. reflexivity.
    + intros (f' & -> & [H | (d' & H & _)]); [| discriminate].
      injection H as <-. reflexivity.
    + intros [= <-]. reflexivity.
Qed.

(* ===================================================================== *)
(** ** More on [_generator] *)
(* ===================================================================== *)

Lemma yields_try_log {Y A} (body : Gen Y A) cls (handler : Gen Y A) w :
  (forall w', yields (handler w') = []) ->
  yields (try_except body cls handler w) = yields (body w).
Proof.
  intros Hh. unfold try_except. destruct (body w) as [[ys [a | e]] w1];
    [reflexivity |].
  destruct (isinstance e cls); [| reflexivity].
  specialize (Hh w1). destruct (handler w1) as [[ys' r] w2].
  unfold yields in *. simpl in *. subst ys'. apply app_nil_r.
Qed.

Lemma yield_results_rows ctx file_obj w :
  yields (yield_results ctx file_obj w) = file_rows ctx file_obj.
Proof.
  unfold yield_results, for_yield, file_rows.
  rewrite <- (framed_yields (process_file_object ctx file_obj) w
                (framed_process_file_object ctx file_obj)).
  destruct (process_file_object ctx file_obj w) as [[ys r] w1]. reflexivity.
Qed.

(** The test [obj_type == "File"], as the pattern of the walk decides it. *)
Lemma match_file {T} (obj_type : option string) (a b : T) :
  match obj_type with
  | Some "File" => a
  | _ => b
  end = if is_file obj_type then a else b.
Proof.
  destruct obj_type as [t |]; [| reflexivity]. unfold is_file.
  destruct (String.eqb_spec t "File") as [-> | Hne]; [reflexivity |].
  repeat match goal with
         | |- match ?x with _ => _ end = _ => destruct x; try reflexivity
         end.
  contradiction Hne. reflexivity.
Qed.

Lemma framed_offset_walk ctx offset : framed (offset_walk ctx offset).
Proof.
  unfold offset_walk. apply framed_try_except; [| apply framed_log].
  apply framed_bind; [apply framed_deref |]. intros file_obj.
  apply framed_yield_results.
Qed.

Lemma returns_offset_walk ctx offset : returns (offset_walk ctx offset).
Proof.
  unfold offset_walk. apply returns_try_except; [| apply returns_log].
  apply safe_bind; [apply safe_deref |]. intros file_obj.
  apply safe_yield_results.
Qed.

Lemma offset_walk_rows ctx offset :
  rows_of (offset_walk ctx offset) = offset_rows ctx offset.
Proof.
  unfold rows_of, offset_walk, offset_rows.
  rewrite yields_try_log by reflexivity.
  destruct (object_at ctx offset) as [file_obj | f].
  - rewrite bind_deref_avail. apply yield_results_rows.
  - reflexivity.
Qed.

Lemma handle_entry_rows ctx entry w :
  yields (try_except
            (obj_type <- deref (get_object_type entry) ;;
             match obj_type with
             | Some "File" => yield_results ctx (Body entry)
             | _ => ret tt
             end)
            InvalidAddressException
            (log LOGLEVEL_VVV
               ("Cannot extract file from _OBJECT_HEADER at "
                  ++ Py.format_hex (entry_offset entry))) w)
  = entry_rows ctx entry.
Proof.
  rewrite yields_try_log by reflexivity. unfold entry_rows.
  destruct (get_object_type entry) as [obj_type | f]; [| reflexivity].
  rewrite bind_deref_avail, match_file.
  destruct (is_file obj_type); [apply yield_results_rows | reflexivity].
Qed.

Lemma framed_handle_step ctx entry :
  framed (try_except
            (obj_type <- deref (get_object_type entry) ;;
             match obj_type with
             | Some "File" => yield_results ctx (Body entry)
             | _ => ret tt
             end)
            InvalidAddressException
            (log LOGLEVEL_VVV
               ("Cannot extract file from _OBJECT_HEADER at "
                  ++ Py.format_hex (entry_offset entry)))).
Proof.
  apply framed_try_except; [| apply framed_log].
  apply framed_bind; [apply framed_deref |]. intros obj_type.
  rewrite match_file.
  destruct (is_file obj_type); [apply framed_yield_results | apply framed_ret].
Qed.

Lemma returns_handle_step ctx entry :
  returns (try_except
             (obj_type <- deref (get_object_type entry) ;;
              match obj_type with
              | Some "File" => yield_results ctx (Body entry)
              | _ => ret tt
              end)
             InvalidAddressException
             (log LOGLEVEL_VVV
                ("Cannot extract file from _OBJECT_HEADER at "
                   ++ Py.format_hex (entry_offset entry)))).
Proof.
  apply returns_try_except; [| apply returns_log].
  apply safe_bind; [apply safe_deref |]. intros obj_type.
  rewrite match_file.
  destruct (is_file obj_type);
    [apply safe_yield_results | apply returns_safe, returns_ret].
Qed.

Lemma handle_walk_rows ctx object_table w :
  yields (handle_walk ctx object_table w) = flat_map (entry_rows ctx) object_table.
Proof.
  unfold handle_walk.
  rewrite for_rows;
    [| intros entry; apply framed_handle_step
     | intros entry; apply returns_handle_step].
  apply flat_map_ext. intros entry. apply handle_entry_rows.
Qed.

Lemma bind_ret {Y A B} (a : A) (k : A -> Gen Y B) w :
  bind (ret a) k w = k a w.
Proof.
  unfold bind, ret. destruct (k a w) as [[ys r] w1]. reflexivity.
Qed.

(** The step of the VAD walk. *)
Lemma vad_step_eq ctx vad w :
  try_except
    (file_obj <-
       (if has_ControlArea vad then
          f <- deref (ControlArea_FilePointer vad) ;; ret (Some f)
        else if has_Subsection vad then
          f <- deref (Subsection_ControlArea_FilePointer vad) ;; ret (Some f)
        else ret None) ;;
     match file_obj with
     | None => ret tt
     | Some file_obj =>
         valid <- deref (fo_is_valid file_obj) ;;
         if negb valid then ret tt else yield_results ctx file_obj
     end)
    InvalidAddressException
    (log LOGLEVEL_VVV
       ("Cannot extract file from VAD at " ++ Py.format_hex (vad_offset vad))) w
  = match vad_file vad with
    | None => ([], Return tt, w)
    | Some (Fault f) =>
        ([], Return tt,
         with_log w ("Cannot extract file from VAD at "
                       ++ Py.format_hex (vad_offset vad)))
    | Some (Avail file_obj) =>
        match fo_is_valid file_obj with
        | Avail false => ([], Return tt, w)
        | Avail true =>
            try_except (yield_results ctx file_obj) InvalidAddressException
              (log LOGLEVEL_VVV
                 ("Cannot extract file from VAD at "
                    ++ Py.format_hex (vad_offset vad))) w
        | Fault _ =>
            ([], Return tt,
             with_log w ("Cannot extract file from VAD at "
                           ++ Py.format_hex (vad_offset vad)))
        end
    end.
Proof.
  unfold vad_file.
  assert (Hf : forall (x : access FILE_OBJECT),
             try_except
               (file_obj <- (f <- deref x ;; ret (Some f)) ;;
                match file_obj with
                | None => ret tt
                | Some file_obj =>
                    valid <- deref (fo_is_valid file_obj) ;;
                    if negb valid then ret tt else yield_results ctx file_obj
                end)
               InvalidAddressException
               (log (Y := grid_row) LOGLEVEL_VVV
                  ("Cannot extract file from VAD at "
                     ++ Py.format_hex (vad_offset vad))) w
             = match x with
               | Fault f =>
                   ([], Return tt,
                    with_log w ("Cannot extract file from VAD at "
                                  ++ Py.format_hex (vad_offset vad)))
               | Avail file_obj =>
                   match fo_is_valid file_obj with
                   | Avail false => ([], Return tt, w)
                   | Avail true =>
                       try_except (yield_results ctx file_obj)
                         InvalidAddressException
                         (log LOGLEVEL_VVV
                            ("Cannot extract file from VAD at "
                               ++ Py.format_hex (vad_offset vad))) w
                   | Fault _ =>
                       ([], Return tt,
                        with_log w ("Cannot extract file from VAD at "
                                      ++ Py.format_hex (vad_offset vad)))
                   end
               end).
  { intros [file_obj | f].
    - unfold try_except. rewrite <- bind_assoc, bind_deref_avail, bind_ret.
      destruct (fo_is_valid file_obj) as [[|] | f].
      + rewrite bind_deref_avail. reflexivity.
      + rewrite bind_deref_avail. reflexivity.
      + unfold bind, deref. simpl. destruct f; reflexivity.
    - unfold try_except, bind, deref, ret. simpl. destruct f; reflexivity. }
  destruct (has_ControlArea vad); [apply Hf |].
  destruct (has_Subsection vad); [apply Hf |].
  reflexivity.
Qed.

Lemma vad_step_rows ctx vad w :
  yields
    (try_except
       (file_obj <-
          (if has_ControlArea vad then
             f <- deref (ControlArea_FilePointer vad) ;; ret (Some f)
           else if has_Subsection vad then
             f <- deref (Subsection_ControlArea_FilePointer vad) ;; ret (Some f)
           else ret None) ;;
        match file_obj with
        | None => ret tt
        | Some file_obj =>
            valid <- deref (fo_is_valid file_obj) ;;
            if negb valid then ret tt else yield_results ctx file_obj
        end)
       InvalidAddressException
       (log LOGLEVEL_VVV
          ("Cannot extract file from VAD at " ++ Py.format_hex (vad_offset vad))) w)
  = vad_rows ctx vad.
Proof.
  rewrite vad_step_eq. unfold vad_rows.
  destruct (vad_file vad) as [[file_obj | f] |]; try reflexivity.
  destruct (fo_is_valid file_obj) as [[|] | f]; try reflexivity.
  rewrite yields_try_log by reflexivity. apply yield_results_rows.
Qed.

Lemma vad_walk_rows ctx proc w :
  yields (vad_walk ctx proc w) = flat_map (vad_rows ctx) (vads proc).
Proof.
  pose proof (framed_vad_walk ctx proc) as Hf.
  pose proof (returns_vad_walk ctx proc) as Hr.
  unfold vad_walk in *.
  generalize dependent w. generalize (vads proc). clear Hf Hr.
  intros l. induction l as [| vad l IH]; intros w; [reflexivity |].
  cbn [for_ flat_map].
  assert (Hstep : exists w1,
            result (try_except
                      (file_obj <-
                         (if has_ControlArea vad then
                            f <- deref (ControlArea_FilePointer vad) ;; ret (Some f)
                          else if has_Subsection vad then
                            f <- deref (Subsection_ControlArea_FilePointer vad) ;;
                            ret (Some f)
                          else ret None) ;;
                       match file_obj with
                       | None => ret tt
                       | Some file_obj =>
                           valid <- deref (fo_is_valid file_obj) ;;
                           if negb valid then ret tt else yield_results ctx file_obj
                       end)
                      InvalidAddressException
                      (log (Y := grid_row) LOGLEVEL_VVV
                         ("Cannot extract file from VAD at "
                            ++ Py.format_hex (vad_offset vad))) w) = Return tt
            /\ w1 = w).
  { exists w. split; [| reflexivity]. rewrite vad_step_eq.
    destruct (vad_file vad) as [[file_obj | f] |]; try reflexivity.
    destruct (fo_is_valid file_obj) as [[|] | f]; try reflexivity.
    destruct (returns_try_except (yield_results ctx file_obj)
                (log (Y := grid_row) LOGLEVEL_VVV
                   ("Cannot extract file from VAD at "
                      ++ Py.format_hex (vad_offset vad)))
                (safe_yield_results ctx file_obj)
                (returns_log _ _) w) as [[] Hx].
    exact Hx. }
  destruct Hstep as (_ & Hres & _).
  rewrite (yields_bind _ _ _ _ Hres), vad_step_rows, IH. reflexivity.
Qed.

Lemma framed_generator ctx procs offsets : framed (_generator ctx procs offsets).
Proof.
  unfold _generator. destruct (truthy procs).
  - apply framed_for_. intros proc. apply framed_process_walk.
  - destruct (truthy offsets); [| apply framed_ret].
    apply framed_for_. intros offset. apply framed_offset_walk.
Qed.

Lemma returns_generator ctx procs offsets : returns (_generator ctx procs offsets).
Proof.
  unfold _generator. destruct (truthy procs).
  - apply returns_for_. intros proc. apply returns_process_walk.
  - destruct (truthy offsets); [| apply returns_ret].
    apply returns_for_. intros offset. apply returns_offset_walk.
Qed.

(** X9.  [_generator] never raises, whatever faults the image holds: each
    fault is caught where it occurs.  Its rows do not depend on the files and
    the log it starts with, and it only appends to both. *)
Theorem generator_never_raises :
  forall ctx procs offsets,
    exists ys fs ls,
      forall w,
        _generator ctx procs offsets w
        = (ys, Return tt,
           {| files := (files w ++ fs)%list; vollog := (vollog w ++ ls)%list |}).
Proof.
  intros ctx procs offsets.
  destruct (framed_generator ctx procs offsets) as (ys & r & fs & ls & H).
  exists ys, fs, ls. intros w.
  destruct (returns_generator ctx procs offsets w) as [[] Hr].
  rewrite H in Hr |- *. unfold result in Hr. simpl in Hr. subst r. reflexivity.
Qed.

(** X10.  With explicit offsets and no process, the rows are those of the
    file objects at the offsets, in the order of the offsets and as often as
    an offset is listed; an offset at which no file object can be built gives
    no row and one log record, and the offsets after it are still
    processed. *)
Theorem generator_offsets_rows :
  forall ctx offsets w,
    yields (_generator ctx [] offsets w) = flat_map (offset_rows ctx) offsets
    /\ (forall offset f w',
          object_at ctx offset = Fault f ->
          offset_walk ctx offset w'
          = ([], Return tt,
             with_log w' ("Cannot extract file at " ++ Py.format_hex offset))).
Proof.
  intros ctx offsets w. split.
  - unfold _generator. cbn [truthy].
    destruct offsets as [| offset offsets]; [reflexivity |]. cbn [truthy].
    rewrite for_rows;
      [| intros o; apply framed_offset_walk | intros o; apply returns_offset_walk].
    apply flat_map_ext. intros o. apply offset_walk_rows.
  - intros offset f w' H. unfold offset_walk, try_except, bind, deref.
    rewrite H. simpl. destruct f; reflexivity.
Qed.

(** X11.  The rows of a handle table are the rows of its entries, in
    order: those of the file object for an entry whose type is ["File"], none
    for any other entry.  An entry of another type leaves no trace at all; an
    entry whose type cannot be read leaves one log record; neither stops the
    walk. *)
Theorem handle_walk_entries :
  forall ctx object_table w,
    yields (handle_walk ctx object_table w) = flat_map (entry_rows ctx) object_table
    /\ (forall entry obj_type w',
          get_object_type entry = Avail obj_type ->
          is_file obj_type = false ->
          handle_walk ctx [entry] w' = ([], Return tt, w'))
    /\ (forall entry f w',
          get_object_type entry = Fault f ->
          handle_walk ctx [entry] w'
          = ([], Return tt,
             with_log w' ("Cannot extract file from _OBJECT_HEADER at "
                            ++ Py.format_hex (entry_offset entry)))).
Proof.
  intros ctx object_table w. split; [apply handle_walk_rows |]. split.
  - intros entry obj_type w' Ht Hf. unfold handle_walk. cbn [for_].
    eapply bind_step_nil; [| reflexivity].
    unfold try_except. rewrite Ht, bind_deref_avail, match_file, Hf. reflexivity.
  - intros entry f w' Ht. unfold handle_walk. cbn [for_].
    eapply bind_step_nil; [| reflexivity].
    unfold try_except, bind, deref. rewrite Ht. simpl. destruct f; reflexivity.
Qed.

(** X12.  The rows of a VAD tree are the rows of its nodes, in order.  A
    node is resolved through its control area when it has one (the legacy
    layout), else through its subsection; it gives the rows of the file object
    it points to when that object is valid.  A node of neither layout and a
    node whose file object is not valid leave no trace; a node whose pointer
    or whose validity cannot be read leaves one log record. *)
Theorem vad_walk_nodes :
  forall ctx proc w,
    yields (vad_walk ctx proc w) = flat_map (vad_rows ctx) (vads proc)
    /\ (forall vad w',
          vads proc = [vad] ->
          vad_walk ctx proc w'
          = match vad_file vad with
            | None => ([], Return tt, w')
            | Some (Fault _) =>
                ([], Return tt,
                 with_log w' ("Cannot extract file from VAD at "
                                ++ Py.format_hex (vad_offset vad)))
            | Some (Avail file_obj) =>
                match fo_is_valid file_obj with
                | Avail false => ([], Return tt, w')
                | Avail true => vad_walk ctx proc w'
                | Fault _ =>
                    ([], Return tt,
                     with_log w' ("Cannot extract file from VAD at "
                                    ++ Py.format_hex (vad_offset vad)))
                end
            end).
Proof.
  intros ctx proc w. split; [apply vad_walk_rows |].
  intros vad w' Hv.
  destruct (vad_file vad) as [[file_obj | f] |] eqn:Ef.
  - destruct (fo_is_valid file_obj) as [[|] | f] eqn:Ev; [reflexivity | |];
      unfold vad_walk; rewrite Hv; cbn [for_];
      (eapply bind_step_nil; [| reflexivity]);
      rewrite vad_step_eq, Ef, Ev; reflexivity.
  - unfold vad_walk. rewrite Hv. cbn [for_].
    eapply bind_step_nil; [| reflexivity].
    rewrite vad_step_eq, Ef. reflexivity.
  - unfold vad_walk. rewrite Hv. cbn [for_].
    eapply bind_step_nil; [| reflexivity].
    rewrite vad_step_eq, Ef. reflexivity.
Qed.

Lemma process_rows ctx proc :
  rows_of (process_walk ctx proc)
  = match ObjectTable proc with
    | Avail object_table =>
        (flat_map (entry_rows ctx) object_table
         ++ flat_map (vad_rows ctx) (vads proc))%list
    | Fault _ => []
    end.
Proof.
  rewrite process_walk_rows. destruct (ObjectTable proc) as [t | f]; [| reflexivity].
  unfold rows_of. rewrite handle_walk_rows, vad_walk_rows. reflexivity.
Qed.

(** X13.  There is no deduplication between the two walks: when a process
    holds a handle to a file object and also maps it, the rows of that file
    object appear twice among the rows of the process, first from the handle
    table and then from the VAD tree. *)
Theorem process_rows_duplicate :
  forall ctx proc object_table entry vad w,
    ObjectTable proc = Avail object_table ->
    In entry object_table ->
    get_object_type entry = Avail (Some "File") ->
    In vad (vads proc) ->
    vad_file vad = Some (Avail (Body entry)) ->
    fo_is_valid (Body entry) = Avail true ->
    exists before between after,
      yields (_generator ctx [proc] [] w)
      = (before ++ file_rows ctx (Body entry)
         ++ between ++ file_rows ctx (Body entry) ++ after)%list.
Proof.
  intros ctx proc object_table entry vad w Ht Hin Hfile Hvin Hvf Hvalid.
  rewrite generator_rows. cbn [flat_map]. rewrite app_nil_r, process_rows, Ht.
  apply in_split in Hin. destruct Hin as (t1 & t2 & ->).
  apply in_split in Hvin. destruct Hvin as (v1 & v2 & Hv). rewrite Hv.
  rewrite !flat_map_app. cbn [flat_map].
  assert (He : entry_rows ctx entry = file_rows ctx (Body entry)).
  { unfold entry_rows. rewrite Hfile. reflexivity. }
  assert (Hr : vad_rows ctx vad = file_rows ctx (Body entry)).
  { unfold vad_rows. rewrite Hvf, Hvalid. reflexivity. }
  rewrite He, Hr.
  exists (flat_map (entry_rows ctx) t1),
         (flat_map (entry_rows ctx) t2 ++ flat_map (vad_rows ctx) v1)%list,
         (flat_map (vad_rows ctx) v2).
  rewrite <- !app_assoc. reflexivity.
Qed.

Lemma process_rows_duplicate_witness :
  ObjectTable More.twice = Avail [Sample.handle]
  /\ In Sample.handle [Sample.handle]
  /\ get_object_type Sample.handle = Avail (Some "File")
  /\ In Sample.vad (vads More.twice)
  /\ vad_file Sample.vad = Some (Avail (Body Sample.handle))
  /\ fo_is_valid (Body Sample.handle) = Avail true
  /\ exists before between after,
       yields (_generator Sample.ctx [More.twice] [] empty_world)
       = (before ++ file_rows Sample.ctx (Body Sample.handle)
          ++ between ++ file_rows Sample.ctx (Body Sample.handle) ++ after)%list.
Proof.
  assert (H1 : ObjectTable More.twice = Avail [Sample.handle]) by reflexivity.
  assert (H2 : In Sample.handle [Sample.handle]) by (left; reflexivity).
  assert (H3 : get_object_type Sample.handle = Avail (Some "File")) by reflexivity.
  assert (H4 : In Sample.vad (vads More.twice)) by (left; reflexivity).
  assert (H5 : vad_file Sample.vad = Some (Avail (Body Sample.handle)))
    by reflexivity.
  assert (H6 : fo_is_valid (Body Sample.handle) = Avail true) by reflexivity.
  repeat (split; [assumption |]).
  exact (process_rows_duplicate Sample.ctx More.twice [Sample.handle]
           Sample.handle Sample.vad empty_world H1 H2 H3 H4 H5 H6).
Defined.

(** *** Rows and files *)

Section Accounted.

Context {Y : Type} (names : Y -> list string).

Lemma accounted_same {A} (g : Gen Y A) :
  (forall w, files (final (g w)) = files w /\ yields (g w) = []) ->
  accounted names g.
Proof.
  intros H w. destruct (H w) as [Hf Hy]. exists [].
  rewrite Hf, Hy, app_nil_r. split; reflexivity.
Qed.

Lemma accounted_bind {A B} (m : Gen Y A) (k : A -> Gen Y B) :
  accounted names m -> (forall a, accounted names (k a)) ->
  accounted names (bind m k).
Proof.
  intros Hm Hk w. destruct (Hm w) as (fs & Hf & Hn).
  unfold bind. destruct (m w) as [[ys r] w1]. unfold final, yields in *.
  simpl in *. destruct r as [a | e].
  - destruct (Hk a w1) as (fs' & Hf' & Hn').
    destruct (k a w1) as [[ys' r'] w2]. unfold final, yields in *. simpl in *.
    exists (fs ++ fs')%list. rewrite Hf', Hf, app_assoc, map_app, flat_map_app.
    rewrite Hn, Hn'. split; reflexivity.
  - exists fs. split; assumption.
Qed.

Lemma accounted_try_except {A} (body handler : Gen Y A) cls :
  accounted names body -> accounted names handler ->
  accounted names (try_except body cls handler).
Proof.
  intros Hb Hh w. destruct (Hb w) as (fs & Hf & Hn).
  unfold try_except. destruct (body w) as [[ys r] w1]. unfold final, yields in *.
  simpl in *. destruct r as [a | e].
  - exists fs. split; assumption.
  - destruct (isinstance e cls).
    + destruct (Hh w1) as (fs' & Hf' & Hn').
      destruct (handler w1) as [[ys' r'] w2]. unfold final, yields in *.
      simpl in *.
      exists (fs ++ fs')%list. rewrite Hf', Hf, app_assoc, map_app, flat_map_app.
      rewrite Hn, Hn'. split; reflexivity.
    + exists fs. split; assumption.
Qed.

Lemma accounted_for_ {X} (l : list X) (body : X -> Gen Y unit) :
  (forall x, accounted names (body x)) -> accounted names (for_ l body).
Proof.
  intros Hb. induction l as [| x l IH]; simpl.
  - apply accounted_same. intros w. split; reflexivity.
  - apply accounted_bind; [apply Hb | intros _; exact IH].
Qed.

Lemma accounted_for_yield {Y' A} (g : Gen Y' A) (f : Y' -> Y) :
  accounted (fun y => names (f y)) g -> accounted names (for_yield g f).
Proof.
  intros H w. destruct (H w) as (fs & Hf & Hn). unfold for_yield.
  destruct (g w) as [[ys r] w1]. unfold final, yields in *. simpl in *.
  exists fs. split; [exact Hf |]. rewrite Hn.
  clear. induction ys as [| y ys IH]; simpl; [reflexivity |].
  rewrite IH. reflexivity.
Qed.

End Accounted.

Lemma accounted_queue_cache names x layer extension msg dp :
  accounted names (queue_cache x layer extension msg dp).
Proof.
  apply accounted_same. intros w.
  destruct (queue_cache_run x layer extension msg dp w) as [w' H].
  assert (Hf : files (final (queue_cache x layer extension msg dp w)) = files w).
  { destruct (produces_queue_cache (fun _ => False) x layer extension msg dp w)
      as (fs & Hfs & HP).
    destruct fs as [| f fs]; [rewrite Hfs; apply app_nil_r |].
    inversion HP as [| ? ? Hx]. destruct Hx. }
  split; [exact Hf |]. rewrite H. reflexivity.
Qed.

Lemma getitem_same {Y} d key w :
  exists r, getitem (Y := Y) d key w = ([], r, w).
Proof.
  induction d as [| [k v] d IH]; simpl.
  - eexists. reflexivity.
  - destruct (String.eqb k key); [eexists; reflexivity | exact IH].
Qed.

(** One cache: the file is produced exactly when the row says "Stored". *)
Lemma accounted_dump_step file_obj memory_object layer name cache_name basename :
  accounted row_stored
    (result_text <- dump_file_producer (Y := row) file_obj memory_object layer name ;;
     yield (cache_name, fo_offset file_obj, basename, result_text)).
Proof.
  intros w.
  destruct (iteration_dichotomy layer (get_available_pages memory_object))
    as [H | [ws H]].
  - erewrite bind_step;
      [| apply (dump_file_producer_faults row _ _ _ name w H) | reflexivity].
    exists []. rewrite app_nil_r. split; reflexivity.
  - pose proof (dump_file_producer_completes row file_obj memory_object layer
                  name w ws H) as Hc.
    destruct (_ || _).
    + erewrite bind_step; [| exact Hc | reflexivity].
      exists []. rewrite app_nil_r. split; reflexivity.
    + erewrite bind_step; [| exact Hc | reflexivity].
      eexists. split; reflexivity.
Qed.

Lemma accounted_process_file_object ctx file_obj :
  accounted row_stored (process_file_object ctx file_obj).
Proof.
  unfold process_file_object.
  apply accounted_bind; [apply accounted_same; intros w; split; reflexivity |].
  intros device_type.
  destruct (not_in _ _); [apply accounted_same; intros w; split; reflexivity |].
  apply accounted_bind; [apply accounted_same; intros w; split; reflexivity |].
  intros obj_name.
  apply accounted_bind.
  { rewrite section_caches_unfold.
    apply accounted_bind; [apply accounted_queue_cache |]. intros dp1.
    apply accounted_bind; [apply accounted_queue_cache |]. intros dp2.
    apply accounted_same. intros w. split; reflexivity. }
  intros dp.
  apply accounted_bind; [rewrite shared_cache_unfold; apply accounted_queue_cache |].
  intros dp'. unfold dump_all. apply accounted_for_.
  intros [[memory_object layer] extension].
  apply accounted_bind.
  { apply accounted_same. intros w.
    match goal with
    | |- context [@getitem ?Y0 ?d ?k ?w0] =>
        destruct (@getitem_same Y0 d k w0) as [r Hx]; rewrite Hx
    end.
    split; reflexivity. }
  intros cache_name. apply accounted_dump_step.
Qed.

Lemma accounted_yield_results ctx file_obj :
  accounted grid_stored (yield_results ctx file_obj).
Proof.
  unfold yield_results. apply accounted_for_yield.
  apply (accounted_process_file_object ctx file_obj).
Qed.

Lemma accounted_log {Y} (names : Y -> list string) level msg :
  accounted names (log level msg).
Proof. apply accounted_same. intros w. split; reflexivity. Qed.

Lemma accounted_deref {Y A} (names : Y -> list string) (x : access A) :
  accounted names (deref x).
Proof. apply accounted_same. intros w. split; reflexivity. Qed.

Lemma accounted_ret {Y A} (names : Y -> list string) (a : A) :
  accounted names (ret a).
Proof. apply accounted_same. intros w. split; reflexivity. Qed.

Lemma accounted_generator ctx procs offsets :
  accounted grid_stored (_generator ctx procs offsets).
Proof.
  assert (Hoff : forall offset, accounted grid_stored (offset_walk ctx offset)).
  { intros offset. unfold offset_walk.
    apply accounted_try_except; [| apply accounted_log].
    apply accounted_bind; [apply accounted_deref |]. intros file_obj.
    apply accounted_yield_results. }
  assert (Hh : forall t, accounted grid_stored (handle_walk ctx t)).
  { intros t. unfold handle_walk. apply accounted_for_. intros entry.
    apply accounted_try_except; [| apply accounted_log].
    apply accounted_bind; [apply accounted_deref |]. intros obj_type.
    rewrite match_file.
    destruct (is_file obj_type); [apply accounted_yield_results | apply accounted_ret]. }
  assert (Hv : forall proc, accounted grid_stored (vad_walk ctx proc)).
  { intros proc. unfold vad_walk. apply accounted_for_. intros vad.
    apply accounted_try_except; [| apply accounted_log].
    apply accounted_bind.
    - destruct (has_ControlArea vad); [| destruct (has_Subsection vad)].
      + apply accounted_bind; [apply accounted_deref | intros f; apply accounted_ret].
      + apply accounted_bind; [apply accounted_deref | intros f; apply accounted_ret].
      + apply accounted_ret.
    - intros [file_obj |]; [| apply accounted_ret].
      apply accounted_bind; [apply accounted_deref |].
      intros [|]; simpl; [apply accounted_yield_results | apply accounted_ret]. }
  assert (Hp : forall proc, accounted grid_stored (process_walk ctx proc)).
  { intros proc. unfold process_walk. apply accounted_bind.
    - apply accounted_try_except.
      + apply accounted_bind; [apply accounted_deref | intros t; apply accounted_ret].
      + apply accounted_bind; [apply accounted_log | intros _; apply accounted_ret].
    - intros [t |]; [| apply accounted_ret].
      apply accounted_bind; [apply Hh | intros _; apply Hv]. }
  unfold _generator. destruct (truthy procs).
  - apply accounted_for_. exact Hp.
  - destruct (truthy offsets); [| apply accounted_ret].
    apply accounted_for_. exact Hoff.
Qed.

(** X14.  The files a run hands to [produce_file] are exactly the files
    its rows announce: one file for each row whose result is "Stored <name>",
    under that name and in the order of the rows, and no file for a row that
    says "No data is cached" or "Unable to dump file". *)
Theorem generator_files_match_stored_rows :
  forall ctx procs offsets w,
    exists fs,
      files (final (_generator ctx procs offsets w)) = (files w ++ fs)%list
      /\ map preferred_filename fs
         = flat_map (fun r : grid_row => stored_name (snd (snd r)))
             (yields (_generator ctx procs offsets w)).
Proof.
  intros ctx procs offsets w.
  exact (accounted_generator ctx procs offsets w).
Qed.

(** *** The names of the files *)

Lemma chars_app a b : Py.chars (a ++ b) = (Py.chars a ++ Py.chars b)%list.
Proof.
  unfold Py.chars. induction a as [| c a IH]; simpl; [reflexivity |].
  rewrite IH. reflexivity.
Qed.

Lemma sep_free_app a b : sep_free a -> sep_free b -> sep_free (a ++ b).
Proof.
  unfold sep_free. intros Ha Hb. rewrite chars_app. apply Forall_app.
  split; assumption.
Qed.

Lemma sep_free_hex_uint d : sep_free (NilEmpty.string_of_uint d).
Proof.
  unfold sep_free, Py.chars.
  induction d; simpl; constructor; try reflexivity; assumption.
Qed.

Lemma sep_free_hex_digits n : sep_free (Py.hex_digits n).
Proof.
  unfold Py.hex_digits, NilZero.string_of_uint.
  destruct (N.to_hex_uint n); try apply sep_free_hex_uint.
  unfold sep_free. simpl. constructor; [reflexivity | constructor].
Qed.

Lemma sep_free_format_hex z : sep_free (Py.format_hex z).
Proof.
  unfold Py.format_hex. destruct z;
    (apply sep_free_app; [| apply sep_free_hex_digits]);
    unfold sep_free; simpl; repeat constructor.
Qed.

Lemma take_while_all {A} (f : A -> bool) l :
  Forall (fun x => f x = true) (Py.take_while f l).
Proof.
  induction l as [| x l IH]; simpl; [constructor |].
  destruct (f x) eqn:E; constructor; assumption.
Qed.

(** [ntpath.basename] leaves no separator, whatever the path. *)
Lemma sep_free_basename p : sep_free (Py.basename p).
Proof.
  unfold sep_free, Py.basename, Py.chars, Py.str, Py.basename_chars, Py.split_tail.
  rewrite list_ascii_of_string_of_list_ascii.
  apply Forall_rev.
  eapply Forall_impl; [| apply take_while_all].
  intros c Hc. unfold Py.nonsep in Hc. apply negb_true_iff. exact Hc.
Qed.

Lemma sep_free_named file_obj obj_name f :
  named_by file_obj obj_name f -> sep_free (preferred_filename f).
Proof.
  intros (memory_object & extension & cache_name & Hmap & _ & ->).
  unfold desired_file_name_of.
  assert (Hdot : sep_free ".") by (unfold sep_free; simpl; repeat constructor).
  assert (Hk : sep_free cache_name /\ sep_free extension).
  { destruct Hmap as [H | [H | [H | []]]]; injection H as <- <-;
      split; unfold sep_free; simpl; repeat constructor. }
  destruct Hk as [Hk He].
  repeat (apply sep_free_app;
          [first [ exact Hdot | exact Hk | apply sep_free_format_hex
                 | apply sep_free_basename
                 | unfold sep_free; simpl; repeat constructor ] |]).
  exact He.
Qed.

Lemma produces_weaken {Y A} (P Q : FileInterface -> Prop) (g : Gen Y A) :
  (forall f, P f -> Q f) -> produces P g -> produces Q g.
Proof.
  intros HPQ H w. destruct (H w) as (fs & Hf & HP). exists fs.
  split; [exact Hf |]. eapply Forall_impl; [| exact HP]. exact HPQ.
Qed.

(** Whatever the name of the file object, or none, the files of
    [process_file_object] have names without a separator. *)
Lemma produces_sep_free ctx file_obj :
  produces (fun f => sep_free (preferred_filename f))
    (process_file_object ctx file_obj).
Proof.
  destruct (file_name_with_device file_obj) as [obj_name | f0] eqn:Hname.
  - eapply produces_weaken;
      [| apply (produces_process_file_object ctx file_obj obj_name Hname)].
    intros f. apply sep_free_named.
  - apply produces_same. intros w. unfold process_file_object.
    destruct (DeviceType file_obj) as [d | f1].
    + rewrite bind_deref_avail.
      destruct (not_in _ _); [reflexivity |].
      rewrite Hname. reflexivity.
    + reflexivity.
Qed.

Lemma produces_generator P ctx procs offsets :
  (forall file_obj, produces P (process_file_object ctx file_obj)) ->
  produces P (_generator ctx procs offsets).
Proof.
  intros Hpfo.
  assert (Hy : forall file_obj, produces P (yield_results ctx file_obj)).
  { intros file_obj. apply produces_for_yield, Hpfo. }
  assert (Hs : forall A (a : A), produces P (ret (Y := grid_row) a)).
  { intros A a. apply produces_same. reflexivity. }
  assert (Hd : forall A (x : access A), produces P (deref (Y := grid_row) x)).
  { intros A x. apply produces_same. reflexivity. }
  assert (Hl : forall msg, produces P (log (Y := grid_row) LOGLEVEL_VVV msg)).
  { intros msg. apply produces_same. reflexivity. }
  unfold _generator. destruct (truthy procs).
  - apply produces_for_. intros proc _. unfold process_walk.
    apply produces_bind.
    + apply produces_try_except.
      * apply produces_bind; [apply Hd | intros t; apply Hs].
      * apply produces_bind; [apply Hl | intros _; apply Hs].
    + intros [t |]; [| apply Hs].
      apply produces_bind.
      * unfold handle_walk. apply produces_for_. intros entry _.
        apply produces_try_except; [| apply Hl].
        apply produces_bind; [apply Hd |]. intros obj_type.
        rewrite match_file. destruct (is_file obj_type); [apply Hy | apply Hs].
      * intros _. unfold vad_walk. apply produces_for_. intros vad _.
        apply produces_try_except; [| apply Hl].
        apply produces_bind.
        -- destruct (has_ControlArea vad); [| destruct (has_Subsection vad)].
           ++ apply produces_bind; [apply Hd | intros f; apply Hs].
           ++ apply produces_bind; [apply Hd | intros f; apply Hs].
           ++ apply Hs.
        -- intros [file_obj |]; [| apply Hs].
           apply produces_bind; [apply Hd |].
           intros [|]; simpl; [apply Hy | apply Hs].
  - destruct (truthy offsets); [| apply Hs].
    apply produces_for_. intros offset _. unfold offset_walk.
    apply produces_try_except; [| apply Hl].
    apply produces_bind; [apply Hd |]. intros file_obj. apply Hy.
Qed.

(** X15.  No file a run hands to [produce_file] has a path separator in
    its name, whatever strings the image holds for the names of the file
    objects: the name is built from two hexadecimal offsets, a cache name, an
    extension and the base name of the path, and [ntpath.basename] keeps
    nothing up to the last separator. *)
Theorem generator_file_names_have_no_separator :
  forall ctx procs offsets w,
    exists fs,
      files (final (_generator ctx procs offsets w)) = (files w ++ fs)%list
      /\ Forall
           (fun f =>
              Forall (fun c => c <> "\"%char /\ c <> "/"%char)
                     (list_ascii_of_string (preferred_filename f)))
           fs.
Proof.
  intros ctx procs offsets w.
  destruct (produces_generator (fun f => sep_free (preferred_filename f))
              ctx procs offsets (produces_sep_free ctx) w) as (fs & Hf & HP).
  exists fs. split; [exact Hf |].
  eapply Forall_impl; [| exact HP]. intros f Hs.
  eapply Forall_impl; [| exact Hs]. intros c Hc.
  unfold Py.is_sep, Py.sep, Py.altsep in Hc. apply orb_false_iff in Hc.
  destruct Hc as [H1 H2]. apply Ascii.eqb_neq in H1, H2. split; assumption.
Qed.

(** *** The shape of the rows *)

Section YieldsAll.

Context {Y : Type} (P : Y -> Prop).

Lemma yields_all_none {A} (g : Gen Y A) :
  (forall w, yields (g w) = []) -> yields_all P g.
Proof. intros H w. rewrite H. constructor. Qed.

Lemma yields_all_bind_post {A B} (Q : A -> Prop) (m : Gen Y A) (k : A -> Gen Y B) :
  yields_all P m ->
  (forall w a, result (m w) = Return a -> Q a) ->
  (forall a, Q a -> yields_all P (k a)) ->
  yields_all P (bind m k).
Proof.
  intros Hm HQ Hk w. specialize (Hm w). specialize (HQ w). unfold bind.
  destruct (m w) as [[ys r] w1]. unfold yields, result in *. simpl in *.
  destruct r as [a | e]; [| exact Hm].
  specialize (Hk a (HQ a eq_refl) w1).
  destruct (k a w1) as [[ys' r'] w2]. unfold yields in *. simpl in *.
  apply Forall_app. split; assumption.
Qed.

Lemma yields_all_bind {A B} (m : Gen Y A) (k : A -> Gen Y B) :
  yields_all P m -> (forall a, yields_all P (k a)) -> yields_all P (bind m k).
Proof.
  intros Hm Hk. apply yields_all_bind_post with (Q := fun _ => True); auto.
Qed.

Lemma yields_all_try_except {A} (body handler : Gen Y A) cls :
  yields_all P body -> yields_all P handler ->
  yields_all P (try_except body cls handler).
Proof.
  intros Hb Hh w. specialize (Hb w). unfold try_except.
  destruct (body w) as [[ys r] w1]. unfold yields in *. simpl in *.
  destruct r as [a | e]; [exact Hb |].
  destruct (isinstance e cls); [| exact Hb].
  specialize (Hh w1). destruct (handler w1) as [[ys' r'] w2].
  unfold yields in *. simpl in *. apply Forall_app. split; assumption.
Qed.

Lemma yields_all_for_ {X} (l : list X) (body : X -> Gen Y unit) :
  (forall x, yields_all P (body x)) -> yields_all P (for_ l body).
Proof.
  intros Hb. induction l as [| x l IH]; simpl.
  - apply yields_all_none. reflexivity.
  - apply yields_all_bind; [apply Hb | intros _; exact IH].
Qed.

Lemma yields_all_for_yield {Y' A} (g : Gen Y' A) (f : Y' -> Y) :
  yields_all (fun y => P (f y)) g -> yields_all P (for_yield g f).
Proof.
  intros H w. specialize (H w). unfold for_yield.
  destruct (g w) as [[ys r] w1]. unfold yields in *. simpl in *.
  induction H; simpl; constructor; assumption.
Qed.

End YieldsAll.

Lemma getitem_found {Y} d key w v :
  result (getitem (Y := Y) d key w) = Return v -> In (key, v) d.
Proof.
  induction d as [| [k v'] d IH]; simpl; [discriminate |].
  destruct (String.eqb_spec k key) as [-> | Hne].
  - intros [= <-]. left. reflexivity.
  - intros H. right. apply IH, H.
Qed.

Lemma yields_all_process_file_object ctx file_obj :
  yields_all (row_ok (fo_offset file_obj)) (process_file_object ctx file_obj).
Proof.
  unfold process_file_object.
  apply yields_all_bind; [apply yields_all_none; reflexivity |]. intros device_type.
  destruct (not_in _ _); [apply yields_all_none; reflexivity |].
  apply yields_all_bind; [apply yields_all_none; reflexivity |]. intros obj_name.
  apply yields_all_bind.
  { apply yields_all_none. intros w.
    destruct (queue_run ctx file_obj w) as [w1 Hq].
    pose proof (framed_yields _ w (framed_section_caches ctx file_obj [])) as Hy.
    rewrite Hy. unfold rows_of.
    destruct (queue_run ctx file_obj empty_world) as [w2 Hq2].
    unfold bind in Hq2.
    destruct (section_caches ctx file_obj [] empty_world) as [[ys [a | e]] w3];
      [| injection Hq2 as -> _ _; reflexivity].
    destruct (shared_cache ctx file_obj a w3) as [[ys' r'] w4].
    injection Hq2 as Hys _ _. apply app_eq_nil in Hys. apply Hys. }
  intros dp.
  apply yields_all_bind.
  { apply yields_all_none. intros w. rewrite shared_cache_unfold.
    destruct (queue_cache_run (SharedCacheMap (SectionObjectPointer file_obj))
                (primary_layer ctx) "vacb"
                ("SharedCacheMap is unavailable for file "
                   ++ Py.format_hex (fo_offset file_obj)) dp w) as [w1 H].
    rewrite H. reflexivity. }
  intros dp'. unfold dump_all. apply yields_all_for_.
  intros [[memory_object layer] extension].
  apply yields_all_bind_post
    with (Q := fun cache_name => In (extension, cache_name) EXTENSION_CACHE_MAP).
  - apply yields_all_none. intros w.
    match goal with
    | |- context [@getitem ?Y0 ?d ?k ?w0] =>
        destruct (@getitem_same Y0 d k w0) as [r Hx]; rewrite Hx
    end.
    reflexivity.
  - intros w a. apply getitem_found.
  - intros cache_name Hmap w.
    destruct (dump_file_producer_texts row file_obj memory_object layer
                (desired_file_name_of file_obj obj_name memory_object
                   cache_name extension) w) as (text & Ht & Hcases).
    destruct (dump_file_producer_run row file_obj memory_object layer
                (desired_file_name_of file_obj obj_name memory_object
                   cache_name extension) w) as (text' & w1 & Hrun).
    rewrite Hrun in Ht. unfold result in Ht. simpl in Ht. injection Ht as ->.
    erewrite bind_step; [| exact Hrun | reflexivity].
    constructor; [| constructor].
    split; [reflexivity |]. split; [apply sep_free_basename |].
    exists extension. split; [exact Hmap |].
    destruct Hcases as [-> | [-> | ->]].
    + left. reflexivity.
    + right. right. exists (mo_offset memory_object). reflexivity.
    + right. left. reflexivity.
Qed.

(** X16.  Every row of a run is well formed: its first component is 0; its
    cache name is one of the three of [EXTENSION_CACHE_MAP]; its file name has
    no path separator; and its result is "No data is cached for the file at",
    or "Unable to dump file at", followed by the offset of the row in
    hexadecimal, or "Stored" followed by a name built from the same offset,
    cache name and file name as the row and from the extension that goes with
    the cache name. *)
Theorem generator_rows_well_formed :
  forall ctx procs offsets w,
    Forall
      (fun r : grid_row =>
         let '(zero, (cache_name, offset, basename, result_text)) := r in
         zero = 0%Z
         /\ Forall (fun c => c <> "\"%char /\ c <> "/"%char)
                   (list_ascii_of_string basename)
         /\ exists extension,
              In (extension, cache_name) EXTENSION_CACHE_MAP
              /\ (result_text
                  = "No data is cached for the file at " ++ Py.format_hex offset
                  \/ result_text = "Unable to dump file at " ++ Py.format_hex offset
                  \/ exists cache_offset,
                       result_text
                       = "Stored file." ++ Py.format_hex offset
                           ++ "." ++ Py.format_hex cache_offset
                           ++ "." ++ cache_name ++ "." ++ basename
                           ++ "." ++ extension))
      (yields (_generator ctx procs offsets w)).
Proof.
  intros ctx procs offsets w.
  assert (Hgen : yields_all grid_row_ok (_generator ctx procs offsets)).
  { assert (Hy : forall file_obj, yields_all grid_row_ok (yield_results ctx file_obj)).
    { intros file_obj. unfold yield_results. apply yields_all_for_yield.
      intros w0.
      eapply Forall_impl; [| apply (yields_all_process_file_object ctx file_obj w0)].
      intros r Hr. split; [reflexivity |]. exists (fo_offset file_obj). exact Hr. }
    assert (Hn : forall A (g : Gen grid_row A),
               (forall w0, yields (g w0) = []) -> yields_all grid_row_ok g).
    { intros A g. apply yields_all_none. }
    unfold _generator. destruct (truthy procs).
    - apply yields_all_for_. intros proc. unfold process_walk.
      apply yields_all_bind.
      + apply Hn. intros w0. unfold try_except, bind, deref.
        destruct (ObjectTable proc) as [t | f]; simpl; [reflexivity |].
        destruct f; reflexivity.
      + intros [t |]; [| apply Hn; reflexivity].
        apply yields_all_bind.
        * unfold handle_walk. apply yields_all_for_. intros entry.
          apply yields_all_try_except; [| apply Hn; reflexivity].
          apply yields_all_bind; [apply Hn; reflexivity |]. intros obj_type.
          rewrite match_file.
          destruct (is_file obj_type); [apply Hy | apply Hn; reflexivity].
        * intros _. unfold vad_walk. apply yields_all_for_. intros vad.
          apply yields_all_try_except; [| apply Hn; reflexivity].
          apply yields_all_bind.
          -- apply Hn. intros w0.
             destruct (has_ControlArea vad); [| destruct (has_Subsection vad)];
               try reflexivity; unfold bind, deref;
               match goal with
               | |- context [outcome_of_access ?x] => destruct x; reflexivity
               end.
          -- intros [file_obj |]; [| apply Hn; reflexivity].
             apply yields_all_bind; [apply Hn; reflexivity |].
             intros [|]; simpl; [apply Hy | apply Hn; reflexivity].
    - destruct (truthy offsets); [| apply Hn; reflexivity].
      apply yields_all_for_. intros offset. unfold offset_walk.
      apply yields_all_try_except; [| apply Hn; reflexivity].
      apply yields_all_bind; [apply Hn; reflexivity |]. intros file_obj.
      apply Hy. }
  eapply Forall_impl; [| apply (Hgen w)].
  intros [zero [[[cache_name offset] basename] text]] [Hz (off & Hoff & Hsep & Hrest)].
  simpl in Hz. subst off. split; [exact Hz |]. split.
  - eapply Forall_impl; [| exact Hsep]. intros c Hc.
    unfold Py.is_sep, Py.sep, Py.altsep in Hc. apply orb_false_iff in Hc.
    destruct Hc as [H1 H2]. apply Ascii.eqb_neq in H1, H2. split; assumption.
  - exact Hrest.
Qed.
